(** * create_shared_mailbox.py: a shallow embedding and its properties

    The script creates a shared mailbox through the Yandex 360 admin API and
    assigns roles to the actors listed in a CSV file.  This development
    embeds the script function by function and proves the properties its
    specification states.

    Modelling conventions.
    - A Python [str] is a sequence of code points; the model keeps the code
      points below 256, which is what Rocq's [string] holds.  On that range
      [str.strip], [str.lower], [str.split] and [str.startswith] are
      transcribed exactly (module [PyStr]).
    - Effects are explicit: a computation is a function from the session
      state (pending terminal input, trace of events so far) to an outcome
      and a new state.  What the script only reads (the process environment
      after [load_dotenv], the file system, the HTTP server, the builtin
      [str] on decoded JSON) is the [Platform] it runs on.
    - The texts the script prints are Russian sentences with interpolated
      values; a message is modelled by a constructor naming the sentence and
      carrying the interpolated values. *)

From stdpp Require Import base option list strings gmap.
From Stdlib Require Import ZArith Ascii.

Set Warnings "-register-all,-clear-no-such-hyp".
Local Open Scope Z_scope.

(** ** Python's string methods, on code points below 256 *)

Module PyStr.

(** [str.isspace] of one character: the ASCII table of CPython
    (0x09-0x0D, 0x1C-0x20) and the two Latin-1 spaces 0x85 and 0xA0. *)
Definition isspace (c : ascii) : bool :=
  let n := N_of_ascii c in
  ((9 <=? n) && (n <=? 13) || (28 <=? n) && (n <=? 32)
   || (n =? 133) || (n =? 160))%N.

(** [str.lower] of one character: A-Z, and the Latin-1 capitals
    0xC0-0xDE except the multiplication sign 0xD7. *)
Definition lower_char (c : ascii) : ascii :=
  let n := N_of_ascii c in
  if ((65 <=? n) && (n <=? 90)
      || (192 <=? n) && (n <=? 222) && negb (n =? 215))%N
  then ascii_of_N (n + 32) else c.

Fixpoint lower (s : string) : string :=
  match s with
  | "" => ""
  | String c s' => String (lower_char c) (lower s')
  end.

Fixpoint lstrip (s : string) : string :=
  match s with
  | "" => ""
  | String c s' => if isspace c then lstrip s' else s
  end.

Definition rstrip (s : string) : string := String.rev (lstrip (String.rev s)).

Definition strip (s : string) : string := rstrip (lstrip s).

(** [s.split(sep)] for a one-character separator; [cur] is the field being
    read, reversed. *)
Fixpoint split_go (sep : ascii) (cur : string) (s : string) : list string :=
  match s with
  | "" => [String.rev cur]
  | String c s' =>
      if decide (c = sep) then String.rev cur :: split_go sep "" s'
      else split_go sep (String c cur) s'
  end.

Definition split (sep : ascii) (s : string) : list string := split_go sep "" s.

Definition startswith (p s : string) : bool := String.prefix p s.

(** [sub in s] *)
Fixpoint contains (sub s : string) : bool :=
  String.prefix sub s
  || match s with "" => false | String _ s' => contains sub s' end.

(** Truth value of a [str] and of an [Optional[str]]. *)
Definition nonempty (s : string) : bool := negb (bool_decide (s = "")).

Definition truthy (o : option string) : bool :=
  match o with Some s => nonempty s | None => false end.

End PyStr.

Import PyStr.

(** ** Data *)

(** A decoded JSON value ([r.json()]).  Numbers are the integers; a number
    with a fraction or an exponent decodes to a float, which the model
    leaves out. *)
Inductive json :=
| JNull
| JBool (b : bool)
| JInt (z : Z)
| JStr (s : string)
| JArr (l : list json)
| JObj (m : gmap string json).

(** [bool(v)] *)
Definition json_truthy (v : json) : bool :=
  match v with
  | JNull => false
  | JBool b => b
  | JInt z => negb (z =? 0)
  | JStr s => nonempty s
  | JArr l => match l with [] => false | _ => true end
  | JObj m => negb (bool_decide (m = ∅))
  end.

(** [VALID_NOTIFY = {"all", "delegates", "none"}] *)
Definition VALID_NOTIFY : gset string := {[ "all"; "delegates"; "none" ]}.

(** One row of the actor list: [(actor_id, roles, per_row_notify)]. *)
Definition entry : Type := string * list string * option string.

(** The text of the two [RuntimeError]s the client raises. *)
Inductive diagnostic :=
| CreateFailed (status : Z) (text : string)
| NoMailboxId (data : json)
| SetFailed (actor_id : string) (roles : list string) (notify : string)
    (status : Z) (text : string).

(** The exceptions a run can meet.  [SystemExit] and [KeyboardInterrupt]
    are not subclasses of [Exception]. *)
Inductive exn :=
| SystemExit (code : Z)
| KeyboardInterrupt
| EOFError
| IndexError
| KeyError
| TypeError
| JSONDecodeError
| RequestException
| RuntimeError (d : diagnostic).

Definition is_Exception (e : exn) : bool :=
  match e with
  | SystemExit _ | KeyboardInterrupt => false
  | _ => true
  end.

Definition is_KeyboardInterrupt (e : exn) : bool :=
  match e with KeyboardInterrupt => true | _ => false end.

Inductive prompt :=
| AskEmail | AskName | AskDescription | AskActorsPath | AskNotify.

Inductive message :=
| MsgInterrupted
| MsgEnvMissing
| MsgNotifyIgnored (notify : string)
| MsgFileNotFound (path : string)
| MsgSkipColumns (line_no : nat)
| MsgSkipNoRoles (line_no : nat)
| MsgNoValidRows
| MsgAddSender
| MsgNotifyHelp
| MsgNotifyValues
| MsgNotifyInvalid
| MsgCreateHeader
| MsgBadEmail
| MsgEmptyName
| MsgCreated (mailbox_id : string)
| MsgAssignHeader
| MsgAssigned (actor_id : string) (roles : list string) (notify : string)
| MsgAssignFailed (actor_id : string) (e : exn)
| MsgTotalsHeader
| MsgTotals (ok fail : nat)
| MsgCheckPanel.

(** An HTTP request of the client ([timeout=30] is not modelled). *)
Inductive request :=
| PUT (url : string) (headers : gmap string string) (body : gmap string string)
| POST (url : string) (headers : gmap string string)
    (params : gmap string string) (roles : list string).

Record response := Response {
  status_code : Z;
  text : string;
  content : string;
  decoded : option json       (* [r.json()]; [None] when it raises *)
}.

Inductive http_result :=
| Failed                      (* no response: connection error, timeout *)
| Answer (r : response).

Inductive event :=
| Stdout (m : message)
| Stderr (m : message)
| Prompt (p : prompt)
| IsFile (path : string)
| Open (path : string)
| Http (req : request) (res : http_result).

(** What one [input()] call meets at the terminal. *)
Inductive tty_input :=
| Typed (line : string)
| CtrlC.

(** What the script runs on and only reads.  The server is any function
    of the history of the session and of the request. *)
Class Platform := {
  py_str : json → string;                       (* builtin [str] on a decoded value *)
  environ : gmap string string;                 (* after [load_dotenv()] *)
  files : gmap string (list string);            (* regular files, as lines *)
  http : list event → request → http_result
}.

Record state := State {
  stdin : list tty_input;
  trace : list event
}.

(** ** Computations *)

Inductive outcome (A : Type) :=
| Ret (a : A)
| Raise (e : exn)
| OutOfFuel.
Arguments Ret {A} a.
Arguments Raise {A} e.
Arguments OutOfFuel {A}.

Definition M (A : Type) : Type := state → outcome A * state.

Definition ret {A} (a : A) : M A := λ st, (Ret a, st).

Definition bind {A B} (m : M A) (f : A → M B) : M B := λ st,
  match m st with
  | (Ret a, st') => f a st'
  | (Raise e, st') => (Raise e, st')
  | (OutOfFuel, st') => (OutOfFuel, st')
  end.

Definition raise {A} (e : exn) : M A := λ st, (Raise e, st).

Definition emit (ev : event) : M unit := λ st,
  (Ret tt, State (stdin st) (trace st ++ [ev])).

(** [try: m  except <handles>: h] *)
Definition try_except {A} (m : M A) (handles : exn → bool) (h : exn → M A)
  : M A := λ st,
  match m st with
  | (Raise e, st') => if handles e then h e st' else (Raise e, st')
  | r => r
  end.

Declare Scope py_scope.
Notation "x ← m ; f" := (bind m (λ x, f))
  (at level 20, m at level 100, f at level 200, only parsing) : py_scope.
Notation "' x ← m ; f" := (bind m (λ x, f))
  (at level 20, x pattern, m at level 100, f at level 200, only parsing)
  : py_scope.
Notation "m ;; f" := (bind m (λ _, f))
  (at level 100, f at level 200, only parsing, right associativity)
  : py_scope.
Open Scope py_scope.

Definition print (m : message) : M unit := emit (Stdout m).

(** Exit status of the process for the outcome of the script. *)
Definition exit_status (r : outcome unit) : option Z :=
  match r with
  | Ret _ => Some 0
  | Raise (SystemExit c) => Some c
  | Raise _ => Some 1
  | OutOfFuel => None
  end.

(** ** The script *)

Section Script.
Context `{Platform}.

(** [def die(msg, code=1)] *)
Definition die {A} (msg : message) (code : Z) : M A :=
  emit (Stderr msg);; raise (SystemExit code).

(** [input(prompt)] *)
Definition input (p : prompt) : M string := λ st,
  let tr := trace st ++ [Prompt p] in
  match stdin st with
  | [] => (Raise EOFError, State [] tr)
  | Typed line :: rest => (Ret line, State rest tr)
  | CtrlC :: rest => (Raise KeyboardInterrupt, State rest tr)
  end.

(** [def ask(prompt, default=None)] *)
Definition ask (p : prompt) (dflt : option string) : M string :=
  try_except
    (s ← input p;
     let s := strip s in
     match dflt with
     | Some d => if negb (nonempty s) then ret d else ret s
     | None => ret s
     end)
    is_KeyboardInterrupt
    (λ _, die MsgInterrupted 1).

(** [os.getenv(key, default)] *)
Definition getenv (key dflt : string) : string :=
  default dflt (environ !! key).

(** [x or None] for a string [x] *)
Definition or_None (s : string) : option string :=
  if nonempty s then Some s else None.

(** [def load_env()] *)
Definition load_env : M (string * string * option string) :=
  let token := strip (getenv "TOKEN" "") in
  let org_id := strip (getenv "ORG_ID" "") in
  let notify := or_None (lower (strip (getenv "NOTIFY" ""))) in
  (if negb (nonempty token) || negb (nonempty org_id)
   then die MsgEnvMissing 1 else ret tt);;
  notify ←
    match notify with
    | Some n =>
        if nonempty n && negb (bool_decide (n ∈ VALID_NOTIFY))
        then print (MsgNotifyIgnored n);; ret None
        else ret notify
    | None => ret notify
    end;
  ret (token, org_id, notify).

(** [k in d] for a decoded JSON value [d] and a string [k] *)
Definition json_in (k : string) (d : json) : exn + bool :=
  match d with
  | JObj m => inr (bool_decide (is_Some (m !! k)))
  | JArr l =>
      inr (existsb (λ v, match v with
                         | JStr s => bool_decide (s = k)
                         | _ => false
                         end) l)
  | JStr s => inr (contains k s)
  | JNull | JBool _ | JInt _ => inl TypeError
  end.

(** [d[k]] for a string [k], once [k in d] holds *)
Definition json_item (d : json) (k : string) : exn + json :=
  match d with
  | JObj m => match m !! k with Some v => inr v | None => inl KeyError end
  | _ => inl TypeError
  end.

(** [v not in (None, "")] *)
Definition not_blank (v : json) : bool :=
  match v with
  | JNull => false
  | JStr s => nonempty s
  | _ => true
  end.

(** [def json_get_any(d, keys, default=None)] *)
Fixpoint json_get_any (d : json) (keys : list string) (dflt : json)
  : exn + json :=
  match keys with
  | [] => inr dflt
  | k :: keys' =>
      match json_in k d with
      | inl e => inl e
      | inr false => json_get_any d keys' dflt
      | inr true =>
          match json_item d k with
          | inl e => inl e
          | inr v => if not_blank v then inr v else json_get_any d keys' dflt
          end
      end
  end.

(** [def dedup(items)]: the loop keeps [(seen, res)]. *)
Definition dedup_step (st : gset string * list string) (x : string)
  : gset string * list string :=
  let '(seen, res) := st in
  if decide (x ∈ seen) then (seen, res) else ({[x]} ∪ seen, res ++ [x]).

Definition dedup (items : list string) : list string :=
  (foldl dedup_step (∅, []) items).2.

(** [payload[:-1]] *)
Definition all_but_last {A} (l : list A) : list A := take (length l - 1)%nat l.

(** [parts[i]] *)
Definition item {A} (l : list A) (i : nat) : M A :=
  match l !! i with Some x => ret x | None => raise IndexError end.

(** The body of the [for line_no, line in enumerate(f, 1)] loop of
    [parse_actors_csv]; [continue] returns [out] as it is. *)
Definition parse_line (line_no : nat) (line : string) (out : list entry)
  : M (list entry) :=
  let raw := strip line in
  if negb (nonempty raw) || startswith "#" raw then ret out else
  let parts := strip <$> split "," raw in
  let parts := filter (λ p, nonempty p = true) parts in
  if bool_decide (length parts < 2)%nat
  then print (MsgSkipColumns line_no);; ret out else
  actor_id ← item parts 0;
  let payload := drop 1 parts in
  let '(per_row_notify, roles) :=
    match last payload with
    | Some l =>
        if bool_decide (lower l ∈ VALID_NOTIFY)
        then (Some (lower l), all_but_last payload)
        else (None, payload)
    | None => (None, payload)
    end in
  if bool_decide (roles = [])
  then print (MsgSkipNoRoles line_no);; ret out else
  let roles := dedup roles in
  ret (out ++ [(actor_id, roles, per_row_notify)]).

Fixpoint parse_lines (line_no : nat) (lines : list string) (out : list entry)
  : M (list entry) :=
  match lines with
  | [] => ret out
  | line :: rest =>
      out ← parse_line line_no line out;
      parse_lines (S line_no) rest out
  end.

(** [os.path.isfile(path)] *)
Definition isfile (path : string) : M bool :=
  emit (IsFile path);; ret (bool_decide (is_Some (files !! path))).

(** [open(path, "r", encoding="utf-8")], read as lines *)
Definition open_lines (path : string) : M (list string) :=
  emit (Open path);; ret (default [] (files !! path)).

(** [def parse_actors_csv(path)] *)
Definition parse_actors_csv (path : string) : M (list entry) :=
  found ← isfile path;
  (if negb found then die (MsgFileNotFound path) 1 else ret tt);;
  lines ← open_lines path;
  out ← parse_lines 1 lines [];
  (match out with [] => die MsgNoValidRows 1 | _ => ret tt end);;
  ret out.

(** [def ensure_roles_valid(roles)] *)
Definition ensure_roles_valid (roles : list string) : M (list string) :=
  let roles := dedup roles in
  if bool_decide ("shared_mailbox_owner" ∈ roles)
  then ret ["shared_mailbox_owner"] else
  if negb (existsb (λ r, bool_decide (r ∈ roles))
             ["shared_mailbox_sender"; "shared_mailbox_owner"])
  then print MsgAddSender;; ret (roles ++ ["shared_mailbox_sender"])
  else ret roles.

(** [class Api360] *)
Record Api360 := {
  org_id : string;
  base : string;
  hdrs : gmap string string
}.

Definition Api360_init (token org : string) : Api360 :=
  {| org_id := org;
     base := "https://api360.yandex.net/admin/v1/org/" +:+ org;
     hdrs := {[ "Authorization" := "OAuth " +:+ token;
                "Content-Type" := "application/json";
                "Accept" := "application/json" ]} |}.

(** [requests.put] and [requests.post]: the exchange is logged with its
    result; no response raises.  A request is answered or fails with an
    exception of [requests]; an interrupt from the keyboard arrives at the
    prompts only (see [input]).  An interrupt while a request is in flight,
    which in the source passes the [except Exception] of the assignment loop
    and reaches the handler of the script, is outside this model. *)
Definition send (req : request) : M response := λ st,
  let res := http (trace st) req in
  let st' := State (stdin st) (trace st ++ [Http req res]) in
  match res with
  | Failed => (Raise RequestException, st')
  | Answer r => (Ret r, st')
  end.

(** [r.json()] *)
Definition response_json (r : response) : M json :=
  match decoded r with Some v => ret v | None => raise JSONDecodeError end.

Definition lift {A} (x : exn + A) : M A :=
  match x with inl e => raise e | inr a => ret a end.

(** [def create_shared_mailbox(self, email, name, description)] *)
Definition create_shared_mailbox (self : Api360)
    (email name description : string) : M string :=
  let url := base self +:+ "/mailboxes/shared" in
  let body : gmap string string :=
    {[ "email" := email; "name" := name; "description" := description ]} in
  r ← send (PUT url (hdrs self) body);
  (if bool_decide (status_code r ≠ 200)
   then raise (RuntimeError (CreateFailed (status_code r) (text r)))
   else ret tt);;
  data ← (if nonempty (content r) then response_json r else ret (JObj ∅));
  mailbox_id ← lift (json_get_any data ["id"; "mailboxId"; "resourceId"] JNull);
  (if negb (json_truthy mailbox_id)
   then raise (RuntimeError (NoMailboxId data)) else ret tt);;
  ret (py_str mailbox_id).

(** [def set_access(self, mailbox_id, actor_id, roles, notify)] *)
Definition set_access (self : Api360) (mailbox_id actor_id : string)
    (roles : list string) (notify : string) : M unit :=
  roles ← ensure_roles_valid roles;
  let url := base self +:+ "/mailboxes/set/" +:+ mailbox_id in
  let params : gmap string string :=
    {[ "actorId" := actor_id; "notify" := notify ]} in
  r ← send (POST url (hdrs self) params roles);
  if bool_decide (status_code r ≠ 200)
  then raise (RuntimeError
                (SetFailed actor_id roles notify (status_code r) (text r)))
  else ret tt.

(** The [while True] loop of [resolve_global_notify].  Every turn reads one
    line of input, so the loop is run with more fuel than there is pending
    input (see [resolve_global_notify]). *)
Fixpoint notify_loop (fuel : nat) : M string :=
  match fuel with
  | O => λ st, (OutOfFuel, st)
  | S fuel' =>
      v ← ask AskNotify (Some "all");
      let v := lower v in
      if bool_decide (v ∈ VALID_NOTIFY) then ret v
      else print MsgNotifyInvalid;; notify_loop fuel'
  end.

(** [def resolve_global_notify(env_notify)] *)
Definition resolve_global_notify (env_notify : option string) : M string :=
  if truthy env_notify then ret (default "" env_notify) else
  print MsgNotifyHelp;;
  print MsgNotifyValues;;
  λ st, notify_loop (S (length (stdin st))) st.

(** [per_row_notify or global_notify] *)
Definition or_else (o : option string) (s : string) : string :=
  match o with
  | Some x => if nonempty x then x else s
  | None => s
  end.

(** One turn of the [for actor_id, roles, per_row_notify in entries] loop of
    [main], with its [try]/[except Exception]. *)
Definition assign_one (api : Api360) (mailbox_id global_notify : string)
    (e : entry) (tally : nat * nat) : M (nat * nat) :=
  let '(actor_id, roles, per_row_notify) := e in
  let '(ok, fail) := tally in
  let notify := or_else per_row_notify global_notify in
  try_except
    (set_access api mailbox_id actor_id roles notify;;
     shown ← ensure_roles_valid roles;
     print (MsgAssigned actor_id shown notify);;
     ret (S ok, fail))
    is_Exception
    (λ e, print (MsgAssignFailed actor_id e);; ret (ok, S fail)).

Fixpoint assign_all (api : Api360) (mailbox_id global_notify : string)
    (entries : list entry) (tally : nat * nat) : M (nat * nat) :=
  match entries with
  | [] => ret tally
  | e :: rest =>
      tally ← assign_one api mailbox_id global_notify e tally;
      assign_all api mailbox_id global_notify rest tally
  end.

(** [def main()] *)
Definition main : M unit :=
  '(token, org_id, env_notify) ← load_env;
  let api := Api360_init token org_id in
  print MsgCreateHeader;;
  email ← ask AskEmail None;
  name ← ask AskName None;
  description ← ask AskDescription None;
  (if negb (contains "@" email) then die MsgBadEmail 1 else ret tt);;
  (if negb (nonempty name) then die MsgEmptyName 1 else ret tt);;
  mailbox_id ← create_shared_mailbox api email name description;
  print (MsgCreated mailbox_id);;
  print MsgAssignHeader;;
  actors_path ← ask AskActorsPath (Some "actors.csv");
  entries ← parse_actors_csv actors_path;
  global_notify ← resolve_global_notify env_notify;
  '(ok, fail) ← assign_all api mailbox_id global_notify entries (0, 0)%nat;
  print MsgTotalsHeader;;
  print (MsgTotals ok fail);;
  print MsgCheckPanel.

(** [if __name__ == "__main__"]: [main()] under [except KeyboardInterrupt] *)
Definition script : M unit :=
  try_except main is_KeyboardInterrupt (λ _, die MsgInterrupted 1).

End Script.

Close Scope py_scope.

(** Running a computation from a state. *)
Definition result {A} (m : M A) (st : state) : outcome A := (m st).1.
Definition final {A} (m : M A) (st : state) : state := (m st).2.
(** The events a computation adds to the trace. *)
Definition emitted {A} (m : M A) (st : state) : list event :=
  drop (length (trace st)) (trace (final m st)).

(** ** A sample platform *)

Definition sample_server (history : list event) (req : request) : http_result :=
  match req with
  | PUT _ _ _ =>
      Answer (Response 200 "{}" "{}"
                (Some (JObj {[ "resourceId" := JStr "mbx-1" ]})))
  | POST _ _ params _ =>
      if bool_decide (params !! "actorId" = Some "user2")
      then Answer (Response 403 "denied" "denied" None)
      else Answer (Response 200 "" "" None)
  end.

(** [str] in the samples, where the identifier field holds a string: [str]
    of a string is the string. *)
Definition sample_str (v : json) : string :=
  match v with JStr s => s | _ => "" end.

Definition sample_lines : list string :=
  [ "# actors";
    "";
    "user1, shared_mailbox_sender";
    "badrow";
    "user2,shared_mailbox_owner,reader,NONE";
    "user3,reader,reader,editor";
    "user4,all" ].

Definition sample_rows : list entry :=
  [ ("user1", ["shared_mailbox_sender"], None);
    ("user2", ["shared_mailbox_owner"; "reader"], Some "none");
    ("user3", ["reader"; "editor"], None) ].

Definition sample_platform : Platform := {|
  py_str := sample_str;
  environ := {[ "TOKEN" := "t0k"; "ORG_ID" := " 42 " ]};
  files := {[ "actors.csv" := sample_lines ]};
  http := sample_server
|}.

(** The same surroundings with a server that refuses the creation. *)
Definition refusing_platform : Platform := {|
  py_str := sample_str;
  environ := {[ "TOKEN" := "t0k"; "ORG_ID" := " 42 " ]};
  files := {[ "actors.csv" := sample_lines ]};
  http := λ _ _, Answer (Response 403 "forbidden" "forbidden" None)
|}.

Definition sample_input : state :=
  State [Typed "box@example.org"; Typed "Box"; Typed "shared box";
         Typed ""; Typed "bogus"; Typed " Delegates "] [].

(** No credentials in the environment. *)
Definition bare_platform : Platform := {|
  py_str := sample_str;
  environ := {[ "ORG_ID" := "42" ]};
  files := {[ "actors.csv" := sample_lines ]};
  http := sample_server
|}.

(** An actor list with nothing but a comment and a blank line, and no file
    elsewhere. *)
Definition comments_platform : Platform := {|
  py_str := sample_str;
  environ := {[ "TOKEN" := "t0k"; "ORG_ID" := " 42 "; "NOTIFY" := " None " ]};
  files := {[ "actors.csv" := ["# nothing"; ""] ]};
  http := sample_server
|}.

(** A server that answers every request with status 200 and no body. *)
Definition silent_platform : Platform := {|
  py_str := sample_str;
  environ := {[ "TOKEN" := "t0k"; "ORG_ID" := "42" ]};
  files := ∅;
  http := λ _ _, Answer (Response 200 "" "" None)
|}.

(** A server that refuses the creation of the mailbox named Box and
    answers every other request as [sample_server] does. *)
Definition selective_server (history : list event) (req : request)
  : http_result :=
  match req with
  | PUT _ _ body =>
      if bool_decide (body !! "name" = Some "Box")
      then Answer (Response 403 "forbidden" "forbidden" None)
      else sample_server history req
  | POST _ _ _ _ => sample_server history req
  end.

Definition selective_platform : Platform := {|
  py_str := sample_str;
  environ := {[ "TOKEN" := "t0k"; "ORG_ID" := " 42 " ]};
  files := {[ "actors.csv" := sample_lines ]};
  http := selective_server
|}.

(** The sample surroundings with a configured notification value. *)
Definition configured_platform : Platform := {|
  py_str := sample_str;
  environ := {[ "TOKEN" := "t0k"; "ORG_ID" := " 42 ";
                "NOTIFY" := " Delegates " ]};
  files := {[ "actors.csv" := sample_lines ]};
  http := sample_server
|}.

(** Two actor lists and the two in one file. *)
Definition two_lists_platform : Platform := {|
  py_str := sample_str;
  environ := ∅;
  files := {[ "a.csv" := ["user1,reader"; "oops"];
              "b.csv" := ["user1,editor,all"];
              "ab.csv" := ["user1,reader"; "oops"; "user1,editor,all"] ]};
  http := sample_server
|}.

(** * Properties *)

(** ** The specification's reading of a row of the actor list *)

Module Spec.

(** "Deduplicate roles preserving first-occurrence order": the head is kept
    and its later occurrences are dropped. *)
Fixpoint first_occurrences (l : list string) : list string :=
  match l with
  | [] => []
  | x :: l' => x :: filter (λ y, y ≠ x) (first_occurrences l')
  end.

(** Steps 1 and 2 of the parser: a line is ignored when it is blank or a
    comment; its fields are the trimmed, non-empty comma-separated parts. *)
Definition ignored (line : string) : bool :=
  bool_decide (strip line = "") || startswith "#" (strip line).

Definition fields (line : string) : list string :=
  filter (λ p, p ≠ "") (strip <$> split "," (strip line)).

(** "matches a NotificationPolicy literal (case-insensitive)" *)
Definition notify_literal (field : string) : option string :=
  if decide (lower field ∈ VALID_NOTIFY) then Some (lower field) else None.

Inductive verdict :=
| Ignored
| TooFewFields
| NoRoles
| Accepted (e : entry).

(** Steps 3 to 7. *)
Definition classify (line : string) : verdict :=
  if ignored line then Ignored else
  match fields line with
  | [] | [_] => TooFewFields
  | actor_id :: (_ :: _) as payload =>
      match notify_literal (List.last payload "") with
      | Some lit =>
          match removelast payload with
          | [] => NoRoles
          | roles => Accepted (actor_id, first_occurrences roles, Some lit)
          end
      | None => Accepted (actor_id, first_occurrences payload, None)
      end
  end.

Definition row (line : string) : option entry :=
  match classify line with Accepted e => Some e | _ => None end.

(** The rows of a file, in file order. *)
Definition rows (lines : list string) : list entry := omap row lines.

(** The warning a line of the file gets, if any. *)
Definition warning (line_no : nat) (line : string) : list event :=
  match classify line with
  | TooFewFields => [Stdout (MsgSkipColumns line_no)]
  | NoRoles => [Stdout (MsgSkipNoRoles line_no)]
  | _ => []
  end.

Fixpoint warnings (line_no : nat) (lines : list string) : list event :=
  match lines with
  | [] => []
  | line :: rest => warning line_no line ++ warnings (S line_no) rest
  end.

(** The role-normalization rule. *)
Definition normalized (roles : list string) : list string :=
  if decide ("shared_mailbox_owner" ∈ roles) then ["shared_mailbox_owner"]
  else if decide ("shared_mailbox_sender" ∈ roles) then first_occurrences roles
  else first_occurrences roles ++ ["shared_mailbox_sender"].

(** "The first present non-empty value" among candidate field names of a
    decoded object, empty meaning null or the empty string. *)
Fixpoint first_present (m : gmap string json) (keys : list string)
  : option json :=
  match keys with
  | [] => None
  | k :: keys' =>
      match m !! k with
      | Some v => if not_blank v then Some v else first_present m keys'
      | None => first_present m keys'
      end
  end.

(** The candidate names of the identifier field, in order. *)
Definition id_fields : list string := ["id"; "mailboxId"; "resourceId"].

End Spec.

(** ** Vocabulary for runs *)

(** The warning [ensure_roles_valid] prints for a role list. *)
Definition sender_warning (roles : list string) : list event :=
  if decide ("shared_mailbox_owner" ∈ roles) then []
  else if decide ("shared_mailbox_sender" ∈ roles) then []
  else [Stdout MsgAddSender].

(** [emits P X m Q]: from every state, [m] only appends events satisfying
    [P] to the trace, leaves nothing but terminal input consumed, and ends
    by returning a value in [Q] or raising an exception in [X]; it never
    runs out of fuel. *)
Definition emits {A} (P : event → Prop) (X : exn → Prop) (m : M A)
    (Q : A → Prop) : Prop :=
  ∀ st, ∃ evs,
    trace (m st).2 = trace st ++ evs ∧ Forall P evs ∧
    match (m st).1 with
    | Ret a => Q a
    | Raise e => X e
    | OutOfFuel => False
    end.

(** The SetAccess exchanges among some events, in order. *)
Definition calls (evs : list event) : list (request * http_result) :=
  omap (λ ev, match ev with
              | Http (POST u h p r) res => Some (POST u h p r, res)
              | _ => None
              end) evs.

Definition is_call (ev : event) : Prop :=
  match ev with Http (POST _ _ _ _) _ => True | _ => False end.

(** An exchange succeeded when it got an answer with status 200. *)
Definition succeeded (res : http_result) : bool :=
  match res with
  | Answer r => bool_decide (status_code r = 200)
  | Failed => false
  end.

(** What [ask] returns for a typed line. *)
Definition answered (dflt : option string) (line : string) : string :=
  match dflt with
  | Some d => if decide (strip line = "") then d else strip line
  | None => strip line
  end.

(** The request [set_access] sends for a row of the actor list. *)
Definition sent_request (api : Api360) (mailbox_id global_notify : string)
    (e : entry) : request :=
  POST (base api +:+ "/mailboxes/set/" +:+ mailbox_id) (hdrs api)
    {[ "actorId" := e.1.1; "notify" := or_else e.2 global_notify ]}
    (Spec.normalized e.1.2).

(** What the assignment loop prints once the exchange for a row is over. *)
Definition verdict_events (e : entry) (notify : string) (res : http_result)
  : list event :=
  match res with
  | Answer r =>
      if decide (status_code r = 200)
      then sender_warning e.1.2
           ++ [Stdout (MsgAssigned e.1.1 (Spec.normalized e.1.2) notify)]
      else [Stdout (MsgAssignFailed e.1.1
                      (RuntimeError (SetFailed e.1.1 (Spec.normalized e.1.2)
                                       notify (status_code r) (text r))))]
  | Failed => [Stdout (MsgAssignFailed e.1.1 RequestException)]
  end.

(** The run ends with exit status 1: [die], or an uncaught exception. *)
Definition fatal (e : exn) : Prop :=
  e = SystemExit 1 ∨ is_Exception e = true.

(** Nothing or a notification literal. *)
Definition literal_or_none (o : option string) : Prop :=
  match o with Some v => v ∈ VALID_NOTIFY | None => True end.

(** The decoded body of a response as [create_shared_mailbox] reads it: an
    empty body stands for the empty object; [None] when decoding raises. *)
Definition body_of (r : response) : option json :=
  if nonempty (content r) then decoded r else Some (JObj ∅).

(** The request [create_shared_mailbox] sends. *)
Definition create_request (api : Api360) (email name description : string)
  : request :=
  PUT (base api +:+ "/mailboxes/shared") (hdrs api)
    {[ "email" := email; "name" := name; "description" := description ]}.

(** A server that answers the creation request with status 200 and the
    object [{"id": 0, "mailboxId": "abc"}]. *)
Definition zero_id_body : gmap string json :=
  {[ "id" := JInt 0; "mailboxId" := JStr "abc" ]}.

Definition zero_id_response : response :=
  Response 200 "{}" "{}" (Some (JObj zero_id_body)).

Definition zero_id_platform : Platform := {|
  py_str := sample_str;
  environ := {[ "TOKEN" := "t0k"; "ORG_ID" := "42" ]};
  files := ∅;
  http := λ _ _, Answer zero_id_response
|}.

(** Events of the terminal: output and prompts. *)
Definition local (ev : event) : Prop :=
  match ev with
  | Stdout _ | Stderr _ | Prompt _ => True
  | _ => False
  end.

(** A SetAccess exchange carries a notification literal. *)
Definition notify_valid (ev : event) : Prop :=
  match ev with
  | Http (POST _ _ params _) _ =>
      ∃ n, params !! "notify" = Some n ∧ n ∈ VALID_NOTIFY
  | _ => True
  end.

(** How many of the SetAccess exchanges among some events succeeded, and
    how many failed. *)
Definition successes (evs : list event) : nat :=
  length (filter (λ c, succeeded c.2 = true) (calls evs)).

Definition failures (evs : list event) : nat :=
  length (filter (λ c, succeeded c.2 = false) (calls evs)).

(** The three phases of [main] (see [main_phases]). *)
Section Phases.
Context `{Platform}.
Local Open Scope py_scope.

(** From the start to the creation of the mailbox. *)
Definition creation : M (Api360 * option string * string) :=
  '(token, org_id, env_notify) ← load_env;
  let api := Api360_init token org_id in
  print MsgCreateHeader;;
  email ← ask AskEmail None;
  name ← ask AskName None;
  description ← ask AskDescription None;
  (if negb (contains "@" email) then die MsgBadEmail 1 else ret tt);;
  (if negb (nonempty name) then die MsgEmptyName 1 else ret tt);;
  mailbox_id ← create_shared_mailbox api email name description;
  print (MsgCreated mailbox_id);;
  print MsgAssignHeader;;
  ret (api, env_notify, mailbox_id).

(** The actor list, from the path of the file on. *)
Definition reading (env_notify : option string) (actors_path : string)
  : M (list entry * string) :=
  entries ← parse_actors_csv actors_path;
  global_notify ← resolve_global_notify env_notify;
  ret (entries, global_notify).

(** From the path prompt to the session default. *)
Definition preparation (env_notify : option string)
  : M (list entry * string) :=
  actors_path ← ask AskActorsPath (Some "actors.csv");
  reading env_notify actors_path.

(** The assignment loop and the totals. *)
Definition assignment (api : Api360) (mailbox_id : string)
    (entries : list entry) (global_notify : string) : M unit :=
  '(ok, fail) ← assign_all api mailbox_id global_notify entries (0, 0)%nat;
  print MsgTotalsHeader;;
  print (MsgTotals ok fail);;
  print MsgCheckPanel.

(** The events of one turn of the loop. *)
Definition turn_events (api : Api360) (mailbox_id global_notify : string)
    (e : entry) (history : list event) : list event :=
  let req := sent_request api mailbox_id global_notify e in
  let res := http (history ++ sender_warning e.1.2) req in
  sender_warning e.1.2 ++ [Http req res]
    ++ verdict_events e (or_else e.2 global_notify) res.

Definition phases : M unit :=
  '(api, env_notify, mailbox_id) ← creation;
  '(entries, global_notify) ← preparation env_notify;
  assignment api mailbox_id entries global_notify.

End Phases.

(** The paths some events test with [os.path.isfile], in order. *)
Definition probed (evs : list event) : list string :=
  omap (λ ev, match ev with IsFile path => Some path | _ => None end) evs.

(** The prompts among some events, in order. *)
Definition prompts (evs : list event) : list prompt :=
  omap (λ ev, match ev with Prompt p => Some p | _ => None end) evs.

(** Not a test of a path. *)
Definition not_probe (ev : event) : Prop :=
  match ev with IsFile _ => False | _ => True end.

(** The totals some events print. *)
Definition printed_totals (evs : list event) : list (nat * nat) :=
  omap (λ ev, match ev with
              | Stdout (MsgTotals ok fail) => Some (ok, fail)
              | _ => None
              end) evs.

(** The sample session: its client, and its state after the creation and
    after the preparation. *)
Definition sample_api : Api360 := Api360_init "t0k" "42".

Definition sample_created : state :=
  final (@creation sample_platform) sample_input.

Definition sample_prepared : state :=
  final (@preparation sample_platform None) sample_created.

(** The characters of a string. *)
Definition chars (s : string) : list ascii := String.list_ascii_of_string s.

(** Neither the first nor the last character is white space. *)
Definition trimmed (s : string) : Prop :=
  ∀ c, head (chars s) = Some c ∨ last (chars s) = Some c → isspace c = false.

(** A field of a row as the parser keeps it: not empty, trimmed, without a
    comma. *)
Definition clean_field (s : string) : Prop :=
  s ≠ "" ∧ trimmed s ∧ ("," : ascii) ∉ chars s.

(** The creation exchanges among some events, in order. *)
Definition puts (evs : list event) : list (request * http_result) :=
  omap (λ ev, match ev with
              | Http (PUT u h b) res => Some (PUT u h b, res)
              | _ => None
              end) evs.

Definition is_http (ev : event) : Prop :=
  match ev with Http _ _ => True | _ => False end.

Definition request_url (req : request) : string :=
  match req with PUT u _ _ | POST u _ _ _ => u end.

Definition request_headers (req : request) : gmap string string :=
  match req with PUT _ h _ | POST _ h _ _ => h end.

(** How many times some events print the warning of [ensure_roles_valid]. *)
Definition sender_warnings (evs : list event) : nat :=
  length (omap (λ ev, match ev with
                      | Stdout MsgAddSender => Some tt
                      | _ => None
                      end) evs).

(** [lstrip] on the characters. *)
Fixpoint drop_spaces (l : list ascii) : list ascii :=
  match l with
  | [] => []
  | c :: l' => if isspace c then drop_spaces l' else l
  end.

(** What [load_env] reads, and the start of [main] (see
    [creation_prelude]). *)
Section Configuration.
Context `{Platform}.
Local Open Scope py_scope.

Definition env_token : string := strip (getenv "TOKEN" "").
Definition env_org_id : string := strip (getenv "ORG_ID" "").
Definition env_notify : string := lower (strip (getenv "NOTIFY" "")).

(** The client of the session. *)
Definition env_api : Api360 := Api360_init env_token env_org_id.

(** The configured notification value that is kept, and the warning about
    the one that is not. *)
Definition env_configured : option string :=
  if decide (env_notify ∈ VALID_NOTIFY) then Some env_notify else None.

Definition env_warning : list event :=
  if decide (env_notify = "" ∨ env_notify ∈ VALID_NOTIFY) then []
  else [Stdout (MsgNotifyIgnored env_notify)].

(** The part of [main] before the creation request: the configuration, the
    three prompts and the two checks. *)
Definition prelude : M (Api360 * option string * string * string * string) :=
  '(token, org_id, env_notify) ← load_env;
  let api := Api360_init token org_id in
  print MsgCreateHeader;;
  email ← ask AskEmail None;
  name ← ask AskName None;
  description ← ask AskDescription None;
  (if negb (contains "@" email) then die MsgBadEmail 1 else ret tt);;
  (if negb (nonempty name) then die MsgEmptyName 1 else ret tt);;
  ret (api, env_notify, email, name, description).

(** The creation request and the two lines printed after it. *)
Definition founding (x : Api360 * option string * string * string * string)
  : M (Api360 * option string * string) :=
  let '(api, env_notify, email, name, description) := x in
  mailbox_id ← create_shared_mailbox api email name description;
  print (MsgCreated mailbox_id);;
  print MsgAssignHeader;;
  ret (api, env_notify, mailbox_id).

End Configuration.

(** A request that goes to the organization of the session with its
    token. *)
Definition authenticated `{Platform} (ev : event) : Prop :=
  match ev with
  | Http req _ =>
      request_headers req !! "Authorization" = Some ("OAuth " +:+ env_token) ∧
      ∃ path,
        request_url req
        = "https://api360.yandex.net/admin/v1/org/" +:+ env_org_id +:+ path
  | _ => True
  end.

Definition is_put (req : request) : Prop :=
  match req with PUT _ _ _ => True | POST _ _ _ _ => False end.

(** An event that is no creation request and, when it is a SetAccess
    request, goes to the given mailbox. *)
Definition addressed (api : Api360) (mailbox_id : string) (ev : event)
  : Prop :=
  match ev with
  | Http (POST u _ _ _) _ => u = base api +:+ "/mailboxes/set/" +:+ mailbox_id
  | Http (PUT _ _ _) _ => False
  | _ => True
  end.

(** The notify parameter of a SetAccess request. *)
Definition notify_of (req : request) : option string :=
  match req with
  | POST _ _ params _ => params !! "notify"
  | PUT _ _ _ => None
  end.

(** The three lines that end a complete run. *)
Definition closing (ok fail : nat) : list event :=
  [Stdout MsgTotalsHeader; Stdout (MsgTotals ok fail); Stdout MsgCheckPanel].

(** ** Deduplication *)

Section Dedup.

Lemma first_occurrences_elem (l : list string) (x : string) :
  x ∈ Spec.first_occurrences l ↔ x ∈ l.
Proof.
  revert x. induction l as [|a l IH]; intros x; simpl; [done|].
  rewrite !elem_of_cons, list_elem_of_filter, IH.
  destruct (decide (x = a)); naive_solver.
Qed.

Lemma first_occurrences_NoDup (l : list string) :
  NoDup (Spec.first_occurrences l).
Proof.
  induction l as [|a l IH]; simpl; [constructor|].
  apply NoDup_cons. split.
  - rewrite list_elem_of_filter. naive_solver.
  - by apply NoDup_filter.
Qed.

Lemma filter_keeps_all (P : string → Prop) `{!∀ x, Decision (P x)}
    (l : list string) :
  Forall P l → filter P l = l.
Proof.
  induction 1 as [|x l Hx _ IH]; [done|].
  rewrite filter_cons_True by done. by rewrite IH.
Qed.

Lemma first_occurrences_id (l : list string) :
  NoDup l → Spec.first_occurrences l = l.
Proof.
  induction 1 as [|x l Hx _ IH]; simpl; [done|].
  rewrite IH. f_equal. apply filter_keeps_all.
  apply Forall_forall. intros y Hy ->. done.
Qed.

Lemma first_occurrences_app (l1 l2 : list string) :
  Spec.first_occurrences (l1 ++ l2)
  = Spec.first_occurrences l1
    ++ filter (λ y, y ∉ l1) (Spec.first_occurrences l2).
Proof.
  induction l1 as [|a l1 IH]; simpl.
  - symmetry. apply filter_keeps_all, Forall_forall. intros y _. apply not_elem_of_nil.
  - rewrite IH, filter_app, list_filter_filter. do 2 f_equal.
    apply list_filter_iff. intros y. rewrite not_elem_of_cons. naive_solver.
Qed.

(** The loop of [dedup], from any state of [(seen, res)]. *)
Lemma dedup_loop (items : list string) (seen : gset string) (res : list string) :
  (foldl dedup_step (seen, res) items).2
  = res ++ filter (λ y, y ∉ seen) (Spec.first_occurrences items).
Proof.
  revert seen res. induction items as [|x items IH]; intros seen res; simpl.
  - by rewrite app_nil_r.
  - destruct (decide (x ∈ seen)) as [Hin|Hin].
    + rewrite IH, filter_cons_False by naive_solver.
      rewrite list_filter_filter. f_equal.
      apply list_filter_iff. intros y. naive_solver.
    + rewrite IH, filter_cons_True by done.
      rewrite list_filter_filter, <- app_assoc. simpl. do 2 f_equal.
      apply list_filter_iff. intros y. set_solver.
Qed.

Lemma dedup_first_occurrences (items : list string) :
  dedup items = Spec.first_occurrences items.
Proof.
  unfold dedup. rewrite dedup_loop. simpl.
  apply filter_keeps_all, Forall_forall. intros y _. set_solver.
Qed.

Lemma dedup_NoDup (items : list string) : NoDup (dedup items).
Proof. rewrite dedup_first_occurrences. apply first_occurrences_NoDup. Qed.

Lemma dedup_elem (items : list string) (x : string) :
  x ∈ dedup items ↔ x ∈ items.
Proof. rewrite dedup_first_occurrences. apply first_occurrences_elem. Qed.

Lemma dedup_id (items : list string) : NoDup items → dedup items = items.
Proof. rewrite dedup_first_occurrences. apply first_occurrences_id. Qed.

(** First-occurrence order: deduplicating a prefix of the input gives a
    prefix of the result. *)
Lemma dedup_prefix (items : list string) (k : nat) :
  dedup (take k items) `prefix_of` dedup items.
Proof.
  rewrite <- (take_drop k items) at 2.
  rewrite !dedup_first_occurrences, first_occurrences_app.
  by eexists.
Qed.

End Dedup.

(** ** Running computations *)

Section Runs.
Context `{Platform}.

Lemma emitted_app {A} (m : M A) (st : state) (evs : list event) :
  trace (m st).2 = trace st ++ evs → emitted m st = evs.
Proof.
  unfold emitted, final. intros ->. by rewrite drop_app_length.
Qed.

Lemma ensure_roles_valid_run (roles : list string) (st : state) :
  ensure_roles_valid roles st
  = (Ret (Spec.normalized roles),
     State (stdin st) (trace st ++ sender_warning roles)).
Proof.
  unfold ensure_roles_valid, Spec.normalized, sender_warning.
  rewrite dedup_first_occurrences. cbn [existsb].
  rewrite !(bool_decide_ext _ _ (first_occurrences_elem roles _)).
  destruct st as [inp tr].
  destruct (decide ("shared_mailbox_owner" ∈ roles)) as [Ho|Ho].
  { rewrite (bool_decide_eq_true_2 _ Ho). simpl. by rewrite app_nil_r. }
  rewrite (bool_decide_eq_false_2 _ Ho).
  destruct (decide ("shared_mailbox_sender" ∈ roles)) as [Hs|Hs].
  - rewrite (bool_decide_eq_true_2 _ Hs). simpl. by rewrite app_nil_r.
  - rewrite (bool_decide_eq_false_2 _ Hs). done.
Qed.

Lemma ask_run (p : prompt) (dflt : option string) (st : state) :
  ask p dflt st
  = match stdin st with
    | [] => (Raise EOFError, State [] (trace st ++ [Prompt p]))
    | Typed line :: rest =>
        (Ret (answered dflt line), State rest (trace st ++ [Prompt p]))
    | CtrlC :: rest =>
        (Raise (SystemExit 1),
         State rest (trace st ++ [Prompt p; Stderr MsgInterrupted]))
    end.
Proof.
  unfold ask, try_except, bind, input, answered, nonempty.
  destruct (stdin st) as [|[line|] rest]; simpl; [done| |].
  - destruct dflt as [d|]; [|done].
    by destruct (decide (strip line = "")) as [->|Hne];
      [|rewrite bool_decide_eq_false_2 by done].
  - unfold die, bind, emit, raise. simpl. by rewrite <- app_assoc.
Qed.

Lemma last_default {A} (l : list A) (d : A) :
  l ≠ [] → last l = Some (List.last l d).
Proof.
  induction l as [|x [|y l] IH]; intros Hne; [done|done|].
  change (last (x :: y :: l)) with (last (y :: l)).
  change (List.last (x :: y :: l) d) with (List.last (y :: l) d).
  by apply IH.
Qed.

Lemma all_but_last_removelast {A} (l : list A) : all_but_last l = removelast l.
Proof.
  unfold all_but_last. rewrite removelast_firstn_len. by rewrite Nat.sub_1_r.
Qed.

Lemma nonempty_true (s : string) : nonempty s = true ↔ s ≠ "".
Proof.
  unfold nonempty. rewrite negb_true_iff, bool_decide_eq_false. done.
Qed.

Lemma state_eta (st : state) : State (stdin st) (trace st) = st.
Proof. by destruct st. Qed.

Lemma parse_line_run (line_no : nat) (line : string) (out : list entry)
    (st : state) :
  parse_line line_no line out st
  = (Ret (out ++ option_list (Spec.row line)),
     State (stdin st) (trace st ++ Spec.warning line_no line)).
Proof.
  unfold parse_line, Spec.row, Spec.warning, Spec.classify, Spec.ignored.
  unfold nonempty at 1. rewrite negb_involutive.
  destruct (bool_decide (strip line = "") || startswith "#" (strip line)).
  { unfold ret. simpl. by rewrite !app_nil_r, state_eta. }
  rewrite (list_filter_iff (λ p, nonempty p = true) (λ p, p ≠ ""))
    by apply nonempty_true.
  fold (Spec.fields line).
  destruct (Spec.fields line) as [|actor_id [|p payload]].
  - simpl. unfold bind, print, emit, ret. simpl. by rewrite app_nil_r.
  - simpl. unfold bind, print, emit, ret. simpl. by rewrite app_nil_r.
  - rewrite bool_decide_eq_false_2 by (simpl; lia).
    unfold item, bind at 1, ret at 1. cbn [lookup list_lookup drop].
    rewrite (last_default (p :: payload) "") by done.
    rewrite all_but_last_removelast.
    unfold Spec.notify_literal.
    destruct (decide (lower (List.last (p :: payload) "") ∈ VALID_NOTIFY))
      as [Hlit|Hlit].
    + rewrite (bool_decide_eq_true_2 _ Hlit).
      destruct (removelast (p :: payload)) as [|r roles].
      * simpl. unfold bind, print, emit, ret. simpl. by rewrite app_nil_r.
      * rewrite bool_decide_eq_false_2 by done.
        rewrite dedup_first_occurrences. unfold ret. simpl.
        by rewrite app_nil_r, state_eta.
    + rewrite (bool_decide_eq_false_2 _ Hlit).
      rewrite bool_decide_eq_false_2 by done.
      rewrite dedup_first_occurrences. unfold ret. simpl.
      by rewrite app_nil_r, state_eta.
Qed.

Lemma parse_lines_run (lines : list string) (line_no : nat)
    (out : list entry) (st : state) :
  parse_lines line_no lines out st
  = (Ret (out ++ Spec.rows lines),
     State (stdin st) (trace st ++ Spec.warnings line_no lines)).
Proof.
  revert line_no out st.
  induction lines as [|line lines IH]; intros line_no out st; simpl.
  - unfold ret. by rewrite !app_nil_r, state_eta.
  - unfold bind. rewrite parse_line_run, IH. simpl.
    unfold Spec.rows. simpl. rewrite <- !app_assoc. f_equal. f_equal.
    by destruct (Spec.row line).
Qed.

Lemma parse_actors_csv_run (path : string) (st : state) :
  parse_actors_csv path st
  = match files !! path with
    | None =>
        (Raise (SystemExit 1),
         State (stdin st)
           (trace st ++ [IsFile path; Stderr (MsgFileNotFound path)]))
    | Some lines =>
        match Spec.rows lines with
        | [] =>
            (Raise (SystemExit 1),
             State (stdin st)
               (trace st ++ [IsFile path; Open path]
                  ++ Spec.warnings 1 lines ++ [Stderr MsgNoValidRows]))
        | out =>
            (Ret out,
             State (stdin st)
               (trace st ++ [IsFile path; Open path] ++ Spec.warnings 1 lines))
        end
    end.
Proof.
  unfold parse_actors_csv, isfile, open_lines, die.
  unfold bind at 1 2. unfold emit at 1, ret at 1. simpl.
  destruct (files !! path) as [lines|] eqn:Hfile; simpl.
  - unfold bind, emit, ret. simpl. rewrite parse_lines_run. simpl.
    destruct (Spec.rows lines); simpl; unfold raise;
      repeat (f_equal; []); by rewrite <- ?app_assoc.
  - unfold bind, emit, raise. simpl. by rewrite <- app_assoc.
Qed.

Lemma set_access_run (api : Api360) (mailbox_id actor_id : string)
    (roles : list string) (notify : string) (st : state) :
  let req := POST (base api +:+ "/mailboxes/set/" +:+ mailbox_id) (hdrs api)
               {[ "actorId" := actor_id; "notify" := notify ]}
               (Spec.normalized roles) in
  let res := http (trace st ++ sender_warning roles) req in
  set_access api mailbox_id actor_id roles notify st
  = (match res with
     | Failed => Raise RequestException
     | Answer r =>
         if decide (status_code r = 200) then Ret tt
         else Raise (RuntimeError
                       (SetFailed actor_id (Spec.normalized roles) notify
                          (status_code r) (text r)))
     end,
     State (stdin st) (trace st ++ sender_warning roles ++ [Http req res])).
Proof.
  intros req res. unfold set_access, bind at 1.
  rewrite ensure_roles_valid_run. unfold bind, send. simpl.
  fold req. fold res. rewrite <- app_assoc.
  destruct res as [|r]; [done|].
  destruct (decide (status_code r = 200)) as [Hok|Hko].
  - rewrite bool_decide_eq_false_2 by (by intros ?). done.
  - rewrite bool_decide_eq_true_2 by done. done.
Qed.

Lemma assign_one_run (api : Api360) (mailbox_id global_notify : string)
    (e : entry) (ok fail : nat) (st : state) :
  let req := sent_request api mailbox_id global_notify e in
  let res := http (trace st ++ sender_warning e.1.2) req in
  assign_one api mailbox_id global_notify e (ok, fail) st
  = (Ret (if succeeded res then (S ok, fail) else (ok, S fail)),
     State (stdin st)
       (trace st ++ sender_warning e.1.2 ++ [Http req res]
          ++ verdict_events e (or_else e.2 global_notify) res)).
Proof.
  destruct e as [[actor_id roles] override]. intros req res.
  unfold assign_one, try_except, bind at 1.
  rewrite set_access_run. unfold sent_request in req. simpl in req, res.
  fold req. fold res. unfold verdict_events, succeeded. simpl.
  destruct res as [|r].
  - unfold bind, print, emit, ret. simpl. by rewrite <- !app_assoc.
  - destruct (decide (status_code r = 200)) as [Hok|Hko].
    + rewrite bool_decide_eq_true_2 by done.
      unfold bind at 1. rewrite ensure_roles_valid_run.
      unfold bind, print, emit, ret. simpl. by rewrite <- !app_assoc.
    + rewrite bool_decide_eq_false_2 by done.
      unfold bind, print, emit, ret. simpl. by rewrite <- !app_assoc.
Qed.

Lemma assign_one_emitted (api : Api360) (mailbox_id global_notify : string)
    (e : entry) (tally : nat * nat) (st : state) :
  let req := sent_request api mailbox_id global_notify e in
  let res := http (trace st ++ sender_warning e.1.2) req in
  emitted (assign_one api mailbox_id global_notify e tally) st
  = sender_warning e.1.2 ++ [Http req res]
    ++ verdict_events e (or_else e.2 global_notify) res.
Proof.
  destruct tally as [ok fail]. intros req res.
  apply emitted_app. by rewrite assign_one_run.
Qed.

End Runs.

(** ** Role normalization *)

Section Roles.
Context `{Platform}.

Local Abbreviation owner := "shared_mailbox_owner".
Local Abbreviation sender := "shared_mailbox_sender".

(** C1.  Role normalization.  For every list of role identifiers: if the
    owner role is present the normalized result is exactly the singleton
    owner list; if neither the owner role nor the sender role is present,
    the result is the deduplicated list with the sender role appended at the
    end, where it occurs exactly once; otherwise (sender present, owner
    absent) the result is the deduplicated list unchanged. *)
Theorem ensure_roles_valid_normalizes (roles : list string) (st : state) :
  (owner ∈ roles → result (ensure_roles_valid roles) st = Ret [owner]) ∧
  (owner ∉ roles → sender ∉ roles →
     result (ensure_roles_valid roles) st = Ret (dedup roles ++ [sender]) ∧
     (sender ∉ dedup roles) ∧ NoDup (dedup roles ++ [sender])) ∧
  (owner ∉ roles → sender ∈ roles →
     result (ensure_roles_valid roles) st = Ret (dedup roles)).
Proof.
  unfold result. rewrite ensure_roles_valid_run. simpl.
  unfold Spec.normalized. rewrite <- dedup_first_occurrences.
  split; [|split].
  - intros Ho. by rewrite decide_True.
  - intros Ho Hs. rewrite !decide_False by done.
    split; [done|]. split; [by rewrite dedup_elem|].
    apply NoDup_app. split; [apply dedup_NoDup|]. split.
    + intros x Hx Hx'. apply list_elem_of_singleton in Hx' as ->.
      rewrite dedup_elem in Hx. contradiction.
    + apply NoDup_singleton.
  - intros Ho Hs. by rewrite decide_False, decide_True.
Qed.

Lemma normalized_idempotent (roles : list string) :
  Spec.normalized (Spec.normalized roles) = Spec.normalized roles.
Proof.
  unfold Spec.normalized at 2 3.
  destruct (decide (owner ∈ roles)) as [Ho|Ho].
  { unfold Spec.normalized. by rewrite decide_True by set_solver. }
  destruct (decide (sender ∈ roles)) as [Hs|Hs]; unfold Spec.normalized.
  - rewrite decide_False by (by rewrite first_occurrences_elem).
    rewrite decide_True by (by rewrite first_occurrences_elem).
    apply first_occurrences_id, first_occurrences_NoDup.
  - rewrite decide_False.
    2: { rewrite elem_of_app, first_occurrences_elem, list_elem_of_singleton.
         by intros [?|?]. }
    rewrite decide_True by set_solver.
    apply first_occurrences_id, NoDup_app.
    split; [apply first_occurrences_NoDup|]. split; [|apply NoDup_singleton].
    intros x Hx Hx'. apply list_elem_of_singleton in Hx' as ->.
    rewrite first_occurrences_elem in Hx. contradiction.
Qed.

(** C10.  Normalization idempotence.  Normalizing the result of a
    normalization gives the same list again; and a confirmation line
    printed by the assignment loop shows exactly the role list that was
    sent in the request of that turn. *)
Theorem ensure_roles_valid_idempotent (roles : list string) (st st' : state) :
  (∃ once,
     result (ensure_roles_valid roles) st = Ret once ∧
     result (ensure_roles_valid once) st' = Ret once) ∧
  ∀ api mailbox_id global_notify actor_id override tally who shown notify,
    Stdout (MsgAssigned who shown notify)
      ∈ emitted (assign_one api mailbox_id global_notify
                   (actor_id, roles, override) tally) st →
    result (ensure_roles_valid roles) st = Ret shown ∧
    ∃ url headers params res,
      Http (POST url headers params shown) res
        ∈ emitted (assign_one api mailbox_id global_notify
                     (actor_id, roles, override) tally) st.
Proof.
  split.
  - exists (Spec.normalized roles). unfold result.
    rewrite !ensure_roles_valid_run. simpl. by rewrite normalized_idempotent.
  - intros api mailbox_id global_notify actor_id override tally
      who shown notify.
    rewrite assign_one_emitted. cbn [fst snd].
    unfold result. rewrite ensure_roles_valid_run. simpl.
    intros Hin.
    assert (shown = Spec.normalized roles) as ->.
    { unfold verdict_events, sender_warning in Hin.
      repeat case_match; set_solver. }
    split; [done|].
    eexists _, _, _, _. unfold sent_request. simpl.
    apply elem_of_app. right. apply list_elem_of_here.
Qed.

End Roles.

(** ** The actor list parser *)

Section Parser.
Context `{Platform}.

(** What an accepted line gives, in terms of its fields. *)
Lemma row_accepted (line : string) (actor_id : string) (roles : list string)
    (override : option string) :
  Spec.row line = Some (actor_id, roles, override) →
  Spec.ignored line = false ∧
  ∃ payload field,
    Spec.fields line = actor_id :: payload ∧ last payload = Some field ∧
    ((lower field ∈ VALID_NOTIFY ∧ override = Some (lower field) ∧
      all_but_last payload ≠ [] ∧ roles = dedup (all_but_last payload))
     ∨ ((lower field ∉ VALID_NOTIFY) ∧ override = None ∧
        roles = dedup payload)).
Proof.
  unfold Spec.row, Spec.classify, Spec.notify_literal.
  destruct (Spec.ignored line); [done|].
  destruct (Spec.fields line) as [|a [|p payload]]; [done|done|].
  intros Hrow. split; [done|].
  exists (p :: payload), (List.last (p :: payload) "").
  rewrite <- (last_default (p :: payload) "") by done.
  rewrite last_default with (d := "") by done.
  rewrite all_but_last_removelast, !dedup_first_occurrences.
  destruct (decide (lower (List.last (p :: payload) "") ∈ VALID_NOTIFY)).
  - destruct (removelast (p :: payload)) as [|r rs] eqn:Hrm; [done|].
    simplify_eq. split; [done|]. split; [done|]. left. done.
  - simplify_eq. split; [done|]. split; [done|]. by right.
Qed.

(** C2.  Parser per-row contract.  For every input file the parser returns
    the rows of the accepted lines, one row per accepted line and in file
    order.  The role list of a row has no duplicates and keeps the roles in
    the order of their first occurrence.  The row-level override is present
    exactly when the last non-empty field, read case-insensitively, is one
    of all, delegates, none; it is then that literal, and the field is not
    among the roles. *)
Theorem parse_actors_csv_rows (path : string) (lines : list string)
    (out : list entry) (st : state) :
  files !! path = Some lines →
  result (parse_actors_csv path) st = Ret out →
  out = omap Spec.row lines ∧
  ∀ line actor_id roles override,
    Spec.row line = Some (actor_id, roles, override) →
    ∃ payload field given,
      Spec.fields line = actor_id :: payload ∧
      last payload = Some field ∧
      (override = Some (lower field) ↔ lower field ∈ VALID_NOTIFY) ∧
      (override = None ↔ lower field ∉ VALID_NOTIFY) ∧
      given = (if decide (lower field ∈ VALID_NOTIFY)
               then all_but_last payload else payload) ∧
      roles = dedup given ∧
      NoDup roles ∧
      (∀ x, x ∈ roles ↔ x ∈ given) ∧
      (∀ k, dedup (take k given) `prefix_of` roles).
Proof.
  intros Hfile. unfold result. rewrite parse_actors_csv_run, Hfile.
  intros Hout. split.
  { destruct (Spec.rows lines) eqn:Hrows; simpl in Hout; [done|].
    injection Hout as <-. by rewrite <- Hrows. }
  intros line actor_id roles override Hrow.
  apply row_accepted in Hrow as (_ & payload & field & Hf & Hl & Hcase).
  exists payload, field.
  destruct Hcase as [(Hlit & -> & _ & ->)|(Hlit & -> & ->)].
  - exists (all_but_last payload). rewrite decide_True by done.
    repeat split; try done.
    + apply dedup_NoDup.
    + by apply dedup_elem.
    + by apply dedup_elem.
    + apply dedup_prefix.
  - exists payload. rewrite decide_False by done.
    repeat split; try done.
    + apply dedup_NoDup.
    + by apply dedup_elem.
    + by apply dedup_elem.
    + apply dedup_prefix.
Qed.

Lemma warnings_app (l1 l2 : list string) (line_no : nat) :
  Spec.warnings line_no (l1 ++ l2)
  = Spec.warnings line_no l1 ++ Spec.warnings (line_no + length l1) l2.
Proof.
  revert line_no. induction l1 as [|l l1 IH]; intros line_no; simpl.
  - by rewrite Nat.add_0_r.
  - rewrite IH, <- app_assoc. do 3 f_equal. lia.
Qed.

Lemma rows_skip (l1 l2 : list string) (line : string) :
  Spec.row line = None → Spec.rows (l1 ++ line :: l2) = Spec.rows (l1 ++ l2).
Proof.
  intros Hrow. unfold Spec.rows. rewrite !omap_app. simpl. by rewrite Hrow.
Qed.

Lemma classify_too_few (line : string) :
  Spec.ignored line = false → (length (Spec.fields line) < 2)%nat →
  Spec.classify line = Spec.TooFewFields.
Proof.
  unfold Spec.classify. intros -> Hlen.
  destruct (Spec.fields line) as [|a [|p payload]]; [done|done|].
  simpl in Hlen. lia.
Qed.

Lemma classify_no_roles (line actor_id field : string) (payload : list string) :
  Spec.ignored line = false →
  Spec.fields line = actor_id :: payload →
  last payload = Some field →
  lower field ∈ VALID_NOTIFY →
  all_but_last payload = [] →
  Spec.classify line = Spec.NoRoles.
Proof.
  unfold Spec.classify, Spec.notify_literal. intros -> -> Hlast Hlit Hnone.
  destruct payload as [|p payload]; [done|].
  rewrite (last_default (p :: payload) "") in Hlast by done.
  assert (List.last (p :: payload) "" = field) as -> by congruence.
  rewrite decide_True by done.
  rewrite all_but_last_removelast in Hnone. by rewrite Hnone.
Qed.

Lemma parse_actors_csv_emitted (path : string) (lines : list string)
    (st : state) :
  files !! path = Some lines →
  ∃ tail, emitted (parse_actors_csv path) st
          = [IsFile path; Open path] ++ Spec.warnings 1 lines ++ tail.
Proof.
  intros Hfile.
  destruct (Spec.rows lines) as [|e out] eqn:Hrows.
  - exists [Stderr MsgNoValidRows]. apply emitted_app.
    by rewrite parse_actors_csv_run, Hfile, Hrows.
  - exists []. apply emitted_app.
    rewrite parse_actors_csv_run, Hfile, Hrows. simpl. by rewrite app_nil_r.
Qed.

Lemma parse_actors_csv_emitted_eq (path : string) (st : state) :
  emitted (parse_actors_csv path) st
  = match files !! path with
    | None => [IsFile path; Stderr (MsgFileNotFound path)]
    | Some lines =>
        [IsFile path; Open path] ++ Spec.warnings 1 lines
        ++ match Spec.rows lines with
           | [] => [Stderr MsgNoValidRows]
           | _ => []
           end
    end.
Proof.
  apply emitted_app. rewrite parse_actors_csv_run.
  destruct (files !! path) as [lines|]; [|done].
  destruct (Spec.rows lines); simpl; by rewrite ?app_nil_r.
Qed.

Lemma skipped_line_warned (path : string) (l1 l2 : list string)
    (line : string) (st : state) (ev : event) :
  files !! path = Some (l1 ++ line :: l2) →
  Spec.warning (S (length l1)) line = [ev] →
  ev ∈ emitted (parse_actors_csv path) st.
Proof.
  intros Hfile Hw.
  destruct (parse_actors_csv_emitted path _ st Hfile) as [tail ->].
  rewrite warnings_app. simpl. rewrite Hw.
  set_solver.
Qed.

(** C3.  Parser line tolerance and empty-result fatality.  A line that is
    neither blank nor a comment and has fewer than 2 fields, or has no roles
    left once the trailing notify literal is taken out, gets a warning with
    its line number and contributes no row; the loop over the lines goes on
    and returns the rows of the other lines.  The parse of an existing file
    ends with a fatal exit if and only if no row is left after all lines
    are processed, and returns the rows otherwise. *)
Theorem parse_actors_csv_tolerant (path : string) (lines : list string)
    (st : state) :
  files !! path = Some lines →
  (∀ l1 line l2,
     lines = l1 ++ line :: l2 → Spec.ignored line = false →
     ((length (Spec.fields line) < 2)%nat →
      Stdout (MsgSkipColumns (S (length l1)))
        ∈ emitted (parse_actors_csv path) st ∧
      Spec.rows lines = Spec.rows (l1 ++ l2)) ∧
     (∀ actor_id payload field,
        Spec.fields line = actor_id :: payload →
        last payload = Some field →
        lower field ∈ VALID_NOTIFY →
        all_but_last payload = [] →
        Stdout (MsgSkipNoRoles (S (length l1)))
          ∈ emitted (parse_actors_csv path) st ∧
        Spec.rows lines = Spec.rows (l1 ++ l2))) ∧
  result (parse_lines 1 lines []) st = Ret (Spec.rows lines) ∧
  (result (parse_actors_csv path) st = Raise (SystemExit 1)
   ↔ Spec.rows lines = []) ∧
  (Spec.rows lines ≠ [] →
   result (parse_actors_csv path) st = Ret (Spec.rows lines)).
Proof.
  intros Hfile. split; [|split; [|split]].
  - intros l1 line l2 -> Hign. split.
    + intros Hlen. pose proof (classify_too_few line Hign Hlen) as Hc. split.
      * apply (skipped_line_warned path l1 l2 line st); [done|].
        unfold Spec.warning. by rewrite Hc.
      * apply rows_skip. unfold Spec.row. by rewrite Hc.
    + intros actor_id payload field Hf Hl Hlit Hnone.
      pose proof (classify_no_roles _ _ _ _ Hign Hf Hl Hlit Hnone) as Hc.
      split.
      * apply (skipped_line_warned path l1 l2 line st); [done|].
        unfold Spec.warning. by rewrite Hc.
      * apply rows_skip. unfold Spec.row. by rewrite Hc.
  - unfold result. by rewrite parse_lines_run.
  - unfold result. rewrite parse_actors_csv_run, Hfile.
    by destruct (Spec.rows lines).
  - intros Hne. unfold result. rewrite parse_actors_csv_run, Hfile.
    by destruct (Spec.rows lines).
Qed.

End Parser.

(** ** The API client *)

Section Client.
Context `{Platform}.

Lemma json_get_any_object (m : gmap string json) (keys : list string)
    (dflt : json) :
  json_get_any (JObj m) keys dflt
  = inr (default dflt (Spec.first_present m keys)).
Proof.
  induction keys as [|k keys IH]; simpl; [done|].
  destruct (m !! k) as [v|] eqn:Hk.
  - rewrite bool_decide_eq_true_2 by eauto.
    by destruct (not_blank v).
  - rewrite bool_decide_eq_false_2; [done|]. by intros [??].
Qed.

(** On a decoded value that is not an object the lookup raises
    [TypeError] or finds nothing. *)
Lemma json_get_any_other (d : json) (keys : list string) :
  (∀ m, d ≠ JObj m) →
  json_get_any d keys JNull = inl TypeError ∨
  json_get_any d keys JNull = inr JNull.
Proof.
  intros Hd. induction keys as [|k keys IH]; simpl; [by right|].
  destruct d as [| | | |l|m]; simpl; try (by left).
  - destruct (contains k s); simpl; auto.
  - destruct (existsb _ l); simpl; auto.
  - by destruct (Hd m).
Qed.

Lemma create_shared_mailbox_run (api : Api360)
    (email name description : string) (st : state) :
  let req := create_request api email name description in
  let res := http (trace st) req in
  create_shared_mailbox api email name description st
  = (match res with
     | Failed => Raise RequestException
     | Answer r =>
         if decide (status_code r = 200) then
           match body_of r with
           | None => Raise JSONDecodeError
           | Some data =>
               match json_get_any data Spec.id_fields JNull with
               | inl e => Raise e
               | inr v =>
                   if json_truthy v then Ret (py_str v)
                   else Raise (RuntimeError (NoMailboxId data))
               end
           end
         else Raise (RuntimeError (CreateFailed (status_code r) (text r)))
     end,
     State (stdin st) (trace st ++ [Http req res])).
Proof.
  intros req res. unfold create_shared_mailbox, bind at 1, send.
  fold (create_request api email name description). fold req. fold res.
  change ["id"; "mailboxId"; "resourceId"] with Spec.id_fields.
  destruct res as [|r]; [done|]. cbn [fst snd stdin trace].
  destruct (decide (status_code r = 200)) as [Hok|Hko].
  2: { rewrite bool_decide_eq_true_2 by done. done. }
  rewrite bool_decide_eq_false_2 by (by intros ?).
  unfold bind at 1, ret at 1. unfold body_of, response_json.
  unfold bind at 1.
  destruct (nonempty (content r)).
  - destruct (decoded r) as [data|]; [|done].
    unfold ret at 1. unfold bind at 1. fold Spec.id_fields.
    destruct (json_get_any data Spec.id_fields JNull) as [e|v]; [done|].
    simpl. unfold bind. by destruct (json_truthy v).
  - unfold ret at 1. unfold bind at 1. fold Spec.id_fields.
    destruct (json_get_any (JObj ∅) Spec.id_fields JNull) as [e|v]; [done|].
    simpl. unfold bind. by destruct (json_truthy v).
Qed.

(** C6, as amended.  CreateSharedMailbox succeeds if and only if the
    response has status 200, its body decodes to an object (an empty body
    counting as the empty object), and the first candidate field among id,
    mailboxId, resourceId that is present with a value other than null and
    the empty string holds a value that is true in Python (not 0, false, an
    empty array or an empty object); it then returns that value as a
    string.  On any other status it fails with a diagnostic carrying the
    status code and the raw body; on 200 with an object in which no
    candidate is present, or the first present one is not a true value, it
    fails with a diagnostic carrying the decoded body. *)
Theorem create_shared_mailbox_contract (api : Api360)
    (email name description : string) (st : state) :
  let res := http (trace st) (create_request api email name description) in
  let run := result (create_shared_mailbox api email name description) st in
  (∀ id, run = Ret id ↔
     ∃ r m v, res = Answer r ∧ status_code r = 200 ∧
       body_of r = Some (JObj m) ∧
       Spec.first_present m Spec.id_fields = Some v ∧
       json_truthy v = true ∧ id = py_str v) ∧
  (∀ r, res = Answer r → status_code r ≠ 200 →
     run = Raise (RuntimeError (CreateFailed (status_code r) (text r)))) ∧
  (∀ r m, res = Answer r → status_code r = 200 →
     body_of r = Some (JObj m) →
     (Spec.first_present m Spec.id_fields = None ∨
      ∃ v, Spec.first_present m Spec.id_fields = Some v ∧
           json_truthy v = false) →
     run = Raise (RuntimeError (NoMailboxId (JObj m)))).
Proof.
  intros res run. unfold run, result.
  rewrite create_shared_mailbox_run. cbn [fst]. fold res.
  split; [|split].
  - intros id. split.
    + destruct res as [|r]; [done|].
      destruct (decide (status_code r = 200)) as [Hok|Hko]; [|done].
      destruct (body_of r) as [data|] eqn:Hbody; [|done].
      assert ((∃ m, data = JObj m) ∨ (∀ m, data ≠ JObj m))
        as [[m ->]|Hother] by (destruct data; eauto; by right).
      * rewrite json_get_any_object.
        destruct (Spec.first_present m Spec.id_fields) as [v|] eqn:Hv;
          simpl; [|done].
        destruct (json_truthy v) eqn:Htrue; [|done].
        intros [= <-]. by exists r, m, v.
      * by destruct (json_get_any_other data Spec.id_fields Hother)
          as [-> | ->].
    + intros (r & m & v & -> & Hok & -> & Hv & Htrue & ->).
      rewrite decide_True by done.
      by rewrite json_get_any_object, Hv; simpl; rewrite Htrue.
  - intros r -> Hko. by rewrite decide_False.
  - intros r m -> Hok -> Hv. rewrite decide_True by done.
    rewrite json_get_any_object.
    destruct Hv as [-> | (v & -> & Hfalse)]; simpl; [done|].
    by rewrite Hfalse.
Qed.

(** C6 as stated fails: the response has status 200 and its object holds a
    non-empty value under mailboxId, one of the candidate names, yet the
    operation fails, because the value 0 under id is met first. *)
Lemma create_shared_mailbox_zero_id :
  let run :=
    result (@create_shared_mailbox zero_id_platform (Api360_init "t0k" "42")
              "box@example.org" "Box" "shared box") (State [] []) in
  ¬ ((∃ id, run = Ret id) ↔
     (status_code zero_id_response = 200 ∧
      ∃ k v, k ∈ Spec.id_fields ∧ zero_id_body !! k = Some v ∧
             not_blank v = true ∧ json_truthy v = true)).
Proof.
  intros run [_ Hback].
  destruct Hback as [id Hid].
  - split; [done|]. exists "mailboxId", (JStr "abc").
    split; [|by vm_compute]. unfold Spec.id_fields. set_solver.
  - vm_compute in Hid. discriminate.
Qed.

End Client.


(** ** The session *)

Section Session.
Context `{Platform}.

Lemma bind_assoc {A B C} (m : M A) (f : A → M B) (g : B → M C) (st : state) :
  bind (bind m f) g st = bind m (λ x, bind (f x) g) st.
Proof. unfold bind. by destruct (m st) as [[?|?|] ?]. Qed.

Lemma bind_ext {A B} (m : M A) (f g : A → M B) (st : state) :
  (∀ a st', f a st' = g a st') → bind m f st = bind m g st.
Proof. intros Hfg. unfold bind. by destruct (m st) as [[?|?|] ?]. Qed.

Lemma bind_ret_l {A B} (a : A) (f : A → M B) (st : state) :
  bind (ret a) f st = f a st.
Proof. done. Qed.

Ltac phase_step :=
  first
    [ reflexivity
    | rewrite bind_ret_l; cbv beta iota
    | rewrite bind_assoc
    | apply bind_ext; intros ? ?
    | match goal with
      | |- context [let '(_, _) := ?x in _] => destruct x
      end ].

(** [main] is its three phases in sequence. *)
Lemma main_phases (st : state) : main st = phases st.
Proof.
  unfold main, phases, creation, preparation, reading, assignment.
  repeat phase_step.
Qed.

(** *** Rules for [emits] *)

Lemma emits_ret {A} P X (a : A) (Q : A → Prop) : Q a → emits P X (ret a) Q.
Proof. intros HQ st. exists []. by rewrite app_nil_r. Qed.

Lemma emits_raise {A} P (X : exn → Prop) (e : exn) (Q : A → Prop) :
  X e → emits P X (raise e) Q.
Proof. intros HX st. exists []. by rewrite app_nil_r. Qed.

Lemma emits_emit (P : event → Prop) X (ev : event) (Q : unit → Prop) :
  P ev → Q tt → emits P X (emit ev) Q.
Proof. intros HP HQ st. exists [ev]. simpl. by repeat constructor. Qed.

Lemma emits_bind {A B} P X (m : M A) (f : A → M B) (Q : A → Prop)
    (Q' : B → Prop) :
  emits P X m Q → (∀ a, Q a → emits P X (f a) Q') → emits P X (bind m f) Q'.
Proof.
  intros Hm Hf st. destruct (Hm st) as (evs & Htr & HP & Hres).
  unfold bind. destruct (m st) as [[a|e|] st1]; simpl in *; [|by eauto|done].
  destruct (Hf a Hres st1) as (evs' & Htr' & HP' & Hres').
  exists (evs ++ evs'). rewrite Htr', Htr, app_assoc.
  split; [done|]. split; [by apply Forall_app|done].
Qed.

Lemma emits_mono {A} (P P' : event → Prop) (X X' : exn → Prop) (m : M A)
    (Q Q' : A → Prop) :
  emits P X m Q → (∀ ev, P ev → P' ev) → (∀ e, X e → X' e) →
  (∀ a, Q a → Q' a) → emits P' X' m Q'.
Proof.
  intros Hm HP HX HQ st. destruct (Hm st) as (evs & Htr & HPs & Hres).
  exists evs. split; [done|]. split; [by eapply Forall_impl|].
  destruct (m st).1; auto.
Qed.

Lemma emits_ext {A} P X (m m' : M A) (Q : A → Prop) :
  (∀ st, m st = m' st) → emits P X m Q → emits P X m' Q.
Proof. intros Heq Hm st. rewrite <- Heq. apply Hm. Qed.

Lemma emits_die {A} (P : event → Prop) (msg : message) (Q : A → Prop) :
  P (Stderr msg) → emits P fatal (die msg 1) Q.
Proof.
  intros HP. unfold die. eapply emits_bind.
  - by apply emits_emit with (Q := λ _, True).
  - intros _ _. apply emits_raise. by left.
Qed.

(** [if c: die(msg)] *)
Lemma emits_guard (P : event → Prop) (c : bool) (msg : message) :
  P (Stderr msg) →
  emits P fatal (if c then die msg 1 else ret tt) (λ _, c = false).
Proof.
  intros HP. destruct c; [by apply emits_die|by apply emits_ret].
Qed.

Lemma emits_print (P : event → Prop) X (msg : message) :
  P (Stdout msg) → emits P X (print msg) (λ _, True).
Proof. intros HP. by apply emits_emit. Qed.

(** *** What each function emits *)

Lemma ask_emits (P : event → Prop) (p : prompt) (dflt : option string) :
  (∀ ev, local ev → P ev) → emits P fatal (ask p dflt) (λ _, True).
Proof.
  intros HP st. rewrite ask_run.
  destruct (stdin st) as [|[line|] rest]; simpl.
  - exists [Prompt p]. split; [done|]. split; [|by right].
    repeat constructor. by apply HP.
  - exists [Prompt p]. split; [done|]. split; [|done].
    repeat constructor. by apply HP.
  - exists [Prompt p; Stderr MsgInterrupted]. split; [done|].
    split; [|by left]. repeat constructor; by apply HP.
Qed.

Lemma load_env_emits (P : event → Prop) :
  (∀ ev, local ev → P ev) →
  emits P fatal load_env (λ x, literal_or_none x.2).
Proof.
  intros HP. unfold load_env.
  eapply emits_bind; [apply emits_guard; by apply HP|].
  intros _ _.
  eapply emits_bind with (Q := literal_or_none).
  - destruct (or_None (lower (strip (getenv "NOTIFY" "")))) as [n|] eqn:Hn;
      [|by apply emits_ret].
    destruct (nonempty n && negb (bool_decide (n ∈ VALID_NOTIFY))) eqn:Hc.
    + eapply emits_bind; [apply emits_print; by apply HP|].
      intros _ _. by apply emits_ret.
    + apply emits_ret. simpl.
      apply andb_false_iff in Hc as [Hc|Hc].
      * unfold or_None in Hn. case_match; congruence.
      * by apply negb_false_iff, bool_decide_eq_true in Hc.
  - intros n Hlit. by apply emits_ret.
Qed.

Lemma create_shared_mailbox_emits (P : event → Prop) (api : Api360)
    (email name description : string) :
  (∀ res, P (Http (create_request api email name description) res)) →
  emits P fatal (create_shared_mailbox api email name description)
    (λ _, True).
Proof.
  intros HP st. rewrite create_shared_mailbox_run. cbn [fst snd trace].
  eexists. split; [done|]. split; [by repeat constructor|].
  destruct (http _ _) as [|r]; [by right|].
  destruct (decide _) as [Hok|Hko]; [|by right].
  destruct (body_of r) as [data|]; [|by right].
  destruct (json_get_any _ _ _) as [err|v] eqn:Hget.
  - assert ((∃ m, data = JObj m) ∨ (∀ m, data ≠ JObj m))
      as [[m ->]|Hother] by (destruct data; eauto; by right).
    + by rewrite json_get_any_object in Hget.
    + destruct (json_get_any_other data Spec.id_fields Hother) as [Hg|Hg];
        rewrite Hg in Hget; simplify_eq. by right.
  - destruct (json_truthy v); [done|by right].
Qed.

Lemma parse_actors_csv_emits (P : event → Prop) (path : string) :
  (∀ ev, local ev → P ev) → P (IsFile path) → P (Open path) →
  emits P fatal (parse_actors_csv path)
    (λ entries, Forall (λ e : entry, literal_or_none e.2) entries).
Proof.
  intros HP Hisfile Hopen st. rewrite parse_actors_csv_run.
  assert (∀ n lines, Forall P (Spec.warnings n lines)) as Hwarn.
  { intros n lines. revert n. induction lines as [|l lines IH]; intros n;
      simpl; [done|].
    apply Forall_app. split; [|done].
    unfold Spec.warning. destruct (Spec.classify l);
      repeat constructor; by apply HP. }
  destruct (files !! path) as [lines|].
  - destruct (Spec.rows lines) as [|e out] eqn:Hrows; cbn [fst snd trace].
    + eexists. split; [done|]. split; [|by left].
      repeat (apply Forall_cons; split; [done|]).
      apply Forall_app. split; [done|]. repeat constructor. by apply HP.
    + eexists. split; [done|]. split.
      * by repeat (apply Forall_cons; split; [done|]).
      * rewrite <- Hrows. apply Forall_forall. intros [[a roles] ov] Hin.
        apply list_elem_of_omap in Hin as (line & _ & Hrow).
        apply row_accepted in Hrow
          as (_ & payload & field & _ & _ & [(? & -> & _)|(_ & -> & _)]);
          done.
  - eexists. split; [done|]. split; [|by left].
    repeat constructor; [done|by apply HP].
Qed.

Lemma notify_loop_step (fuel : nat) (st : state) :
  notify_loop (S fuel) st
  = match stdin st with
    | [] => (Raise EOFError, State [] (trace st ++ [Prompt AskNotify]))
    | Typed line :: rest =>
        if decide (lower (answered (Some "all") line) ∈ VALID_NOTIFY)
        then (Ret (lower (answered (Some "all") line)),
              State rest (trace st ++ [Prompt AskNotify]))
        else notify_loop fuel
               (State rest (trace st ++ [Prompt AskNotify;
                                         Stdout MsgNotifyInvalid]))
    | CtrlC :: rest =>
        (Raise (SystemExit 1),
         State rest (trace st ++ [Prompt AskNotify; Stderr MsgInterrupted]))
    end.
Proof.
  cbn [notify_loop]. unfold bind at 1. rewrite ask_run.
  destruct (stdin st) as [|[line|] rest]; [done| |done].
  cbv beta iota.
  destruct (decide (lower (answered (Some "all") line) ∈ VALID_NOTIFY))
    as [Hv|Hv].
  - by rewrite (bool_decide_eq_true_2 _ Hv).
  - rewrite (bool_decide_eq_false_2 _ Hv).
    unfold bind, print, emit. simpl. by rewrite <- app_assoc.
Qed.

(** The prompt loop never runs out of fuel when it has more fuel than
    pending input. *)
Lemma notify_loop_emits (fuel : nat) (st : state) :
  (length (stdin st) < fuel)%nat →
  ∃ evs,
    trace (notify_loop fuel st).2 = trace st ++ evs ∧ Forall local evs ∧
    match (notify_loop fuel st).1 with
    | Ret v => v ∈ VALID_NOTIFY
    | Raise e => fatal e
    | OutOfFuel => False
    end.
Proof.
  revert st. induction fuel as [|fuel IH]; intros st Hfuel; [lia|].
  rewrite notify_loop_step.
  destruct st as [[|[line|] rest] tr]; cbn [stdin trace] in *.
  - exists [Prompt AskNotify]. split; [done|].
    split; [by repeat constructor|by right].
  - destruct (decide (lower (answered (Some "all") line) ∈ VALID_NOTIFY))
      as [Hv|Hv].
    + exists [Prompt AskNotify]. split; [done|].
      split; [by repeat constructor|done].
    + destruct (IH (State rest (tr ++ [Prompt AskNotify;
                                       Stdout MsgNotifyInvalid])))
        as (evs & Htr & Hlocal & Hres); [simpl in *; lia|].
      exists ([Prompt AskNotify; Stdout MsgNotifyInvalid] ++ evs).
      rewrite Htr. cbn [trace]. rewrite <- !app_assoc. split; [done|].
      split; [|done]. by repeat constructor.
  - exists [Prompt AskNotify; Stderr MsgInterrupted]. split; [done|].
    split; [by repeat constructor|by left].
Qed.

(** The prompt loop re-prompts past every invalid line and returns the
    first valid one. *)
Lemma notify_loop_reads (bad : list string) (good : string)
    (rest : list tty_input) (tr : list event) (fuel : nat) :
  Forall (λ l, lower (answered (Some "all") l) ∉ VALID_NOTIFY) bad →
  lower (answered (Some "all") good) ∈ VALID_NOTIFY →
  (length bad < fuel)%nat →
  notify_loop fuel (State ((Typed <$> bad) ++ Typed good :: rest) tr)
  = (Ret (lower (answered (Some "all") good)),
     State rest
       (tr ++ (bad ≫= λ _, [Prompt AskNotify; Stdout MsgNotifyInvalid])
           ++ [Prompt AskNotify])).
Proof.
  intros Hbad Hgood. revert tr fuel.
  induction Hbad as [|l bad Hl _ IH]; intros tr fuel Hfuel.
  - destruct fuel as [|fuel]; [simpl in Hfuel; lia|].
    rewrite notify_loop_step. cbn [stdin trace fmap list_fmap app].
    by rewrite decide_True.
  - destruct fuel as [|fuel]; [simpl in Hfuel; lia|].
    rewrite notify_loop_step. cbn [stdin trace fmap list_fmap app].
    rewrite decide_False by done.
    rewrite IH by (simpl in Hfuel; lia).
    cbn [mbind list_bind]. by rewrite <- !app_assoc.
Qed.

Lemma resolve_global_notify_emits (P : event → Prop)
    (env_notify : option string) :
  (∀ ev, local ev → P ev) → literal_or_none env_notify →
  emits P fatal (resolve_global_notify env_notify) (λ v, v ∈ VALID_NOTIFY).
Proof.
  intros HP Henv. unfold resolve_global_notify.
  destruct (truthy env_notify) eqn:Htruthy.
  { destruct env_notify as [n|]; [|done]. by apply emits_ret. }
  eapply emits_bind; [apply emits_print; by apply HP|]. intros _ _.
  eapply emits_bind; [apply emits_print; by apply HP|]. intros _ _.
  intros st.
  destruct (notify_loop_emits (S (length (stdin st))) st) as
    (evs & Htr & Hlocal & Hres); [lia|].
  exists evs. split; [done|]. split; [|done].
  eapply Forall_impl; [done|]. done.
Qed.

(** *** The assignment loop *)

Lemma calls_app (evs1 evs2 : list event) :
  calls (evs1 ++ evs2) = calls evs1 ++ calls evs2.
Proof. apply omap_app. Qed.

Lemma calls_local (evs : list event) : Forall local evs → calls evs = [].
Proof.
  induction 1 as [|ev evs Hev _ IH]; [done|].
  destruct ev; first [done | exact IH].
Qed.

Lemma sender_warning_local (roles : list string) :
  Forall local (sender_warning roles).
Proof. unfold sender_warning. repeat case_decide; by repeat constructor. Qed.

Lemma verdict_events_local (e : entry) (notify : string) (res : http_result) :
  Forall local (verdict_events e notify res).
Proof.
  unfold verdict_events. destruct res as [|r]; [by repeat constructor|].
  case_decide; [|by repeat constructor].
  apply Forall_app. split; [apply sender_warning_local|by repeat constructor].
Qed.

Lemma successes_app (evs1 evs2 : list event) :
  successes (evs1 ++ evs2) = (successes evs1 + successes evs2)%nat.
Proof. unfold successes. by rewrite calls_app, filter_app, length_app. Qed.

Lemma failures_app (evs1 evs2 : list event) :
  failures (evs1 ++ evs2) = (failures evs1 + failures evs2)%nat.
Proof. unfold failures. by rewrite calls_app, filter_app, length_app. Qed.

Lemma successes_failures (evs : list event) :
  (successes evs + failures evs)%nat = length (calls evs).
Proof.
  unfold successes, failures.
  induction (calls evs) as [|c cs IH]; [done|].
  rewrite !filter_cons.
  destruct (succeeded c.2); repeat case_decide; try done; simpl; lia.
Qed.

Lemma turn_events_calls (api : Api360) (mailbox_id global_notify : string)
    (e : entry) (history : list event) :
  let req := sent_request api mailbox_id global_notify e in
  calls (turn_events api mailbox_id global_notify e history)
  = [(req, http (history ++ sender_warning e.1.2) req)].
Proof.
  unfold turn_events. cbv zeta. rewrite !calls_app.
  rewrite (calls_local _ (sender_warning_local _)).
  rewrite (calls_local _ (verdict_events_local _ _ _)).
  done.
Qed.

Lemma assign_all_run (api : Api360) (mailbox_id global_notify : string)
    (entries : list entry) (ok fail : nat) (st : state) :
  ∃ evs,
    assign_all api mailbox_id global_notify entries (ok, fail) st
    = (Ret ((ok + successes evs)%nat, (fail + failures evs)%nat),
       State (stdin st) (trace st ++ evs)) ∧
    (calls evs).*1 = sent_request api mailbox_id global_notify <$> entries ∧
    Forall (λ ev, local ev ∨
                  ∃ e res, e ∈ entries ∧
                    ev = Http (sent_request api mailbox_id global_notify e) res)
      evs.
Proof.
  revert ok fail st.
  induction entries as [|e entries IH]; intros ok fail st.
  - exists []. simpl. unfold ret, successes, failures. simpl.
    by rewrite !Nat.add_0_r, app_nil_r, state_eta.
  - cbn [assign_all]. unfold bind. rewrite assign_one_run.
    fold (turn_events api mailbox_id global_notify e (trace st)).
    set (evs1 := turn_events api mailbox_id global_notify e (trace st)).
    set (res := http _ _).
    pose proof (turn_events_calls api mailbox_id global_notify e (trace st))
      as Hcalls. cbv zeta in Hcalls. fold evs1 res in Hcalls.
    assert (successes evs1 = (if succeeded res then 1 else 0)%nat
            ∧ failures evs1 = (if succeeded res then 0 else 1)%nat)
      as [Hs Hf].
    { unfold successes, failures. rewrite Hcalls, !filter_cons.
      cbn [snd filter list_filter].
      destruct (succeeded res); repeat case_decide; done. }
    destruct (succeeded res) eqn:Hres;
      [destruct (IH (S ok) fail (State (stdin st) (trace st ++ evs1)))
         as (evs & Hrun & Hreqs & Hevs)
      |destruct (IH ok (S fail) (State (stdin st) (trace st ++ evs1)))
         as (evs & Hrun & Hreqs & Hevs)];
      rewrite Hrun; exists (evs1 ++ evs);
      rewrite successes_app, failures_app, Hs, Hf, calls_app, fmap_app,
        Hcalls, Hreqs; cbn [stdin trace];
      (split; [f_equal; [f_equal; f_equal; lia|by rewrite app_assoc]|]);
      (split; [done|]);
      (apply Forall_app; split;
       [ unfold evs1, turn_events; fold res;
         apply Forall_app; split;
         [ eapply Forall_impl; [apply sender_warning_local|by left]
         | apply Forall_cons; split;
           [ right; exists e, res; split; [apply list_elem_of_here|done]
           | eapply Forall_impl; [apply verdict_events_local|by left] ] ]
       | eapply Forall_impl; [exact Hevs|];
         intros ev [?|(e' & res' & ? & ?)]; [by left|];
         right; exists e', res'; split; [by apply list_elem_of_further|done] ]).
Qed.

(** *** The phases *)

Lemma creation_emits (P : event → Prop) (Qc : string → Prop) :
  (∀ ev, local ev → P ev) →
  (∀ api email name description,
     emits P fatal (create_shared_mailbox api email name description) Qc) →
  emits P fatal creation (λ x, literal_or_none x.1.2 ∧ Qc x.2).
Proof.
  intros HP Hcreate. unfold creation.
  eapply emits_bind; [by apply load_env_emits|].
  intros [[token org] env_notify] Henv. simpl in Henv.
  eapply emits_bind; [apply emits_print; by apply HP|]. intros _ _.
  eapply emits_bind; [by apply ask_emits|]. intros email _.
  eapply emits_bind; [by apply ask_emits|]. intros name _.
  eapply emits_bind; [by apply ask_emits|]. intros description _.
  eapply emits_bind; [apply emits_guard; by apply HP|]. intros _ _.
  eapply emits_bind; [apply emits_guard; by apply HP|]. intros _ _.
  eapply emits_bind; [apply Hcreate|]. intros mailbox_id Hid.
  eapply emits_bind; [apply emits_print; by apply HP|]. intros _ _.
  eapply emits_bind; [apply emits_print; by apply HP|]. intros _ _.
  by apply emits_ret.
Qed.

Lemma reading_emits (P : event → Prop) (env_notify : option string)
    (path : string) :
  (∀ ev, local ev → P ev) → P (IsFile path) → P (Open path) →
  literal_or_none env_notify →
  emits P fatal (reading env_notify path)
    (λ x, Forall (λ e : entry, literal_or_none e.2) x.1 ∧
          x.2 ∈ VALID_NOTIFY).
Proof.
  intros HP Hisfile Hopen Henv. unfold reading.
  eapply emits_bind; [by apply parse_actors_csv_emits|].
  intros entries Hentries.
  eapply emits_bind; [by apply resolve_global_notify_emits|].
  intros global_notify Hglobal. by apply emits_ret.
Qed.

Lemma preparation_emits (P : event → Prop) (env_notify : option string) :
  (∀ ev, local ev → P ev) → (∀ p, P (IsFile p)) → (∀ p, P (Open p)) →
  literal_or_none env_notify →
  emits P fatal (preparation env_notify)
    (λ x, Forall (λ e : entry, literal_or_none e.2) x.1 ∧
          x.2 ∈ VALID_NOTIFY).
Proof.
  intros HP Hisfile Hopen Henv. unfold preparation.
  eapply emits_bind; [by apply ask_emits|]. intros path _.
  by apply reading_emits.
Qed.

Lemma assignment_emits (P : event → Prop) (api : Api360)
    (mailbox_id : string) (entries : list entry) (global_notify : string) :
  (∀ ev, local ev → P ev) →
  (∀ e res, e ∈ entries →
     P (Http (sent_request api mailbox_id global_notify e) res)) →
  emits P fatal (assignment api mailbox_id entries global_notify)
    (λ _, True).
Proof.
  intros HP Hsent. unfold assignment.
  eapply emits_bind with (Q := λ _, True).
  - intros st.
    destruct (assign_all_run api mailbox_id global_notify entries 0 0 st)
      as (evs & -> & _ & Hevs).
    exists evs. split; [done|]. split; [|done].
    eapply Forall_impl; [exact Hevs|].
    intros ev [Hlocal|(e & res & Hin & ->)]; [by apply HP|by apply Hsent].
  - intros [ok fail] _.
    eapply emits_bind; [apply emits_print; by apply HP|]. intros _ _.
    eapply emits_bind; [apply emits_print; by apply HP|]. intros _ _.
    apply emits_print. by apply HP.
Qed.

Lemma or_else_literal (override : option string) (global_notify : string) :
  literal_or_none override → global_notify ∈ VALID_NOTIFY →
  or_else override global_notify ∈ VALID_NOTIFY.
Proof.
  intros Ho Hg. destruct override as [o|]; [|done].
  simpl. by destruct (nonempty o).
Qed.

Lemma sent_request_notify (api : Api360) (mailbox_id global_notify : string)
    (e : entry) (res : http_result) :
  literal_or_none e.2 → global_notify ∈ VALID_NOTIFY →
  notify_valid (Http (sent_request api mailbox_id global_notify e) res).
Proof.
  intros Ho Hg. exists (or_else e.2 global_notify).
  split; [|by apply or_else_literal].
  rewrite lookup_insert_ne by done. by rewrite lookup_singleton_eq.
Qed.

(** Every run of [main] ends, by returning or by a fatal exit, and every
    SetAccess exchange it makes carries a notification literal. *)
Lemma main_emits : emits notify_valid fatal main (λ _, True).
Proof.
  apply (emits_ext _ _ phases); [intros st; by rewrite main_phases|].
  assert (∀ ev, local ev → notify_valid ev) as Hlocal by (by intros []).
  unfold phases.
  eapply emits_bind.
  { apply creation_emits with (Qc := λ _, True); [done|].
    intros. by apply create_shared_mailbox_emits. }
  intros [[api env_notify] mailbox_id] [Henv _].
  eapply emits_bind; [by apply preparation_emits|].
  intros [entries global_notify] [Hentries Hglobal].
  apply assignment_emits; [done|].
  intros e res Hin. apply sent_request_notify; [|done].
  by eapply (proj1 (Forall_forall _ _) Hentries).
Qed.

Lemma fatal_not_interrupt (e : exn) : fatal e → is_KeyboardInterrupt e = false.
Proof. by intros [->|He]; [|destruct e]. Qed.

(** With interrupts arriving at the prompts only, the handler of the script
    for [KeyboardInterrupt] is never entered: [ask] has turned the interrupt
    into an exit already. *)
Lemma script_main (st : state) : script st = main st.
Proof.
  unfold script, try_except.
  destruct (main_emits st) as (_ & _ & _ & Hres).
  destruct (main st) as [[[]|e|] st']; simpl in *; [done| |done].
  by rewrite fatal_not_interrupt.
Qed.

Lemma calls_nil (evs : list event) :
  Forall (λ ev, ¬ is_call ev) evs → calls evs = [].
Proof.
  induction 1 as [|ev evs Hev _ IH]; [done|].
  destruct ev as [| | | | |[] ?]; first [exact IH | by destruct Hev].
Qed.

Lemma fatal_exit_status (e : exn) : fatal e → exit_status (Raise e) = Some 1.
Proof. by intros [->|He]; [|destruct e]. Qed.

(** C5.  Assignment loop tally and exit status.  The loop makes exactly one
    SetAccess request per assignment, in sequence order, and always returns:
    every exchange that succeeds adds one to the success counter, every
    other one adds one to the failure counter and the loop goes on, so the
    counters grow by the length of the sequence together.  Once the setup
    phases are over, the run prints those counts, with
    success + failure = n, and ends with exit status 0. *)
Theorem assignment_tally (api : Api360) (mailbox_id global_notify : string)
    (entries : list entry) :
  (∀ ok fail st,
     let evs := emitted (assign_all api mailbox_id global_notify entries
                           (ok, fail)) st in
     result (assign_all api mailbox_id global_notify entries (ok, fail)) st
     = Ret ((ok + successes evs)%nat, (fail + failures evs)%nat) ∧
     (calls evs).*1 = sent_request api mailbox_id global_notify <$> entries ∧
     (successes evs + failures evs)%nat = length entries) ∧
  (∀ st env_notify st1 st2,
     creation st = (Ret (api, env_notify, mailbox_id), st1) →
     preparation env_notify st1 = (Ret (entries, global_notify), st2) →
     result script st = Ret tt ∧
     exit_status (result script st) = Some 0 ∧
     ∃ evs ok fail,
       trace (final script st)
       = trace st2 ++ evs ++ [Stdout MsgTotalsHeader;
                              Stdout (MsgTotals ok fail);
                              Stdout MsgCheckPanel] ∧
       (calls evs).*1 = sent_request api mailbox_id global_notify <$> entries ∧
       ok = successes evs ∧ fail = failures evs ∧
       (ok + fail)%nat = length entries).
Proof.
  split.
  - intros ok fail st evs.
    destruct (assign_all_run api mailbox_id global_notify entries ok fail st)
      as (evs' & Hrun & Hreqs & _).
    assert (evs = evs') as ->.
    { unfold evs. apply emitted_app. by rewrite Hrun. }
    unfold result. rewrite Hrun. split; [done|]. split; [done|].
    by rewrite successes_failures, <- (length_fmap fst), Hreqs, length_fmap.
  - intros st env_notify st1 st2 Hcreation Hprep.
    destruct (assign_all_run api mailbox_id global_notify entries 0 0 st2)
      as (evs & Hrun & Hreqs & _).
    assert (script st
            = (Ret tt,
               State (stdin st2)
                 (trace st2 ++ evs
                    ++ [Stdout MsgTotalsHeader;
                        Stdout (MsgTotals (successes evs) (failures evs));
                        Stdout MsgCheckPanel]))) as Hscript.
    { rewrite script_main, main_phases. unfold phases, bind at 1.
      rewrite Hcreation. unfold bind at 1. rewrite Hprep.
      unfold assignment, bind at 1. rewrite Hrun.
      unfold bind, print, emit. simpl. by rewrite <- !app_assoc. }
    unfold result, final. rewrite Hscript. simpl.
    split; [done|]. split; [done|].
    exists evs, (successes evs), (failures evs).
    repeat split; try done.
    by rewrite successes_failures, <- (length_fmap fst), Hreqs, length_fmap.
Qed.

Lemma warnings_local (line_no : nat) (lines : list string) :
  Forall local (Spec.warnings line_no lines).
Proof.
  revert line_no. induction lines as [|l lines IH]; intros line_no; simpl;
    [done|].
  apply Forall_app. split; [|done].
  unfold Spec.warning. destruct (Spec.classify l); by repeat constructor.
Qed.

Lemma local_not_probe (ev : event) : local ev → not_probe ev.
Proof. by destruct ev. Qed.

Lemma probed_nil (evs : list event) : Forall not_probe evs → probed evs = [].
Proof.
  induction 1 as [|ev evs Hev _ IH]; [done|].
  destruct ev; first [exact IH | by destruct Hev].
Qed.

Lemma probed_app (evs1 evs2 : list event) :
  probed (evs1 ++ evs2) = probed evs1 ++ probed evs2.
Proof. apply omap_app. Qed.

(** Whatever follows it, [reading] starts by testing its path, and tests
    no other. *)
Lemma reading_then {A} (env_notify : option string) (path : string)
    (k : list entry * string → M A) (st : state) :
  literal_or_none env_notify →
  (∀ x, emits not_probe fatal (k x) (λ _, True)) →
  ∃ tail,
    trace (bind (reading env_notify path) k st).2
    = trace st ++ IsFile path :: tail ∧
    Forall not_probe tail.
Proof.
  intros Henv Hk. unfold reading. rewrite bind_assoc. unfold bind at 1.
  rewrite parse_actors_csv_run.
  destruct (files !! path) as [lines|].
  2: { eexists. split; [done|]. by repeat constructor. }
  pose proof (Forall_impl _ _ _ (warnings_local 1 lines) local_not_probe)
    as Hwarn.
  destruct (Spec.rows lines) as [|e out].
  { eexists. split; [done|]. apply Forall_cons. split; [done|].
    apply Forall_app. split; [done|]. by repeat constructor. }
  set (st3 := State _ _).
  assert (emits not_probe fatal
            (bind (bind (resolve_global_notify env_notify)
                     (λ g, ret (e :: out, g))) k) (λ _, True)) as Hrest.
  { eapply emits_bind with (Q := λ _, True); [|intros x _; apply Hk].
    eapply emits_bind with (Q := λ _, True); [|intros; by apply emits_ret].
    eapply emits_mono;
      [apply (resolve_global_notify_emits not_probe);
         [apply local_not_probe|done]|done..]. }
  destruct (Hrest st3) as (evs & Htr & Hevs & _).
  exists ([Open path] ++ Spec.warnings 1 lines ++ evs).
  rewrite Htr. unfold st3. cbn [trace].
  split; [by rewrite <- !app_assoc|].
  apply Forall_cons. split; [done|]. by apply Forall_app.
Qed.

(** C8, as amended.  When the run reaches the prompt for the actor-list
    file and the user enters nothing (an empty line after trimming), the
    path used for parsing is the string actors.csv: the run goes on as the
    reading of that path, whose first step is to test it, and no other path
    is tested in the run. *)
Theorem default_actors_path (st : state) (api : Api360)
    (env_notify : option string) (mailbox_id : string) (st1 : state)
    (line : string) (rest : list tty_input) :
  creation st = (Ret (api, env_notify, mailbox_id), st1) →
  stdin st1 = Typed line :: rest →
  strip line = "" →
  preparation env_notify st1
  = reading env_notify "actors.csv"
      (State rest (trace st1 ++ [Prompt AskActorsPath])) ∧
  (∃ tail,
     trace (final script st)
     = trace st1 ++ Prompt AskActorsPath :: IsFile "actors.csv" :: tail) ∧
  probed (emitted script st) = ["actors.csv"].
Proof.
  intros Hcreation Hstdin Hline.
  assert (∀ k : list entry * string → M unit,
            bind (preparation env_notify) k st1
            = bind (reading env_notify "actors.csv") k
                (State rest (trace st1 ++ [Prompt AskActorsPath]))) as Hprep.
  { intros k. unfold preparation. rewrite bind_assoc. unfold bind at 1.
    rewrite ask_run, Hstdin. unfold answered. by rewrite decide_True. }
  split.
  { unfold preparation, bind at 1. rewrite ask_run, Hstdin.
    unfold answered. by rewrite decide_True. }
  destruct (creation_emits not_probe (λ _, True) local_not_probe
              (λ api email name description,
                 create_shared_mailbox_emits not_probe api email name
                   description (λ _, I)) st)
    as (evs0 & Htr0 & Hevs0 & Hpost).
  rewrite Hcreation in Htr0, Hpost. simpl in Htr0, Hpost.
  destruct Hpost as [Henv _].
  set (k := λ x : list entry * string, assignment api mailbox_id x.1 x.2).
  assert (script st
          = bind (reading env_notify "actors.csv") k
              (State rest (trace st1 ++ [Prompt AskActorsPath]))) as Hscript.
  { rewrite script_main, main_phases. unfold phases, bind at 1.
    rewrite Hcreation. rewrite <- Hprep. apply bind_ext. by intros [??] ?. }
  destruct (reading_then env_notify "actors.csv" k
              (State rest (trace st1 ++ [Prompt AskActorsPath])) Henv)
    as (tail & Htr & Htail).
  { intros [entries g]. apply assignment_emits; [apply local_not_probe|done]. }
  rewrite <- Hscript in Htr. cbn [trace] in Htr.
  split.
  - exists tail. unfold final. rewrite Htr. by rewrite <- app_assoc.
  - unfold emitted, final. rewrite Htr, Htr0, <- !app_assoc, drop_app_length.
    rewrite !probed_app, (probed_nil _ Hevs0). simpl.
    change (probed (IsFile "actors.csv" :: tail))
      with ("actors.csv" :: probed tail).
    by rewrite (probed_nil _ Htail).
Qed.

(** C8 as stated fails: in this run the user enters nothing at the prompt
    for the actor-list file, and the path tested and parsed is actors.csv,
    not ./actors.csv. *)
Lemma default_path_is_not_dot_slash :
  stdin sample_input !! 3%nat = Some (Typed "") ∧
  probed (trace (final (@script sample_platform) sample_input))
  = ["actors.csv"] ∧
  ¬ (probed (trace (final (@script sample_platform) sample_input))
     = ["./actors.csv"]).
Proof. by vm_compute. Qed.

End Session.

(** C9.  Parsing determinism.  The outcome of a parse and the warnings it
    prints are a function of the path and of the lines of the file: two
    parses of the same content agree, whatever the rest of the platform and
    the state of the session are; in particular a second parse right after
    the first returns the same sequence again. *)
Theorem parse_actors_csv_deterministic (P1 P2 : Platform) (path : string)
    (st1 st2 : state) :
  @files P1 !! path = @files P2 !! path →
  result (@parse_actors_csv P1 path) st1
  = result (@parse_actors_csv P2 path) st2 ∧
  emitted (@parse_actors_csv P1 path) st1
  = emitted (@parse_actors_csv P2 path) st2 ∧
  result (@parse_actors_csv P1 path) (final (@parse_actors_csv P1 path) st1)
  = result (@parse_actors_csv P1 path) st1.
Proof.
  intros Hfiles. unfold result.
  rewrite !parse_actors_csv_emitted_eq, !parse_actors_csv_run, Hfiles.
  destruct (@files P2 !! path) as [lines|]; [|done].
  by destruct (Spec.rows lines).
Qed.

(** * Further properties of the code *)

(** ** [dedup] and [ensure_roles_valid] *)

Section MoreRoles.

Local Abbreviation owner := "shared_mailbox_owner".
Local Abbreviation sender := "shared_mailbox_sender".

(** X1.  [dedup] leaves a list as it is exactly when the list has no
    duplicates; in particular it is idempotent. *)
Theorem dedup_fixpoint (items : list string) :
  (dedup items = items ↔ NoDup items) ∧ dedup (dedup items) = dedup items.
Proof.
  split; [split|].
  - intros <-. apply dedup_NoDup.
  - apply dedup_id.
  - apply dedup_id, dedup_NoDup.
Qed.

(** X2.  [dedup] of a concatenation: the second part contributes what the
    first part does not hold already; and the result is never longer than
    the input. *)
Theorem dedup_app (l1 l2 : list string) :
  dedup (l1 ++ l2) = dedup l1 ++ filter (λ y, y ∉ l1) (dedup l2) ∧
  (length (dedup (l1 ++ l2)) ≤ length l1 + length l2)%nat.
Proof.
  rewrite !dedup_first_occurrences. split; [apply first_occurrences_app|].
  rewrite first_occurrences_app, length_app.
  assert (∀ l, (length (Spec.first_occurrences l) ≤ length l)%nat) as Hlen.
  { induction l as [|x l IH]; simpl; [done|].
    pose proof (length_filter (λ y, y ≠ x) (Spec.first_occurrences l)). lia. }
  pose proof (length_filter (λ y, y ∉ l1) (Spec.first_occurrences l2)).
  pose proof (Hlen l1). pose proof (Hlen l2). lia.
Qed.

(** X3.  Whatever the input, also the empty list, the list
    [ensure_roles_valid] returns is not empty, has no duplicates, holds the
    owner role or the sender role, is the owner role alone when it holds it,
    and holds nothing but roles of the input and the sender role. *)
Theorem ensure_roles_valid_invariant (roles : list string) (st : state) :
  ∃ out,
    result (ensure_roles_valid roles) st = Ret out ∧
    out ≠ [] ∧ NoDup out ∧
    (owner ∈ out ∨ sender ∈ out) ∧
    (owner ∈ out → out = [owner]) ∧
    (∀ x, x ∈ out → x ∈ roles ∨ x = sender).
Proof.
  exists (Spec.normalized roles). unfold result.
  rewrite ensure_roles_valid_run. split; [done|].
  unfold Spec.normalized.
  destruct (decide (owner ∈ roles)) as [Ho|Ho].
  { split_and!.
    - done.
    - apply NoDup_singleton.
    - left. apply list_elem_of_here.
    - done.
    - intros x Hx. apply list_elem_of_singleton in Hx as ->. by left. }
  destruct (decide (sender ∈ roles)) as [Hs|Hs].
  - split_and!.
    + intros Hnil. apply (first_occurrences_elem roles) in Hs.
      rewrite Hnil in Hs. by apply not_elem_of_nil in Hs.
    + apply first_occurrences_NoDup.
    + right. by rewrite first_occurrences_elem.
    + rewrite first_occurrences_elem. by intros ?.
    + intros x Hx. left. by rewrite first_occurrences_elem in Hx.
  - split_and!.
    + intros Hnil. apply app_eq_nil in Hnil as [_ ?]. done.
    + apply NoDup_app. split; [apply first_occurrences_NoDup|].
      split; [|apply NoDup_singleton].
      intros x Hx Hx'. apply list_elem_of_singleton in Hx' as ->.
      rewrite first_occurrences_elem in Hx. contradiction.
    + right. rewrite elem_of_app, list_elem_of_singleton. by right.
    + rewrite elem_of_app, first_occurrences_elem, list_elem_of_singleton.
      by intros [?|?].
    + intros x. rewrite elem_of_app, first_occurrences_elem,
        list_elem_of_singleton. tauto.
Qed.

End MoreRoles.

(** ** The API client *)

Section MoreClient.
Context `{Platform}.

(** X4.  On a decoded object [json_get_any] never raises, a missing key
    included: it returns the value of the first key, in the order of the
    list, that is present with a value other than null and the empty
    string, and the default when there is no such key. *)
Theorem json_get_any_first_match (m : gmap string json) (keys : list string)
    (dflt : json) :
  ∃ v,
    json_get_any (JObj m) keys dflt = inr v ∧
    ((v = dflt ∧
      ∀ k w, k ∈ keys → m !! k = Some w → not_blank w = false)
     ∨ ∃ before k after,
         keys = before ++ k :: after ∧
         m !! k = Some v ∧ not_blank v = true ∧
         ∀ k' w, k' ∈ before → m !! k' = Some w → not_blank w = false).
Proof.
  induction keys as [|k keys (v & Hget & Hv)]; simpl.
  { exists dflt. split; [done|]. left. split; [done|].
    intros k w Hk. by apply not_elem_of_nil in Hk. }
  destruct (m !! k) as [w|] eqn:Hk.
  - rewrite bool_decide_eq_true_2 by eauto.
    destruct (not_blank w) eqn:Hw.
    + exists w. split; [done|]. right. exists [], k, keys.
      split_and!; try done. intros k' w' Hk'. by apply not_elem_of_nil in Hk'.
    + exists v. split; [done|].
      destruct Hv as [[-> Hnone]|(before & k0 & after & -> & Hk0 & Hv & Hb)].
      * left. split; [done|]. intros k' w' [->|Hk']%elem_of_cons Hw'.
        -- congruence.
        -- by eapply Hnone.
      * right. exists (k :: before), k0, after. split_and!; try done.
        intros k' w' [->|Hk']%elem_of_cons Hw'.
        -- congruence.
        -- by eapply Hb.
  - rewrite bool_decide_eq_false_2 by (by intros [??]).
    exists v. split; [done|].
    destruct Hv as [[-> Hnone]|(before & k0 & after & -> & Hk0 & Hv & Hb)].
    + left. split; [done|]. intros k' w' [->|Hk']%elem_of_cons Hw'.
      * congruence.
      * by eapply Hnone.
    + right. exists (k :: before), k0, after. split_and!; try done.
      intros k' w' [->|Hk']%elem_of_cons Hw'.
      * congruence.
      * by eapply Hb.
Qed.

(** X5.  On a decoded value that is not an object [json_get_any] returns
    the default when no key is found in the value by Python's [in] (no key
    at all, no element of an array equal to a key, no key occurring in a
    string) and raises [TypeError] otherwise: always so on null, a boolean
    or a number once there is a key. *)
Theorem json_get_any_not_object (d : json) (keys : list string) (dflt : json) :
  (∀ m, d ≠ JObj m) →
  (Forall (λ k, json_in k d = inr false) keys →
   json_get_any d keys dflt = inr dflt) ∧
  (¬ Forall (λ k, json_in k d = inr false) keys →
   json_get_any d keys dflt = inl TypeError) ∧
  (keys ≠ [] → (d = JNull ∨ (∃ b, d = JBool b) ∨ ∃ z, d = JInt z) →
   json_get_any d keys dflt = inl TypeError).
Proof.
  intros Hd. split_and!.
  - induction 1 as [|k keys Hk _ IH]; simpl; [done|]. by rewrite Hk.
  - induction keys as [|k keys IH]; intros Hnot.
    { destruct Hnot. constructor. }
    simpl. destruct (json_in k d) as [e|[]] eqn:Hin.
    + destruct d; simpl in Hin; congruence.
    + destruct d as [| | | | |m]; simpl in *; try congruence.
    + apply IH. intros Hall. apply Hnot. by constructor.
  - intros Hkeys Hscalar. destruct keys as [|k keys]; [done|].
    by destruct Hscalar as [->|[[b ->]|[z ->]]].
Qed.

(** X6.  [set_access] makes exactly one request, whose body is the
    normalized role list, and returns only on an answer with status 200.
    Any other answer raises a [RuntimeError] whose text carries the actor,
    the normalized roles (not the ones given), the notify value, the status
    and the raw body; no answer raises what [requests] raised. *)
Theorem set_access_contract (api : Api360) (mailbox_id actor_id : string)
    (roles : list string) (notify : string) (st : state) :
  ∃ sent res,
    result (ensure_roles_valid roles) st = Ret sent ∧
    calls (emitted (set_access api mailbox_id actor_id roles notify) st)
    = [(POST (base api +:+ "/mailboxes/set/" +:+ mailbox_id) (hdrs api)
          {[ "actorId" := actor_id; "notify" := notify ]} sent, res)] ∧
    (result (set_access api mailbox_id actor_id roles notify) st = Ret tt
     ↔ succeeded res = true) ∧
    (∀ r, res = Answer r → status_code r ≠ 200 →
       result (set_access api mailbox_id actor_id roles notify) st
       = Raise (RuntimeError (SetFailed actor_id sent notify
                                (status_code r) (text r)))) ∧
    (res = Failed →
       result (set_access api mailbox_id actor_id roles notify) st
       = Raise RequestException).
Proof.
  pose proof (set_access_run api mailbox_id actor_id roles notify st) as Hrun.
  cbv zeta in Hrun.
  set (req := POST _ _ _ _) in *. set (res := http _ req) in *.
  exists (Spec.normalized roles), res. split_and!.
  - unfold result. by rewrite ensure_roles_valid_run.
  - erewrite emitted_app; [|by rewrite Hrun].
    rewrite calls_app, (calls_local _ (sender_warning_local _)). done.
  - unfold result. rewrite Hrun. simpl. destruct res as [|r]; simpl; [done|].
    destruct (decide (status_code r = 200)) as [Hok|Hko].
    + by rewrite bool_decide_eq_true_2.
    + by rewrite bool_decide_eq_false_2.
  - intros r Hres Hko. unfold result. rewrite Hrun, Hres. simpl.
    by rewrite decide_False.
  - intros Hres. unfold result. by rewrite Hrun, Hres.
Qed.

(** X7.  In one turn of the assignment loop exactly one request is made,
    and the warning about the added sender role is printed once for every
    normalization of a role list without owner and sender: twice when the
    assignment succeeds (for the request and again for the confirmation
    line), once when it fails, never when one of the two roles is given. *)
Theorem assign_one_warnings (api : Api360) (mailbox_id global_notify : string)
    (e : entry) (tally : nat * nat) (st : state) :
  ∃ res,
    calls (emitted (assign_one api mailbox_id global_notify e tally) st)
    = [(sent_request api mailbox_id global_notify e, res)] ∧
    sender_warnings
      (emitted (assign_one api mailbox_id global_notify e tally) st)
    = if decide ("shared_mailbox_owner" ∈ e.1.2 ∨
                 "shared_mailbox_sender" ∈ e.1.2)
      then 0%nat
      else if succeeded res then 2%nat else 1%nat.
Proof.
  rewrite assign_one_emitted.
  fold (turn_events api mailbox_id global_notify e (trace st)).
  rewrite turn_events_calls. eexists. split; [done|].
  unfold turn_events. set (res := http _ _).
  unfold verdict_events, sender_warning, succeeded.
  destruct (decide ("shared_mailbox_owner" ∈ e.1.2)) as [Ho|Ho].
  { rewrite decide_True by (by left).
    destruct res as [|r]; [done|]. by destruct (decide (status_code r = 200)). }
  destruct (decide ("shared_mailbox_sender" ∈ e.1.2)) as [Hs|Hs].
  { rewrite decide_True by (by right).
    destruct res as [|r]; [done|]. by destruct (decide (status_code r = 200)). }
  rewrite decide_False by (by intros [?|?]).
  destruct res as [|r]; [done|].
  destruct (decide (status_code r = 200)) as [Hok|Hko].
  - by rewrite bool_decide_eq_true_2.
  - by rewrite bool_decide_eq_false_2.
Qed.

(** X19.  [create_shared_mailbox] makes exactly one request and reads
    nothing.  Besides its two diagnostics it fails in ways it does not
    report itself: no answer raises what [requests] raised; a body that is
    not JSON raises the decoding error of [r.json()]; null, a boolean or a
    number as body raises [TypeError] in [json_get_any].  An empty body
    counts as the empty object and gives the diagnostic about the missing
    id, and a body that is not an object never gives an id. *)
Theorem create_shared_mailbox_failures (api : Api360)
    (email name description : string) (st : state) :
  let req := create_request api email name description in
  let res := http (trace st) req in
  let run := result (create_shared_mailbox api email name description) st in
  emitted (create_shared_mailbox api email name description) st
  = [Http req res] ∧
  stdin (final (create_shared_mailbox api email name description) st)
  = stdin st ∧
  (res = Failed → run = Raise RequestException) ∧
  (∀ r, res = Answer r → status_code r = 200 →
     content r ≠ "" → decoded r = None → run = Raise JSONDecodeError) ∧
  (∀ r, res = Answer r → status_code r = 200 → content r = "" →
     run = Raise (RuntimeError (NoMailboxId (JObj ∅)))) ∧
  (∀ r d, res = Answer r → status_code r = 200 → body_of r = Some d →
     (d = JNull ∨ (∃ b, d = JBool b) ∨ ∃ z, d = JInt z) →
     run = Raise TypeError) ∧
  (∀ r d, res = Answer r → status_code r = 200 → body_of r = Some d →
     (∀ m, d ≠ JObj m) →
     run = Raise TypeError ∨ run = Raise (RuntimeError (NoMailboxId d))).
Proof.
  intros req res run. unfold run, result, emitted, final.
  rewrite create_shared_mailbox_run. cbn [fst snd stdin trace].
  fold req. fold res. rewrite drop_app_length.
  split; [done|]. split; [done|]. split_and!.
  - by intros ->.
  - intros r -> Hok Hcontent Hdecoded. rewrite decide_True by done.
    unfold body_of. apply nonempty_true in Hcontent.
    by rewrite Hcontent, Hdecoded.
  - intros r -> Hok Hcontent. rewrite decide_True by done.
    unfold body_of, nonempty. by rewrite Hcontent.
  - intros r d -> Hok -> Hscalar. rewrite decide_True by done.
    by destruct Hscalar as [->|[[b ->]|[z ->]]].
  - intros r d -> Hok -> Hother. rewrite decide_True by done.
    destruct (json_get_any_other d Spec.id_fields Hother) as [-> | ->];
      [by left|by right].
Qed.

End MoreClient.

(** ** Trimming and splitting *)

Section Text.

Lemma chars_inj (s t : string) : chars s = chars t → s = t.
Proof.
  unfold chars. intros Heq.
  rewrite <- (String.string_of_list_ascii_of_string s),
    <- (String.string_of_list_ascii_of_string t). by rewrite Heq.
Qed.

Lemma chars_nil (s : string) : chars s = [] → s = "".
Proof. by destruct s. Qed.

Lemma chars_rev_app (s t : string) :
  chars (String.rev_app s t) = reverse (chars s) ++ chars t.
Proof.
  revert t. induction s as [|c s IH]; intros t; [done|].
  simpl. rewrite IH. change (chars (String c s)) with (c :: chars s).
  change (chars (String c t)) with (c :: chars t).
  by rewrite reverse_cons, <- app_assoc.
Qed.

Lemma chars_rev (s : string) : chars (String.rev s) = reverse (chars s).
Proof.
  unfold String.rev. rewrite chars_rev_app. apply app_nil_r.
Qed.

Lemma chars_lstrip (s : string) : chars (lstrip s) = drop_spaces (chars s).
Proof.
  induction s as [|c s IH]; [done|].
  change (chars (String c s)) with (c :: chars s). simpl.
  by destruct (isspace c).
Qed.

Lemma chars_rstrip (s : string) :
  chars (rstrip s) = reverse (drop_spaces (reverse (chars s))).
Proof. unfold rstrip. by rewrite chars_rev, chars_lstrip, chars_rev. Qed.

Lemma chars_strip (s : string) :
  chars (strip s)
  = reverse (drop_spaces (reverse (drop_spaces (chars s)))).
Proof. unfold strip. by rewrite chars_rstrip, chars_lstrip. Qed.

Lemma drop_spaces_head (l : list ascii) (c : ascii) :
  head (drop_spaces l) = Some c → isspace c = false.
Proof.
  induction l as [|x l IH]; simpl; [done|].
  destruct (isspace x) eqn:Hx; [done|]. simpl. congruence.
Qed.

Lemma drop_spaces_last (l : list ascii) (c : ascii) :
  last l = Some c → isspace c = false → last (drop_spaces l) = Some c.
Proof.
  intros Hlast Hc. induction l as [|x l IH]; [done|]. simpl.
  destruct (isspace x) eqn:Hx; [|done].
  apply IH. destruct l as [|y l]; [|done].
  simpl in Hlast. congruence.
Qed.

Lemma drop_spaces_elem (l : list ascii) (c : ascii) :
  c ∈ drop_spaces l → c ∈ l.
Proof.
  induction l as [|x l IH]; simpl; [done|].
  destruct (isspace x); [|done]. intros Hc. right. by apply IH.
Qed.

Lemma strip_trimmed (s : string) : trimmed (strip s).
Proof.
  unfold trimmed. intros c. rewrite chars_strip, head_reverse, last_reverse.
  intros [Hc|Hc]; [|by eapply drop_spaces_head].
  destruct (last (reverse (drop_spaces (chars s)))) as [c'|] eqn:Hlast.
  - rewrite last_reverse in Hlast.
    pose proof (drop_spaces_head _ _ Hlast) as Hc'.
    rewrite <- last_reverse in Hlast.
    rewrite (drop_spaces_last _ _ Hlast Hc') in Hc. congruence.
  - apply last_None in Hlast. rewrite Hlast in Hc. done.
Qed.

Lemma strip_elem (s : string) (c : ascii) : c ∈ chars (strip s) → c ∈ chars s.
Proof.
  rewrite chars_strip, elem_of_reverse.
  intros Hc%drop_spaces_elem. rewrite elem_of_reverse in Hc.
  by apply drop_spaces_elem.
Qed.

Lemma split_go_no_sep (sep : ascii) (s cur p : string) :
  sep ∉ chars cur → p ∈ split_go sep cur s → sep ∉ chars p.
Proof.
  revert cur. induction s as [|c s IH]; intros cur Hcur; simpl.
  - intros ->%list_elem_of_singleton. by rewrite chars_rev, elem_of_reverse.
  - destruct (decide (c = sep)) as [->|Hne].
    + intros [->|Hp]%elem_of_cons.
      * by rewrite chars_rev, elem_of_reverse.
      * apply (IH ""); [apply not_elem_of_nil|done].
    + apply IH. change (chars (String c cur)) with (c :: chars cur).
      apply not_elem_of_cons. split; [by intros ->|done].
Qed.

Lemma fields_clean (line field : string) :
  field ∈ Spec.fields line → clean_field field.
Proof.
  unfold Spec.fields. rewrite list_elem_of_filter, list_elem_of_fmap.
  intros (Hne & p & -> & Hp). split; [done|]. split; [apply strip_trimmed|].
  intros Hcomma%strip_elem.
  by apply (split_go_no_sep "," (strip line) "" p (not_elem_of_nil _)).
Qed.

End Text.

(** ** The actor list parser *)

Section MoreParser.
Context `{Platform}.

Lemma dedup_not_nil (items : list string) : items ≠ [] → dedup items ≠ [].
Proof.
  destruct items as [|x items]; [done|]. intros _ Hnil.
  assert (x ∈ dedup (x :: items)) as Hx by (apply dedup_elem; by left).
  rewrite Hnil in Hx. by apply not_elem_of_nil in Hx.
Qed.

Lemma all_but_last_elem {A} (l : list A) (x : A) : x ∈ all_but_last l → x ∈ l.
Proof.
  unfold all_but_last. intros Hx.
  eapply elem_of_prefix; [exact Hx|apply prefix_take].
Qed.

(** X8.  Every row the parser returns is well formed, and there is at
    least one: the actor and every role are non-empty, have no white space
    around them and hold no comma; there is at least one role and no role
    twice; the override, if any, is one of all, delegates, none in lower
    case. *)
Theorem parse_actors_csv_wellformed (path : string) (out : list entry)
    (st : state) :
  result (parse_actors_csv path) st = Ret out →
  out ≠ [] ∧
  Forall (λ e : entry,
            clean_field e.1.1 ∧ e.1.2 ≠ [] ∧ NoDup e.1.2 ∧
            Forall clean_field e.1.2 ∧ literal_or_none e.2) out.
Proof.
  unfold result. rewrite parse_actors_csv_run.
  destruct (files !! path) as [lines|]; [|done].
  destruct (Spec.rows lines) as [|e0 out0] eqn:Hrows; [done|].
  intros [= <-]. split; [done|]. rewrite <- Hrows.
  apply Forall_forall. intros [[actor_id roles] override] Hin.
  apply list_elem_of_omap in Hin as (line & _ & Hrow).
  apply row_accepted in Hrow as (_ & payload & field & Hf & Hlast & Hcase).
  assert (∀ x, x ∈ actor_id :: payload → clean_field x) as Hclean.
  { intros x Hx. apply (fields_clean line). by rewrite Hf. }
  simpl. split; [apply Hclean; by left|].
  destruct Hcase as [(Hlit & -> & Hsome & ->)|(Hlit & -> & ->)].
  - split_and!.
    + by apply dedup_not_nil.
    + apply dedup_NoDup.
    + apply Forall_forall. intros x Hx. rewrite dedup_elem in Hx.
      apply all_but_last_elem in Hx. apply Hclean. by right.
    + done.
  - split_and!.
    + apply dedup_not_nil. by destruct payload.
    + apply dedup_NoDup.
    + apply Forall_forall. intros x Hx. rewrite dedup_elem in Hx.
      apply Hclean. by right.
    + done.
Qed.

(** X9.  When the path is not a regular file the parser exits with status
    1 after writing the message that carries the path, without opening
    anything; a file is opened exactly when it exists. *)
Theorem parse_actors_csv_missing_file (path : string) (st : state) :
  (files !! path = None →
   result (parse_actors_csv path) st = Raise (SystemExit 1) ∧
   emitted (parse_actors_csv path) st
   = [IsFile path; Stderr (MsgFileNotFound path)]) ∧
  (is_Some (files !! path) ↔
   ∃ tail, emitted (parse_actors_csv path) st
           = IsFile path :: Open path :: tail).
Proof.
  rewrite parse_actors_csv_emitted_eq. unfold result.
  rewrite parse_actors_csv_run.
  destruct (files !! path) as [lines|].
  - split; [done|]. split; [eauto|by eauto].
  - split; [done|]. split; [by intros [??]|by intros [??]].
Qed.

(** X10.  Rows are parsed one by one: the rows of a file made of the lines
    of one file followed by the lines of another are the rows of the first
    followed by the rows of the second, the same actor twice giving two
    rows; and the longer file is refused exactly when both are. *)
Theorem parse_actors_csv_concat (p1 p2 p12 : string) (l1 l2 : list string)
    (st : state) :
  files !! p1 = Some l1 → files !! p2 = Some l2 →
  files !! p12 = Some (l1 ++ l2) →
  (∀ o1 o2,
     result (parse_actors_csv p1) st = Ret o1 →
     result (parse_actors_csv p2) st = Ret o2 →
     result (parse_actors_csv p12) st = Ret (o1 ++ o2)) ∧
  (result (parse_actors_csv p12) st = Raise (SystemExit 1)
   ↔ result (parse_actors_csv p1) st = Raise (SystemExit 1) ∧
     result (parse_actors_csv p2) st = Raise (SystemExit 1)).
Proof.
  intros H1 H2 H12. unfold result.
  rewrite !parse_actors_csv_run, H1, H2, H12.
  unfold Spec.rows. rewrite omap_app.
  destruct (omap Spec.row l1) as [|e1 o1'], (omap Spec.row l2) as [|e2 o2'];
    simpl; split; try done; try (by intros ?? [= <-] [= <-]);
    try (split; [done|by intros [??]]).
Qed.

End MoreParser.

(** ** The session *)

Section MoreSession.
Context `{Platform}.

Lemma bind_run {A B} (m : M A) (f : A → M B) (st st1 : state) (a : A) :
  m st = (Ret a, st1) → bind m f st = f a st1.
Proof. intros Hm. unfold bind. by rewrite Hm. Qed.

Lemma bind_raise {A B} (m : M A) (f : A → M B) (st st1 : state) (e : exn) :
  m st = (Raise e, st1) → bind m f st = (Raise e, st1).
Proof. intros Hm. unfold bind. by rewrite Hm. Qed.

Lemma bind_Ret_inv {A B} (m : M A) (f : A → M B) (st st' : state) (b : B) :
  bind m f st = (Ret b, st') →
  ∃ a st1, m st = (Ret a, st1) ∧ f a st1 = (Ret b, st').
Proof. unfold bind. destruct (m st) as [[a|e|] st1]; [eauto|done|done]. Qed.

Lemma load_env_run (st : state) :
  load_env st
  = if decide (env_token = "" ∨ env_org_id = "")
    then (Raise (SystemExit 1),
          State (stdin st) (trace st ++ [Stderr MsgEnvMissing]))
    else if decide (env_notify = "" ∨ env_notify ∈ VALID_NOTIFY)
    then (Ret (env_token, env_org_id,
               if decide (env_notify ∈ VALID_NOTIFY)
               then Some env_notify else None),
          st)
    else (Ret (env_token, env_org_id, None),
          State (stdin st) (trace st ++ [Stdout (MsgNotifyIgnored env_notify)])).
Proof.
  unfold load_env. fold env_token env_org_id env_notify.
  destruct (decide (env_token = "" ∨ env_org_id = "")) as [Hmiss|Hcred].
  { assert (negb (nonempty env_token) || negb (nonempty env_org_id) = true)
      as ->.
    { unfold nonempty. rewrite !negb_involutive.
      destruct Hmiss as [-> | ->]; [done|]. apply orb_true_r. }
    unfold die, bind, emit, raise. done. }
  assert (negb (nonempty env_token) || negb (nonempty env_org_id) = false)
    as ->.
  { unfold nonempty. rewrite !negb_involutive.
    apply orb_false_iff.
    split; apply bool_decide_eq_false; intros ?; apply Hcred; auto. }
  rewrite bind_ret_l. unfold or_None.
  destruct (decide (env_notify = "")) as [Hblank|Hgiven].
  { rewrite Hblank. rewrite decide_True by (by left).
    rewrite decide_False by (by vm_compute). done. }
  rewrite (proj2 (nonempty_true _) Hgiven).
  destruct (decide (env_notify ∈ VALID_NOTIFY)) as [Hlit|Hlit].
  - rewrite decide_True by (by right).
    rewrite (bool_decide_eq_true_2 _ Hlit). simpl. by rewrite andb_false_r.
  - rewrite decide_False by (by intros [?|?]).
    rewrite (bool_decide_eq_false_2 _ Hlit). simpl.
    rewrite (proj2 (nonempty_true _) Hgiven). done.
Qed.

Lemma load_env_ok (st : state) :
  env_token ≠ "" → env_org_id ≠ "" →
  load_env st
  = (Ret (env_token, env_org_id, env_configured),
     State (stdin st) (trace st ++ env_warning)).
Proof.
  intros Ht Ho. rewrite load_env_run. unfold env_configured, env_warning.
  rewrite decide_False by (by intros [?|?]).
  destruct (decide (env_notify = "" ∨ env_notify ∈ VALID_NOTIFY))
    as [Hkeep|Hdrop].
  - by rewrite app_nil_r, state_eta.
  - rewrite decide_False; [done|]. intros ?. apply Hdrop. by right.
Qed.

Lemma load_env_missing (st : state) :
  env_token = "" ∨ env_org_id = "" →
  load_env st
  = (Raise (SystemExit 1),
     State (stdin st) (trace st ++ [Stderr MsgEnvMissing])).
Proof. intros Hmiss. rewrite load_env_run. by rewrite decide_True. Qed.

Lemma env_configured_literal : literal_or_none env_configured.
Proof. unfold env_configured. by case_decide. Qed.

(** X11.  [load_env] ends the run exactly when the token or the
    organization id is missing or blank.  The whole run is then one message
    on the standard error and exit status 1: nothing is asked, nothing is
    read from the terminal and no request is made. *)
Theorem missing_credentials (st : state) :
  (env_token = "" ∨ env_org_id = ""
   ↔ result load_env st = Raise (SystemExit 1)) ∧
  (env_token = "" ∨ env_org_id = "" →
   result script st = Raise (SystemExit 1) ∧
   exit_status (result script st) = Some 1 ∧
   emitted script st = [Stderr MsgEnvMissing] ∧
   stdin (final script st) = stdin st).
Proof.
  split.
  - unfold result. rewrite load_env_run.
    destruct (decide (env_token = "" ∨ env_org_id = "")); [done|].
    by destruct (decide (env_notify = "" ∨ env_notify ∈ VALID_NOTIFY)).
  - intros Hmiss.
    assert (script st
            = (Raise (SystemExit 1),
               State (stdin st) (trace st ++ [Stderr MsgEnvMissing])))
      as Hrun.
    { rewrite script_main. unfold main.
      by rewrite (bind_raise _ _ _ _ _ (load_env_missing st Hmiss)). }
    unfold result, final. rewrite (emitted_app _ _ [Stderr MsgEnvMissing]);
      by rewrite Hrun.
Qed.

(** X12.  With a token and an organization id, [load_env] returns both
    trimmed, and the configured notification value trimmed and in lower
    case when that is one of all, delegates, none.  Any other value is
    dropped; a warning is printed for it unless it is blank.  Nothing is
    read from the terminal. *)
Theorem load_env_values (st : state) :
  env_token ≠ "" → env_org_id ≠ "" →
  result load_env st
  = Ret (strip (getenv "TOKEN" ""), strip (getenv "ORG_ID" ""),
         if decide (lower (strip (getenv "NOTIFY" "")) ∈ VALID_NOTIFY)
         then Some (lower (strip (getenv "NOTIFY" ""))) else None) ∧
  emitted load_env st
  = (if decide (lower (strip (getenv "NOTIFY" "")) = "" ∨
                lower (strip (getenv "NOTIFY" "")) ∈ VALID_NOTIFY)
     then []
     else [Stdout (MsgNotifyIgnored (lower (strip (getenv "NOTIFY" ""))))]) ∧
  stdin (final load_env st) = stdin st.
Proof.
  intros Ht Ho. unfold result, final.
  rewrite (emitted_app _ _ env_warning); by rewrite load_env_ok.
Qed.

(** X13.  [ask] reads one line.  It returns the line trimmed, which then
    has no white space at either end, or the default when the trimmed line
    is empty and there is a default.  An interrupt at the prompt ends the
    run with exit status 1 after a message on the standard error; the end
    of the input is not handled and raises [EOFError]. *)
Theorem ask_behaviour (p : prompt) (dflt : option string) (st : state) :
  (∀ line rest, stdin st = Typed line :: rest →
     ∃ s, result (ask p dflt) st = Ret s ∧
          stdin (final (ask p dflt) st) = rest ∧
          emitted (ask p dflt) st = [Prompt p] ∧
          (strip line ≠ "" → s = strip line ∧ trimmed s) ∧
          (strip line = "" → s = default "" dflt)) ∧
  (∀ rest, stdin st = CtrlC :: rest →
     result (ask p dflt) st = Raise (SystemExit 1) ∧
     emitted (ask p dflt) st = [Prompt p; Stderr MsgInterrupted]) ∧
  (stdin st = [] → result (ask p dflt) st = Raise EOFError).
Proof.
  split_and!.
  - intros line rest Hin. exists (answered dflt line).
    unfold result, final. rewrite (emitted_app _ _ [Prompt p]);
      rewrite ask_run, Hin; [|done].
    split_and!; try done.
    + intros Hne. unfold answered.
      destruct dflt; [rewrite decide_False by done|];
        (split; [done|apply strip_trimmed]).
    + intros Hblank. unfold answered.
      destruct dflt; [by rewrite decide_True|done].
  - intros rest Hin. unfold result.
    rewrite (emitted_app _ _ [Prompt p; Stderr MsgInterrupted]);
      by rewrite ask_run, Hin.
  - intros Hin. unfold result. by rewrite ask_run, Hin.
Qed.

Ltac assoc_step :=
  first
    [ reflexivity
    | rewrite bind_ret_l; cbv beta iota
    | rewrite bind_assoc
    | apply bind_ext; intros ? ?
    | match goal with
      | |- context [let '(_, _) := ?x in _] => destruct x
      end ].

(** [creation] is the prelude followed by the creation request. *)
Lemma creation_prelude (st : state) : creation st = bind prelude founding st.
Proof. unfold creation, prelude, founding. repeat assoc_step. Qed.

Lemma prelude_emits (P : event → Prop) :
  (∀ ev, local ev → P ev) →
  emits P fatal prelude
    (λ x, x.1.1.1.1 = env_api ∧ literal_or_none x.1.1.1.2 ∧
          contains "@" x.1.1.2 = true ∧ x.1.2 ≠ "").
Proof.
  intros HP. unfold prelude.
  eapply emits_bind with
    (Q := λ x, x = (env_token, env_org_id, env_configured)).
  { intros st. rewrite load_env_run.
    destruct (decide (env_token = "" ∨ env_org_id = "")) as [Hmiss|Hcred].
    - exists [Stderr MsgEnvMissing]. split; [done|].
      split; [repeat constructor; by apply HP|by left].
    - unfold env_configured.
      destruct (decide (env_notify = "" ∨ env_notify ∈ VALID_NOTIFY))
        as [Hkeep|Hdrop].
      + exists []. by rewrite app_nil_r.
      + exists [Stdout (MsgNotifyIgnored env_notify)]. split; [done|].
        split; [repeat constructor; by apply HP|]. simpl.
        rewrite decide_False; [done|]. intros ?. apply Hdrop. by right. }
  intros x ->.
  eapply emits_bind; [apply emits_print; by apply HP|]. intros _ _.
  eapply emits_bind; [by apply ask_emits|]. intros email _.
  eapply emits_bind; [by apply ask_emits|]. intros name _.
  eapply emits_bind; [by apply ask_emits|]. intros description _.
  eapply emits_bind; [apply emits_guard; by apply HP|]. intros [] Hemail.
  eapply emits_bind; [apply emits_guard; by apply HP|]. intros [] Hname.
  apply emits_ret. simpl. split_and!.
  - done.
  - apply env_configured_literal.
  - by apply negb_false_iff in Hemail.
  - apply negb_false_iff in Hname. by apply nonempty_true.
Qed.

(** The prelude on three typed lines. *)
Lemma prelude_typed (st : state) (email name description : string)
    (rest : list tty_input) :
  env_token ≠ "" → env_org_id ≠ "" →
  stdin st = Typed email :: Typed name :: Typed description :: rest →
  let asked := env_warning ++ [Stdout MsgCreateHeader; Prompt AskEmail;
                               Prompt AskName; Prompt AskDescription] in
  prelude st
  = if negb (contains "@" (strip email))
    then (Raise (SystemExit 1),
          State rest (trace st ++ asked ++ [Stderr MsgBadEmail]))
    else if negb (nonempty (strip name))
    then (Raise (SystemExit 1),
          State rest (trace st ++ asked ++ [Stderr MsgEmptyName]))
    else (Ret (env_api, env_configured, strip email, strip name,
               strip description),
          State rest (trace st ++ asked)).
Proof.
  intros Ht Ho Hin asked. unfold prelude.
  rewrite (bind_run _ _ _ _ _ (load_env_ok st Ht Ho)). cbv beta iota.
  unfold bind at 1, print, emit. cbn [stdin trace].
  unfold bind at 1. rewrite ask_run. cbn [stdin trace]. rewrite Hin.
  unfold bind at 1. rewrite ask_run. cbn [stdin trace].
  unfold bind at 1. rewrite ask_run. cbn [stdin trace].
  unfold answered, asked.
  destruct (contains "@" (strip email)); cbn [negb].
  2: { unfold die, bind, emit, raise. simpl.
       rewrite <- !app_assoc. reflexivity. }
  rewrite bind_ret_l.
  destruct (nonempty (strip name)); cbn [negb].
  2: { unfold die, bind, emit, raise. simpl.
       rewrite <- !app_assoc. reflexivity. }
  rewrite bind_ret_l. unfold ret. rewrite <- !app_assoc. reflexivity.
Qed.

Lemma local_not_http (ev : event) : local ev → ¬ is_http ev.
Proof. intros Hl Hh. destruct ev; simpl in *; done. Qed.

Lemma prompts_app (evs1 evs2 : list event) :
  prompts (evs1 ++ evs2) = prompts evs1 ++ prompts evs2.
Proof. apply omap_app. Qed.

Lemma env_warning_local : Forall local env_warning.
Proof. unfold env_warning. case_decide; by repeat constructor. Qed.

Lemma env_warning_prompts : prompts env_warning = [].
Proof. unfold env_warning. by case_decide. Qed.

(** X14.  The checks of [main] come after the three prompts and before any
    request: with an e-mail address that holds no at sign, or a name that
    is blank, the run has asked for the address, the name and the
    description, makes no request at all and ends with exit status 1. *)
Theorem invalid_mailbox_fields (st : state) (email name description : string)
    (rest : list tty_input) :
  stdin st = Typed email :: Typed name :: Typed description :: rest →
  contains "@" (strip email) = false ∨ strip name = "" →
  exit_status (result script st) = Some 1 ∧
  Forall (λ ev, ¬ is_http ev) (emitted script st) ∧
  (env_token ≠ "" → env_org_id ≠ "" →
   prompts (emitted script st) = [AskEmail; AskName; AskDescription] ∧
   stdin (final script st) = rest).
Proof.
  intros Hin Hbad.
  destruct (decide (env_token = "" ∨ env_org_id = "")) as [Hmiss|Hcred].
  { assert (script st
            = (Raise (SystemExit 1),
               State (stdin st) (trace st ++ [Stderr MsgEnvMissing])))
      as Hrun.
    { rewrite script_main. unfold main.
      by rewrite (bind_raise _ _ _ _ _ (load_env_missing st Hmiss)). }
    unfold result. rewrite (emitted_app _ _ [Stderr MsgEnvMissing]);
      rewrite Hrun; [|done].
    split; [done|]. split.
    { eapply Forall_impl; [|apply local_not_http]. by repeat constructor. }
    intros Ht Ho. destruct Hmiss; contradiction. }
  assert (env_token ≠ "") as Ht by (intros ?; apply Hcred; by left).
  assert (env_org_id ≠ "") as Ho by (intros ?; apply Hcred; by right).
  pose proof (prelude_typed st email name description rest Ht Ho Hin)
    as Hprelude. cbv zeta in Hprelude.
  assert (∃ msg,
            prelude st
            = (Raise (SystemExit 1),
               State rest
                 (trace st
                    ++ (env_warning
                          ++ [Stdout MsgCreateHeader; Prompt AskEmail;
                              Prompt AskName; Prompt AskDescription])
                    ++ [Stderr msg]))) as [msg Hraise].
  { destruct (contains "@" (strip email)) eqn:Hat; cbn [negb] in Hprelude;
      [|eexists; exact Hprelude].
    destruct Hbad as [?|Hname]; [done|].
    rewrite Hname in Hprelude.
    change (negb (nonempty "")) with true in Hprelude.
    eexists. exact Hprelude. }
  assert (script st
          = (Raise (SystemExit 1),
             State rest
               (trace st
                  ++ (env_warning
                        ++ [Stdout MsgCreateHeader; Prompt AskEmail;
                            Prompt AskName; Prompt AskDescription])
                  ++ [Stderr msg]))) as Hrun.
  { rewrite script_main, main_phases. unfold phases.
    apply bind_raise. rewrite creation_prelude. by apply bind_raise. }
  unfold result, final. erewrite emitted_app; [|by rewrite Hrun].
  rewrite Hrun. split; [done|]. split.
  - eapply Forall_impl; [|apply local_not_http].
    apply Forall_app. split; [|by repeat constructor].
    apply Forall_app. split; [apply env_warning_local|by repeat constructor].
  - intros _ _. split; [|done].
    by rewrite !prompts_app, env_warning_prompts.
Qed.

Lemma append_assoc (s t u : string) : (s +:+ t) +:+ u = s +:+ t +:+ u.
Proof.
  induction s as [|c s IH]; [done|].
  change (String c ((s +:+ t) +:+ u) = String c (s +:+ t +:+ u)).
  by rewrite IH.
Qed.

Lemma authenticated_create (email name description : string)
    (res : http_result) :
  authenticated (Http (create_request env_api email name description) res).
Proof.
  split; [apply lookup_insert_eq|].
  exists "/mailboxes/shared". apply append_assoc.
Qed.

Lemma authenticated_sent (mailbox_id global_notify : string) (e : entry)
    (res : http_result) :
  authenticated (Http (sent_request env_api mailbox_id global_notify e) res).
Proof.
  split; [apply lookup_insert_eq|].
  exists ("/mailboxes/set/" +:+ mailbox_id). apply append_assoc.
Qed.

Lemma creation_emits_api (P : event → Prop) :
  (∀ ev, local ev → P ev) →
  (∀ email name description res,
     P (Http (create_request env_api email name description) res)) →
  emits P fatal creation (λ x, x.1.1 = env_api ∧ literal_or_none x.1.2).
Proof.
  intros HP Hput.
  apply (emits_ext _ _ (bind prelude founding));
    [intros st; by rewrite creation_prelude|].
  eapply emits_bind; [by apply prelude_emits|].
  intros [[[[api env] email] name] description] (Hapi & Henv & _ & _).
  simpl in Hapi, Henv. subst api. unfold founding.
  eapply emits_bind; [by apply create_shared_mailbox_emits|]. intros mid _.
  eapply emits_bind; [apply emits_print; by apply HP|]. intros _ _.
  eapply emits_bind; [apply emits_print; by apply HP|]. intros _ _.
  by apply emits_ret.
Qed.

(** X15.  Every request of a run goes to the organization read from the
    environment and carries its token: the URL starts with the address of
    the API followed by the trimmed organization id, and the Authorization
    header is OAuth followed by the trimmed token. *)
Theorem requests_authenticated (st : state) :
  Forall authenticated (emitted script st).
Proof.
  assert (emits authenticated fatal phases (λ _, True)) as Hrun.
  { assert (∀ ev, local ev → authenticated ev) as Hlocal by (by intros []).
    unfold phases.
    eapply emits_bind.
    { apply creation_emits_api; [done|]. intros. apply authenticated_create. }
    intros [[api env] mailbox_id] [Hapi Henv]. simpl in Hapi, Henv. subst api.
    eapply emits_bind; [by apply preparation_emits|].
    intros [entries global_notify] _.
    apply assignment_emits; [done|]. intros. apply authenticated_sent. }
  destruct (Hrun st) as (evs & Htr & Hevs & _).
  unfold emitted, final. rewrite script_main, main_phases.
  by rewrite Htr, drop_app_length.
Qed.

(** *** The shape of a run *)

Lemma founding_run (api : Api360) (env : option string)
    (email name description : string) (st : state) :
  founding (api, env, email, name, description) st
  = match create_shared_mailbox api email name description st with
    | (Ret mailbox_id, st1) =>
        (Ret (api, env, mailbox_id),
         State (stdin st1)
           (trace st1 ++ [Stdout (MsgCreated mailbox_id);
                          Stdout MsgAssignHeader]))
    | (Raise e, st1) => (Raise e, st1)
    | (OutOfFuel, st1) => (OutOfFuel, st1)
    end.
Proof.
  unfold founding, bind, print, emit, ret.
  destruct (create_shared_mailbox api email name description st)
    as [[mailbox_id|e|] st1]; [|done|done].
  simpl. by rewrite <- app_assoc.
Qed.

Lemma founding_shape (api : Api360) (env : option string)
    (email name description : string) (st : state) :
  let req := create_request api email name description in
  let res := http (trace st) req in
  ∃ b,
    trace (founding (api, env, email, name, description) st).2
    = trace st ++ Http req res :: b ∧
    Forall local b ∧
    match (founding (api, env, email, name, description) st).1 with
    | Ret x =>
        x.1.1 = api ∧ x.1.2 = env ∧
        ∃ r, res = Answer r ∧ status_code r = 200
    | Raise e => fatal e
    | OutOfFuel => False
    end.
Proof.
  intros req res. rewrite founding_run, create_shared_mailbox_run.
  fold req. fold res. cbn [fst snd].
  destruct res as [|r] eqn:Hres; cbn [fst snd].
  { exists []. split; [done|]. split; [done|]. by right. }
  destruct (decide (status_code r = 200)) as [Hok|Hko]; cbn [fst snd].
  2: { exists []. split; [done|]. split; [done|]. by right. }
  destruct (body_of r) as [data|]; cbn [fst snd].
  2: { exists []. split; [done|]. split; [done|]. by right. }
  destruct (json_get_any data Spec.id_fields JNull) as [err|v] eqn:Hget;
    cbn [fst snd].
  { exists []. split; [done|]. split; [done|].
    assert ((∃ m, data = JObj m) ∨ (∀ m, data ≠ JObj m))
      as [[m ->]|Hother] by (destruct data; eauto; by right).
    - by rewrite json_get_any_object in Hget.
    - destruct (json_get_any_other data Spec.id_fields Hother) as [Hg|Hg];
        rewrite Hg in Hget; simplify_eq. by right. }
  destruct (json_truthy v); cbn [fst snd].
  - exists [Stdout (MsgCreated (py_str v)); Stdout MsgAssignHeader].
    cbn [fst snd stdin trace].
    split; [by rewrite <- !app_assoc|]. split; [by repeat constructor|].
    split; [done|]. split; [done|]. by exists r.
  - exists []. split; [done|]. split; [done|]. by right.
Qed.

Lemma creation_shape (st : state) :
  ∃ a,
    Forall local a ∧
    ((trace (creation st).2 = trace st ++ a ∧
      ∃ e, (creation st).1 = Raise e ∧ fatal e)
     ∨ ∃ req res b,
         is_put req ∧
         trace (creation st).2 = trace st ++ a ++ Http req res :: b ∧
         Forall local b ∧
         match (creation st).1 with
         | Ret x =>
             literal_or_none x.1.2 ∧
             ∃ r, res = Answer r ∧ status_code r = 200
         | Raise e => fatal e
         | OutOfFuel => False
         end).
Proof.
  rewrite creation_prelude.
  destruct (prelude_emits local (λ ev Hev, Hev) st) as (a & Htr & Ha & Hres).
  exists a. split; [done|]. unfold bind.
  destruct (prelude st) as [[[[[[api env] email] name] description]|e|] st1];
    cbn [fst snd] in *; [|left; eauto|done].
  destruct Hres as (_ & Henv & _). simpl in Henv.
  destruct (founding_shape api env email name description st1)
    as (b & Htr' & Hb & Hres').
  cbv zeta in Htr', Hres'.
  right. exists (create_request api email name description),
    (http (trace st1) (create_request api email name description)), b.
  split; [done|].
  rewrite Htr'. rewrite Htr in Hres' |- *. rewrite <- app_assoc.
  split; [done|]. split; [done|].
  revert Hres'. destruct (founding _ st1).1 as [x|e|]; [|done|done].
  intros (_ & -> & Hr). done.
Qed.

Lemma preparation_nonempty (env : option string) (st st2 : state)
    (entries : list entry) (global_notify : string) :
  preparation env st = (Ret (entries, global_notify), st2) → entries ≠ [].
Proof.
  unfold preparation, reading.
  intros (path & st1 & _ & Hread)%bind_Ret_inv.
  apply bind_Ret_inv in Hread as (out & st3 & Hparse & Hrest).
  apply bind_Ret_inv in Hrest as (g & st4 & _ & Hret).
  injection Hret as <- _ _.
  rewrite parse_actors_csv_run in Hparse.
  destruct (files !! path) as [lines|]; [|done].
  destruct (Spec.rows lines); [done|]. by injection Hparse as <-.
Qed.

Lemma not_http_calls (evs : list event) :
  Forall (λ ev, ¬ is_http ev) evs → calls evs = [] ∧ puts evs = [].
Proof.
  induction 1 as [|ev evs Hev _ [IHc IHp]]; [done|].
  destruct ev; try (by split; [exact IHc|exact IHp]). by destruct Hev.
Qed.

(** Every run has one of three shapes: it stops before any request; it
    makes the creation request and stops before the assignment loop; or
    the creation is answered with status 200 and the run goes through the
    loop, with at least one assignment, to the totals. *)
Lemma script_shape (st : state) :
  ∃ a,
    Forall local a ∧
    ((emitted script st = a ∧ ∃ e, result script st = Raise e ∧ fatal e)
     ∨ ∃ req res b,
         is_put req ∧ Forall (λ ev, ¬ is_http ev) b ∧
         ((emitted script st = a ++ Http req res :: b ∧
           ∃ e, result script st = Raise e ∧ fatal e)
          ∨ ∃ r evs,
              res = Answer r ∧ status_code r = 200 ∧
              emitted script st
              = a ++ Http req res :: b ++ evs
                  ++ closing (successes evs) (failures evs) ∧
              Forall (λ ev, local ev ∨ is_call ev) evs ∧
              calls evs ≠ [] ∧
              result script st = Ret tt)).
Proof.
  unfold emitted, final, result. rewrite script_main, main_phases.
  destruct (creation_shape st) as (a & Ha & Hshape).
  exists a. split; [done|].
  destruct (creation st) as [[[[api env] mailbox_id]|e|] st1] eqn:Hc;
    cbn [fst snd] in Hshape.
  - destruct Hshape
      as [(_ & e & He & _)
         |(req & res & b & Hput & Htr & Hb & Henv & r & -> & Hok)]; [done|].
    simpl in Henv. right. exists req, (Answer r).
    destruct (preparation_emits (λ ev, ¬ is_http ev) env local_not_http
                (λ _ Hf, Hf) (λ _ Hf, Hf) Henv st1)
      as (evs_p & Htr_p & Hevs_p & Hres_p).
    exists (b ++ evs_p). split; [done|]. split.
    { apply Forall_app. split; [|done].
      eapply Forall_impl; [exact Hb|apply local_not_http]. }
    destruct (preparation env st1) as [[[entries global_notify]|e|] st2]
      eqn:Hp; cbn [fst snd] in Htr_p, Hres_p; [|left|done].
    + right.
      destruct (assign_all_run api mailbox_id global_notify entries 0 0 st2)
        as (evs & Hrun & Hreqs & Hevs).
      assert (phases st
              = (Ret tt,
                 State (stdin st2)
                   (trace st2 ++ evs
                      ++ closing (successes evs) (failures evs)))) as ->.
      { unfold phases. rewrite (bind_run _ _ _ _ _ Hc). cbv beta iota.
        rewrite (bind_run _ _ _ _ _ Hp). cbv beta iota.
        unfold assignment. rewrite (bind_run _ _ _ _ _ Hrun). cbv beta iota.
        unfold bind, print, emit, closing. simpl.
        rewrite <- ?app_assoc. reflexivity. }
      exists r, evs. cbn [fst snd trace]. split_and!; try done.
      * rewrite Htr_p, Htr, <- !app_assoc, drop_app_length. simpl.
        rewrite <- ?app_assoc. reflexivity.
      * eapply Forall_impl; [exact Hevs|].
        intros ev [?|(e & res & _ & ->)]; [by left|by right].
      * intros Hnil. rewrite Hnil in Hreqs.
        apply (preparation_nonempty _ _ _ _ _ Hp). by destruct entries.
    + assert (phases st = (Raise e, st2)) as ->.
      { unfold phases. rewrite (bind_run _ _ _ _ _ Hc). cbv beta iota.
        by apply bind_raise. }
      cbn [fst snd]. rewrite Htr_p, Htr, <- !app_assoc, drop_app_length.
      split; [done|]. exists e. by split.
  - assert (phases st = (Raise e, st1)) as ->
        by (unfold phases; by apply bind_raise).
    cbn [fst snd].
    destruct Hshape
      as [(Htr & e' & [= <-] & Hf)|(req & res & b & Hput & Htr & Hb & Hf)].
    + left. rewrite Htr, drop_app_length. split; [done|]. exists e. by split.
    + right. exists req, res, b. split; [done|]. split.
      { eapply Forall_impl; [exact Hb|apply local_not_http]. }
      left. rewrite Htr, drop_app_length. split; [done|]. exists e. by split.
  - by destruct Hshape as [(_ & e & ? & _)|(? & ? & ? & _ & _ & _ & ?)].
Qed.

Lemma puts_app (evs1 evs2 : list event) :
  puts (evs1 ++ evs2) = puts evs1 ++ puts evs2.
Proof. apply omap_app. Qed.

Lemma local_calls_puts (evs : list event) :
  Forall local evs → calls evs = [] ∧ puts evs = [].
Proof.
  intros Hevs. apply not_http_calls.
  eapply Forall_impl; [exact Hevs|apply local_not_http].
Qed.

Lemma loop_puts (evs : list event) :
  Forall (λ ev, local ev ∨ is_call ev) evs → puts evs = [].
Proof.
  induction 1 as [|ev evs Hev _ IH]; [done|].
  destruct ev as [| | | | |[] ?]; try exact IH.
  by destruct Hev as [[]|[]].
Qed.

(** The exchanges of a run that reaches the creation request. *)
Lemma shape_calls (a b evs : list event) (req : request) (res : http_result) :
  Forall local a → is_put req → Forall (λ ev, ¬ is_http ev) b →
  calls (a ++ Http req res :: b ++ evs) = calls evs ∧
  puts (a ++ Http req res :: b) = [(req, res)].
Proof.
  intros [Hca Hpa]%local_calls_puts Hput [Hcb Hpb]%not_http_calls.
  destruct req as [u h body|]; [|done]. split.
  - rewrite calls_app, Hca. change (calls (b ++ evs) = calls evs).
    by rewrite calls_app, Hcb.
  - rewrite puts_app, Hpa. simpl.
    change (puts (Http (PUT u h body) res :: b))
      with ((PUT u h body, res) :: puts b).
    by rewrite Hpb.
Qed.

(** X16.  A run ends with exit status 1 or 0.  A run that makes no
    SetAccess request ends with status 1.  A run that ends with status 0
    has made at least one SetAccess request, and ends with the three closing
    lines, whose counts of successes and failures add up to the number of
    SetAccess requests.  Nothing is said of what a run that ends with
    status 1 has sent: an interrupt while a SetAccess request is in flight,
    which [send] leaves out, ends a run of the source with status 1 after
    such requests. *)
Theorem exit_status_and_requests (st : state) :
  (exit_status (result script st) = Some 1 ∨
   exit_status (result script st) = Some 0) ∧
  (calls (emitted script st) = [] →
   exit_status (result script st) = Some 1) ∧
  (exit_status (result script st) = Some 0 →
   calls (emitted script st) ≠ [] ∧
   ∃ evs ok fail,
     emitted script st = evs ++ closing ok fail ∧
     ok = successes evs ∧ fail = failures evs ∧
     (ok + fail)%nat = length (calls (emitted script st))).
Proof.
  destruct (script_shape st)
    as (a & Ha & [(-> & e & -> & Hf)
                 |(req & res & b & Hput & Hb
                   & [(-> & e & -> & Hf)
                     |(r & evs & -> & Hok & -> & Hevs & Hcalls & ->)])]).
  - pose proof (fatal_exit_status e Hf) as He.
    split_and!; [by left|done|]. rewrite He. by intros [=].
  - pose proof (fatal_exit_status e Hf) as He.
    split_and!; [by left|done|]. rewrite He. by intros [=].
  - destruct (shape_calls a b evs req (Answer r) Ha Hput Hb) as [Hc _].
    assert (calls (a ++ Http req (Answer r) :: b ++ evs
                     ++ closing (successes evs) (failures evs))
            = calls evs) as Hall.
    { destruct (shape_calls a b
                  (evs ++ closing (successes evs) (failures evs))
                  req (Answer r) Ha Hput Hb) as [-> _].
      rewrite calls_app. apply app_nil_r. }
    rewrite Hall. split_and!; [by right|by intros ?|]. intros _.
    split; [done|].
    exists (a ++ Http req (Answer r) :: b ++ evs),
      (successes evs), (failures evs).
    split_and!.
    + rewrite <- !app_assoc. simpl. by rewrite <- !app_assoc.
    + unfold successes. by rewrite Hc.
    + unfold failures. by rewrite Hc.
    + apply successes_failures.
Qed.

(** X17.  A run makes at most one creation request.  When it makes a
    SetAccess request, the creation request has been made before it, and
    was answered with status 200; nothing but terminal output and prompts
    precedes the creation request. *)
Theorem one_creation_before_assignments (st : state) :
  (length (puts (emitted script st)) ≤ 1)%nat ∧
  (calls (emitted script st) ≠ [] →
   ∃ a req r b,
     emitted script st = a ++ Http req (Answer r) :: b ∧
     is_put req ∧ status_code r = 200 ∧
     Forall local a ∧ puts b = []).
Proof.
  destruct (script_shape st)
    as (a & Ha & [(-> & _)
                 |(req & res & b & Hput & Hb
                   & [(-> & _)
                     |(r & evs & -> & Hok & -> & Hevs & Hcalls & _)])]).
  - destruct (local_calls_puts a Ha) as [-> ->]. split; [simpl; lia|done].
  - destruct (shape_calls a b [] req res Ha Hput Hb) as [Hc ->].
    rewrite app_nil_r in Hc. rewrite Hc. split; [simpl; lia|done].
  - destruct (shape_calls a b [] req (Answer r) Ha Hput Hb) as [_ Hp].
    destruct (not_http_calls b Hb) as [_ Hpb].
    assert (puts (b ++ evs ++ closing (successes evs) (failures evs)) = [])
      as Hrest.
    { rewrite !puts_app, Hpb, (loop_puts evs Hevs). done. }
    split.
    + change (a ++ Http req (Answer r)
                :: b ++ evs ++ closing (successes evs) (failures evs))
        with (a ++ [Http req (Answer r)]
                ++ (b ++ evs ++ closing (successes evs) (failures evs))).
      rewrite (puts_app a), (puts_app [Http req (Answer r)]).
      rewrite Hrest, app_nil_r.
      destruct (local_calls_puts a Ha) as [_ ->].
      destruct req; [simpl; lia|done].
    + intros _.
      by exists a, req, r,
           (b ++ evs ++ closing (successes evs) (failures evs)).
Qed.

Lemma ignored_rows (lines : list string) :
  Forall (λ l, Spec.ignored l = true) lines → Spec.rows lines = [].
Proof.
  induction 1 as [|l lines Hl _ IH]; [done|].
  unfold Spec.rows in *. simpl. unfold Spec.row, Spec.classify.
  by rewrite Hl.
Qed.

(** X18.  The mailbox is created before the actor list is looked at.  When
    the file named at the prompt is missing, or holds nothing but blank
    lines and comments, the run ends with exit status 1 and without any
    SetAccess request, after its creation request was made and answered
    with status 200. *)
Theorem mailbox_created_before_parsing (st st1 : state) (api : Api360)
    (env : option string) (mailbox_id line : string) (rest : list tty_input) :
  creation st = (Ret (api, env, mailbox_id), st1) →
  stdin st1 = Typed line :: rest →
  (∀ lines, files !! answered (Some "actors.csv") line = Some lines →
            Forall (λ l, strip l = "" ∨ startswith "#" (strip l) = true)
              lines) →
  exit_status (result script st) = Some 1 ∧
  calls (emitted script st) = [] ∧
  ∃ req r,
    puts (emitted script st) = [(req, Answer r)] ∧ status_code r = 200.
Proof.
  intros Hc Hin Hfile. set (path := answered (Some "actors.csv") line) in *.
  destruct (creation_shape st) as (a & Ha & Hshape).
  rewrite Hc in Hshape. cbn [fst snd] in Hshape.
  destruct Hshape
    as [(_ & e & He & _)
       |(req & res & b & Hput & Htr & Hb & Henv & r & -> & Hok)]; [done|].
  set (st2 := State rest (trace st1 ++ [Prompt AskActorsPath])).
  assert ((parse_actors_csv path st2).1 = Raise (SystemExit 1)) as Hres.
  { rewrite parse_actors_csv_run.
    destruct (files !! path) as [lines|] eqn:Hlines; [|done].
    rewrite ignored_rows; [done|].
    eapply Forall_impl; [by apply Hfile|].
    intros l [Hl|Hl]; unfold Spec.ignored.
    - by rewrite bool_decide_eq_true_2.
    - rewrite Hl. apply orb_true_r. }
  destruct (parse_actors_csv_emits (λ ev, ¬ is_http ev) path local_not_http
              (λ Hf, Hf) (λ Hf, Hf) st2) as (evs & Htr2 & Hevs & _).
  destruct (parse_actors_csv path st2) as [out st3] eqn:Hparse.
  cbn [fst snd] in Hres, Htr2. subst out.
  assert (script st = (Raise (SystemExit 1), st3)) as Hrun.
  { rewrite script_main, main_phases. unfold phases.
    rewrite (bind_run _ _ _ _ _ Hc). cbv beta iota.
    apply bind_raise. unfold preparation, bind at 1.
    rewrite ask_run, Hin. fold path. fold st2.
    unfold reading. by apply bind_raise. }
  unfold result, emitted, final. rewrite Hrun. cbn [fst snd].
  rewrite Htr2. unfold st2. cbn [trace]. rewrite Htr.
  rewrite <- !app_assoc, drop_app_length.
  assert (Forall (λ ev, ¬ is_http ev) (b ++ [Prompt AskActorsPath] ++ evs))
    as Hb'.
  { apply Forall_app. split.
    - eapply Forall_impl; [exact Hb|apply local_not_http].
    - apply Forall_app. split; [|done]. constructor; [|done]. by intros []. }
  destruct (shape_calls a (b ++ [Prompt AskActorsPath] ++ evs) []
              req (Answer r) Ha Hput Hb') as [Hcalls Hputs].
  rewrite app_nil_r in Hcalls.
  change (a ++ (Http req (Answer r) :: b) ++ [Prompt AskActorsPath] ++ evs)
    with (a ++ Http req (Answer r) :: b ++ [Prompt AskActorsPath] ++ evs).
  split; [done|]. split; [done|]. by exists req, r.
Qed.

(** *** From the input to the requests *)

Lemma addressed_trace (api : Api360) (mailbox_id : string)
    (evs : list event) :
  Forall (addressed api mailbox_id) evs →
  puts evs = [] ∧
  Forall (λ c : request * http_result,
            request_url c.1 = base api +:+ "/mailboxes/set/" +:+ mailbox_id)
    (calls evs).
Proof.
  induction 1 as [|ev evs Hev _ [IHp IHc]]; [done|].
  destruct ev as [| | | | |[u h b|u h p r] res]; try done.
  split; [exact IHp|].
  change (calls (Http (POST u h p r) res :: evs))
    with ((POST u h p r, res) :: calls evs).
  by constructor.
Qed.

Lemma local_addressed (api : Api360) (mailbox_id : string) (ev : event) :
  local ev → addressed api mailbox_id ev.
Proof. by destruct ev. Qed.

(** What follows the creation: the actor list and the loop. *)
Lemma after_creation (api : Api360) (env : option string)
    (mailbox_id : string) :
  literal_or_none env →
  emits (addressed api mailbox_id) fatal
    (bind (preparation env)
       (λ '(entries, global_notify),
          assignment api mailbox_id entries global_notify))
    (λ _, True).
Proof.
  intros Henv.
  eapply emits_bind.
  { apply preparation_emits; [apply local_addressed|done|done|done]. }
  intros [entries global_notify] _.
  apply assignment_emits; [apply local_addressed|]. by intros e res _.
Qed.

Lemma create_shared_mailbox_Ret (api : Api360)
    (email name description id : string) (st st1 : state) :
  create_shared_mailbox api email name description st = (Ret id, st1) →
  ∃ r m v,
    http (trace st) (create_request api email name description) = Answer r ∧
    status_code r = 200 ∧ body_of r = Some (JObj m) ∧
    Spec.first_present m Spec.id_fields = Some v ∧
    json_truthy v = true ∧ id = py_str v.
Proof.
  rewrite create_shared_mailbox_run. cbv zeta.
  destruct (http _ _) as [|r]; [done|].
  destruct (decide (status_code r = 200)) as [Hok|Hko]; [|done].
  destruct (body_of r) as [data|] eqn:Hbody; [|done].
  assert ((∃ m, data = JObj m) ∨ (∀ m, data ≠ JObj m))
    as [[m ->]|Hother] by (destruct data; eauto; by right).
  - rewrite json_get_any_object.
    destruct (Spec.first_present m Spec.id_fields) as [v|] eqn:Hv;
      [cbn [from_option Datatypes.id]|by simpl].
    destruct (json_truthy v) eqn:Htrue; [|done].
    intros [= <- _]. by exists r, m, v.
  - by destruct (json_get_any_other data Spec.id_fields Hother) as [-> | ->].
Qed.

(** A run from the creation request on. *)
Lemma script_after_prelude (st st1 : state) (api : Api360)
    (env : option string) (email name description : string) :
  prelude st = (Ret (api, env, email, name, description), st1) →
  let req := create_request api email name description in
  let res := http (trace st1) req in
  ∃ tail,
    trace (script st).2 = trace st1 ++ Http req res :: tail ∧
    match (create_shared_mailbox api email name description st1).1 with
    | Ret id =>
        ∃ evs, tail = Stdout (MsgCreated id) :: Stdout MsgAssignHeader :: evs ∧
               Forall (addressed api id) evs
    | Raise e => tail = [] ∧ (script st).1 = Raise e
    | OutOfFuel => False
    end.
Proof.
  intros Hp req res.
  destruct (prelude_emits local (λ ev Hev, Hev) st) as (a & _ & _ & Hres).
  rewrite Hp in Hres. cbn [fst snd] in Hres. destruct Hres as (_ & Henv & _).
  simpl in Henv.
  assert (creation st = founding (api, env, email, name, description) st1)
    as Hc by (rewrite creation_prelude; by apply bind_run).
  rewrite founding_run in Hc.
  pose proof (create_shared_mailbox_run api email name description st1)
    as Hrun.
  cbv zeta in Hrun. fold req in Hrun. fold res in Hrun.
  apply (f_equal snd) in Hrun. cbn [snd] in Hrun.
  rewrite script_main, main_phases. unfold phases.
  destruct (create_shared_mailbox api email name description st1)
    as [[id|e|] st2] eqn:Hcreate; cbn [fst snd] in *; subst st2.
  - rewrite (bind_run _ _ _ _ _ Hc). cbv beta iota.
    destruct (after_creation api env id Henv
                (State (stdin st1)
                   ((trace st1 ++ [Http req res])
                      ++ [Stdout (MsgCreated id); Stdout MsgAssignHeader])))
      as (evs & Htr & Hevs & _).
    cbn [stdin trace] in Htr |- *. rewrite Htr.
    eexists. split; [|by exists evs].
    by rewrite <- !app_assoc.
  - rewrite (bind_raise _ _ _ _ _ Hc). cbn [fst snd trace].
    by exists [].
  - exfalso. pose proof (create_shared_mailbox_emits (λ _, True) api email
                           name description (λ _, I) st1) as (? & _ & _ & Hno).
    by rewrite Hcreate in Hno.
Qed.

(** X20.  The address, the name and the description sent in the creation
    request are the three lines typed at the prompts, trimmed: with the
    credentials set, an address that holds an at sign and a name that is not
    blank, the run makes exactly one creation request, to the organization
    of the environment and with these three values as its body. *)
Theorem creation_request_from_input (st : state)
    (email name description : string) (rest : list tty_input) :
  env_token ≠ "" → env_org_id ≠ "" →
  stdin st = Typed email :: Typed name :: Typed description :: rest →
  contains "@" (strip email) = true → strip name ≠ "" →
  ∃ res,
    puts (emitted script st)
    = [(PUT ("https://api360.yandex.net/admin/v1/org/" +:+ env_org_id
               +:+ "/mailboxes/shared")
          (hdrs (Api360_init env_token env_org_id))
          {[ "email" := strip email; "name" := strip name;
             "description" := strip description ]}, res)].
Proof.
  intros Ht Ho Hin Hemail Hname.
  pose proof (prelude_typed st email name description rest Ht Ho Hin) as Hp.
  cbv zeta in Hp. rewrite Hemail in Hp. apply nonempty_true in Hname.
  rewrite Hname in Hp. cbn [negb] in Hp.
  destruct (script_after_prelude _ _ _ _ _ _ _ Hp) as (tail & Htr & Htail).
  cbv zeta in Htr, Htail. cbn [trace] in Htr.
  set (asked := env_warning ++ [Stdout MsgCreateHeader; Prompt AskEmail;
                                Prompt AskName; Prompt AskDescription]) in *.
  set (req := create_request env_api (strip email) (strip name)
                (strip description)) in *.
  exists (http (trace st ++ asked) req).
  unfold emitted, final. rewrite Htr, <- app_assoc, drop_app_length.
  assert (puts asked = []) as Hasked.
  { apply local_calls_puts. apply Forall_app. split;
      [apply env_warning_local|by repeat constructor]. }
  assert (puts tail = []) as Hnone.
  { destruct (create_shared_mailbox _ _ _ _ _).1 as [id|e|].
    - destruct Htail as (evs & -> & Hevs).
      by apply addressed_trace in Hevs as [Hputs _].
    - by destruct Htail as [-> _].
    - done. }
  rewrite puts_app, Hasked.
  change (puts (Http req (http (trace st ++ asked) req) :: tail))
    with ((req, http (trace st ++ asked) req) :: puts tail).
  rewrite Hnone. unfold req, create_request, env_api. simpl.
  by rewrite append_assoc.
Qed.

(** X21.  Every SetAccess request of a run goes to the mailbox the creation
    answered with: when a run makes a SetAccess request, its one creation
    request was answered with status 200 and an object whose first present
    id field holds a true value; the string of that value is the id printed
    after the creation and the last part of the URL of every SetAccess
    request of the run. *)
Theorem assignments_use_created_id (st : state) :
  calls (emitted script st) ≠ [] →
  ∃ req r m v,
    puts (emitted script st) = [(req, Answer r)] ∧
    status_code r = 200 ∧ body_of r = Some (JObj m) ∧
    Spec.first_present m Spec.id_fields = Some v ∧ json_truthy v = true ∧
    Stdout (MsgCreated (py_str v)) ∈ emitted script st ∧
    Forall (λ c : request * http_result,
              request_url c.1
              = "https://api360.yandex.net/admin/v1/org/" +:+ env_org_id
                  +:+ "/mailboxes/set/" +:+ py_str v)
      (calls (emitted script st)).
Proof.
  intros Hcalls.
  destruct (prelude_emits local (λ ev Hev, Hev) st) as (a & Htr & Ha & Hres).
  pose proof (local_calls_puts a Ha) as [Hca Hpa].
  destruct (prelude st) as [[[[[[api env] email] name] description]|e|] st1]
    eqn:Hp; cbn [fst snd] in Htr, Hres; [| |done].
  2: { exfalso. apply Hcalls. unfold emitted, final.
       rewrite script_main, main_phases. unfold phases.
       assert (creation st = (Raise e, st1)) as Hc
         by (rewrite creation_prelude; by apply bind_raise).
       rewrite (bind_raise _ _ _ _ _ Hc). cbn [snd].
       by rewrite Htr, drop_app_length. }
  destruct Hres as (Hapi & _). simpl in Hapi. subst api.
  destruct (script_after_prelude _ _ _ _ _ _ _ Hp) as (tail & Htr' & Htail).
  cbv zeta in Htr', Htail.
  set (req := create_request env_api email name description) in *.
  assert (emitted script st = a ++ Http req (http (trace st1) req) :: tail)
    as Hevents.
  { unfold emitted, final. by rewrite Htr', Htr, <- app_assoc,
      drop_app_length. }
  rewrite Hevents in Hcalls |- *.
  destruct (create_shared_mailbox env_api email name description st1)
    as [[id|e|] st2] eqn:Hcreate; cbn [fst] in Htail.
  3: done.
  2: { destruct Htail as [-> _]. exfalso. apply Hcalls.
       by rewrite calls_app, Hca. }
  destruct Htail as (evs & -> & Hevs).
  apply create_shared_mailbox_Ret in Hcreate
    as (r & m & v & Hres & Hok & Hbody & Hv & Htrue & ->).
  fold req in Hres. rewrite Hres.
  apply addressed_trace in Hevs as [Hputs Hurls].
  exists req, r, m, v. split_and!; try done.
  - rewrite puts_app, Hpa. simpl.
    change (puts (Http req (Answer r) :: Stdout (MsgCreated (py_str v))
                    :: Stdout MsgAssignHeader :: evs))
      with ((req, Answer r) :: puts evs).
    by rewrite Hputs.
  - rewrite elem_of_app. right. do 1 apply list_elem_of_further.
    apply list_elem_of_here.
  - rewrite calls_app, Hca. simpl.
    change (calls (Http req (Answer r) :: Stdout (MsgCreated (py_str v))
                     :: Stdout MsgAssignHeader :: evs))
      with (calls evs).
    eapply Forall_impl; [exact Hurls|]. intros c ->.
    unfold env_api. simpl. by rewrite !append_assoc.
Qed.

(** *** A refused creation *)

Lemma create_shared_mailbox_Raise (api : Api360)
    (email name description : string) (e : exn) (st st1 : state) :
  create_shared_mailbox api email name description st = (Raise e, st1) →
  is_Exception e = true ∧
  ∀ r, http (trace st) (create_request api email name description) = Answer r →
       status_code r ≠ 200 →
       e = RuntimeError (CreateFailed (status_code r) (text r)).
Proof.
  intros Hrun.
  pose proof (create_shared_mailbox_emits (λ _, True) api email name
                description (λ _, I) st) as (evs & _ & _ & Hres).
  rewrite Hrun in Hres. cbn [fst] in Hres. split.
  - destruct Hres as [->|He]; [|done].
    rewrite create_shared_mailbox_run in Hrun. cbv zeta in Hrun.
    apply (f_equal fst) in Hrun. cbn [fst] in Hrun.
    destruct (http _ _) as [|r]; [done|].
    destruct (decide _); [|done].
    destruct (body_of r) as [data|]; [|done].
    destruct (json_get_any _ _ _) as [err|v] eqn:Hget.
    + assert ((∃ m, data = JObj m) ∨ (∀ m, data ≠ JObj m))
        as [[m ->]|Hother] by (destruct data; eauto; by right).
      * by rewrite json_get_any_object in Hget.
      * destruct (json_get_any_other data Spec.id_fields Hother) as [Hg|Hg];
          rewrite Hg in Hget; by simplify_eq.
    + by destruct (json_truthy v).
  - intros r Hr Hko. rewrite create_shared_mailbox_run in Hrun.
    cbv zeta in Hrun. rewrite Hr, decide_False in Hrun by done.
    by injection Hrun as <- _.
Qed.

(** C7.  No assignment after failed creation.  In every run in which the
    mailbox-creation request is answered with a status other than 200 (or
    is not answered at all), whatever the server would answer to other
    requests, the session ends fatally, with exit status 1 and the
    diagnostic of the creation, and no SetAccess request is ever made: the
    creation request is the last thing the run does. *)
Theorem no_assignment_after_failed_creation (st : state) (req : request)
    (res : http_result) :
  (req, res) ∈ puts (emitted script st) →
  (∀ r, res = Answer r → status_code r ≠ 200) →
  calls (emitted script st) = [] ∧
  (∃ e, result script st = Raise e ∧ fatal e) ∧
  exit_status (result script st) = Some 1 ∧
  (∀ r, res = Answer r →
     result script st
     = Raise (RuntimeError (CreateFailed (status_code r) (text r)))) ∧
  ∃ a, emitted script st = a ++ [Http req res] ∧ Forall local a.
Proof.
  intros Hin Hko.
  destruct (prelude_emits local (λ ev Hev, Hev) st) as (a & Htr & Ha & Hres).
  pose proof (local_calls_puts a Ha) as [Hca Hpa].
  destruct (prelude st) as [[[[[[api env] email] name] description]|e|] st1]
    eqn:Hp; cbn [fst snd] in Htr, Hres; [| |done].
  2: { exfalso. revert Hin. unfold emitted, final.
       rewrite script_main, main_phases. unfold phases.
       assert (creation st = (Raise e, st1)) as Hc
         by (rewrite creation_prelude; by apply bind_raise).
       rewrite (bind_raise _ _ _ _ _ Hc). cbn [snd].
       rewrite Htr, drop_app_length, Hpa. apply not_elem_of_nil. }
  destruct (script_after_prelude _ _ _ _ _ _ _ Hp) as (tail & Htr' & Htail).
  cbv zeta in Htr', Htail.
  set (req0 := create_request api email name description) in *.
  set (res0 := http (trace st1) req0) in *.
  assert (emitted script st = a ++ Http req0 res0 :: tail) as Hevents.
  { unfold emitted, final. by rewrite Htr', Htr, <- app_assoc,
      drop_app_length. }
  rewrite Hevents in Hin |- *.
  rewrite puts_app, Hpa in Hin.
  change (puts (Http req0 res0 :: tail)) with ((req0, res0) :: puts tail)
    in Hin.
  destruct (create_shared_mailbox api email name description st1)
    as [[id|e|] st2] eqn:Hcreate; cbn [fst] in Htail; [| |done].
  - exfalso. destruct Htail as (evs & -> & Hevs).
    apply addressed_trace in Hevs as [Hputs _].
    change (puts (Stdout (MsgCreated id) :: Stdout MsgAssignHeader :: evs))
      with (puts evs) in Hin.
    rewrite Hputs in Hin. apply list_elem_of_singleton in Hin.
    injection Hin as -> ->.
    apply create_shared_mailbox_Ret in Hcreate
      as (r & m & v & Hr & Hok & _).
    fold req0 in Hr. fold res0 in Hr. by apply (Hko r).
  - destruct Htail as [-> Hraise].
    apply list_elem_of_singleton in Hin. injection Hin as -> ->.
    apply create_shared_mailbox_Raise in Hcreate as [He Hdiag].
    fold req0 in Hdiag. fold res0 in Hdiag.
    unfold result. rewrite Hraise. split_and!.
    + by rewrite calls_app, Hca.
    + exists e. split; [done|by right].
    + apply fatal_exit_status. by right.
    + intros r Hr. rewrite (Hdiag r Hr); [done|by apply Hko].
    + by exists a.
Qed.

(** *** The session default in a run *)

Lemma literal_nonempty (n : string) : n ∈ VALID_NOTIFY → nonempty n = true.
Proof.
  intros Hn. apply nonempty_true. intros ->. revert Hn.
  unfold VALID_NOTIFY. set_solver.
Qed.

Lemma creation_configured (st st1 : state) (api : Api360)
    (env : option string) (mailbox_id : string) :
  creation st = (Ret (api, env, mailbox_id), st1) →
  api = env_api ∧ env = env_configured ∧
  ∃ pre, trace st1 = trace st ++ pre ∧ calls pre = [].
Proof.
  intros Hc. split_and!.
  - unfold creation in Hc.
    apply bind_Ret_inv in Hc as ([[t o] n] & st' & Hload & Hc).
    rewrite load_env_run in Hload.
    repeat case_decide; simplify_eq.
    all: repeat (apply bind_Ret_inv in Hc as (? & ? & _ & Hc)).
    all: by injection Hc as <- _ _ _.
  - unfold creation in Hc.
    apply bind_Ret_inv in Hc as ([[t o] n] & st' & Hload & Hc).
    rewrite load_env_run in Hload. unfold env_configured.
    repeat case_decide; simplify_eq.
    all: repeat (apply bind_Ret_inv in Hc as (? & ? & _ & Hc)).
    all: injection Hc as _ <- _ _; try done.
    all: naive_solver.
  - destruct (creation_shape st) as (a & Ha & Hshape).
    rewrite Hc in Hshape. cbn [fst snd] in Hshape.
    destruct Hshape
      as [(_ & e & He & _)|(req & res & b & Hput & Htr & Hb & _)]; [done|].
    exists (a ++ Http req res :: b). split; [done|].
    assert (Forall (λ ev, ¬ is_http ev) b) as Hb'
      by (eapply Forall_impl; [exact Hb|apply local_not_http]).
    destruct (shape_calls a b [] req res Ha Hput Hb') as [Hcalls _].
    by rewrite app_nil_r in Hcalls.
Qed.

Lemma preparation_steps (env : option string) (st1 st2 : state)
    (entries : list entry) (global_notify : string) :
  literal_or_none env →
  preparation env st1 = (Ret (entries, global_notify), st2) →
  (∃ path stp stq,
     ask AskActorsPath (Some "actors.csv") st1 = (Ret path, stp) ∧
     parse_actors_csv path stp = (Ret entries, stq) ∧
     resolve_global_notify env stq = (Ret global_notify, st2)) ∧
  Forall (λ e : entry, literal_or_none e.2) entries ∧
  global_notify ∈ VALID_NOTIFY ∧
  ∃ evs, trace st2 = trace st1 ++ evs ∧ calls evs = [].
Proof.
  intros Henv Hprep.
  destruct (preparation_emits (λ ev, ¬ is_http ev) env local_not_http
              (λ _ Hf, Hf) (λ _ Hf, Hf) Henv st1)
    as (evs & Htr & Hevs & Hres).
  rewrite Hprep in Htr, Hres. cbn [fst snd] in Htr, Hres.
  destruct Hres as [Hentries Hglobal]. split_and!; try done.
  - unfold preparation, reading in Hprep.
    apply bind_Ret_inv in Hprep as (path & stp & Hask & Hprep).
    apply bind_Ret_inv in Hprep as (out & stq & Hparse & Hprep).
    apply bind_Ret_inv in Hprep as (g & st3 & Hresolve & Hret).
    injection Hret as -> -> ->. by exists path, stp, stq.
  - exists evs. split; [done|]. by apply not_http_calls in Hevs as [? _].
Qed.

(** The assignment loop of a run that has a mailbox and an actor list. *)
Lemma script_calls (st st1 st2 : state) (api : Api360) (env : option string)
    (mailbox_id global_notify : string) (entries : list entry) :
  creation st = (Ret (api, env, mailbox_id), st1) →
  preparation env st1 = (Ret (entries, global_notify), st2) →
  (calls (emitted script st)).*1
  = sent_request api mailbox_id global_notify <$> entries.
Proof.
  intros Hc Hprep.
  destruct (creation_configured _ _ _ _ _ Hc)
    as (_ & -> & pre & Htr1 & Hpre).
  destruct (preparation_steps _ _ _ _ _ env_configured_literal Hprep)
    as (_ & _ & _ & evs_p & Htr2 & Hevs_p).
  destruct (assign_all_run api mailbox_id global_notify entries 0 0 st2)
    as (evs & Hrun & Hreqs & _).
  assert (script st
          = (Ret tt,
             State (stdin st2)
               (trace st2 ++ evs
                  ++ closing (successes evs) (failures evs)))) as Hscript.
  { rewrite script_main, main_phases. unfold phases, bind at 1.
    rewrite Hc. unfold bind at 1. rewrite Hprep.
    unfold assignment, bind at 1. rewrite Hrun.
    unfold bind, print, emit, closing. simpl. by rewrite <- !app_assoc. }
  unfold emitted, final. rewrite Hscript. cbn [snd trace].
  rewrite Htr2, Htr1, <- !app_assoc, drop_app_length.
  rewrite !calls_app, Hpre, Hevs_p. simpl. by rewrite app_nil_r.
Qed.

(** C4.  Notification resolution.  The notify value sent with the
    SetAccess request of an assignment is the row-level override when one is
    present and the session default otherwise.  The session default is the
    configured value when there is one; otherwise the user is prompted again
    after every invalid line, and the first valid line, read
    case-insensitively and with an empty line standing for all, is
    returned.  In every run, the notify value of every SetAccess request is
    one of all, delegates, none.  In a run that gets as far as the
    assignments, the session default is what [resolve_global_notify]
    returns for the value kept from the configuration, in the state the
    parser leaves; it is the configured value when one is kept; and the
    SetAccess requests of the run are, row by row, the requests that carry
    the override of the row when it has one and this default otherwise. *)
Theorem notify_resolution :
  (∀ api mailbox_id global_notify e tally st,
     ∃ res,
       calls (emitted (assign_one api mailbox_id global_notify e tally) st)
       = [(sent_request api mailbox_id global_notify e, res)] ∧
     ∃ url headers params roles,
       sent_request api mailbox_id global_notify e
       = POST url headers params roles ∧
       (∀ o, e.2 = Some o → o ≠ "" → params !! "notify" = Some o) ∧
       (e.2 = None → params !! "notify" = Some global_notify)) ∧
  (∀ n st, n ≠ "" → resolve_global_notify (Some n) st = (Ret n, st)) ∧
  (∀ bad good rest tr,
     Forall (λ l, lower (answered (Some "all") l) ∉ VALID_NOTIFY) bad →
     lower (answered (Some "all") good) ∈ VALID_NOTIFY →
     let st := State ((Typed <$> bad) ++ Typed good :: rest) tr in
     result (resolve_global_notify None) st
     = Ret (lower (answered (Some "all") good)) ∧
     stdin (final (resolve_global_notify None) st) = rest ∧
     prompts (emitted (resolve_global_notify None) st)
     = replicate (S (length bad)) AskNotify) ∧
  (∀ line, strip line = "" → lower (answered (Some "all") line) = "all") ∧
  (∀ st, Forall notify_valid (emitted script st) ∧
         result script st ≠ OutOfFuel) ∧
  (∀ st api env mailbox_id st1 entries global_notify st2,
     creation st = (Ret (api, env, mailbox_id), st1) →
     preparation env st1 = (Ret (entries, global_notify), st2) →
     env = env_configured ∧
     (∃ path stp stq,
        ask AskActorsPath (Some "actors.csv") st1 = (Ret path, stp) ∧
        parse_actors_csv path stp = (Ret entries, stq) ∧
        resolve_global_notify env_configured stq
        = (Ret global_notify, st2)) ∧
     (∀ n, env_configured = Some n → global_notify = n) ∧
     global_notify ∈ VALID_NOTIFY ∧
     (calls (emitted script st)).*1
     = (λ e : entry,
          POST (base api +:+ "/mailboxes/set/" +:+ mailbox_id) (hdrs api)
            {[ "actorId" := e.1.1;
               "notify" := match e.2 with
                           | Some override => override
                           | None => global_notify
                           end ]}
            (Spec.normalized e.1.2)) <$> entries).
Proof.
  split; [|split; [|split; [|split; [|split]]]].
  - intros api mailbox_id global_notify e tally st.
    rewrite assign_one_emitted.
    fold (turn_events api mailbox_id global_notify e (trace st)).
    rewrite turn_events_calls. eexists. split; [done|].
    eexists _, _, _, _. split; [done|].
    rewrite lookup_insert_ne by done. rewrite lookup_singleton_eq.
    split.
    + intros o -> Ho. simpl. by rewrite (proj2 (nonempty_true o) Ho).
    + by intros ->.
  - intros n st Hn. unfold resolve_global_notify. simpl.
    by rewrite (proj2 (nonempty_true n) Hn).
  - intros bad good rest tr Hbad Hgood st.
    assert (resolve_global_notify None st
            = (Ret (lower (answered (Some "all") good)),
               State rest
                 (tr ++ [Stdout MsgNotifyHelp; Stdout MsgNotifyValues]
                     ++ (bad ≫= λ _, [Prompt AskNotify;
                                      Stdout MsgNotifyInvalid])
                     ++ [Prompt AskNotify]))) as Hrun.
    { subst st. unfold resolve_global_notify, bind, print, emit.
      cbn [truthy stdin trace].
      rewrite notify_loop_reads; [|done|done|].
      - by rewrite <- !app_assoc.
      - rewrite length_app, length_fmap. simpl. lia. }
    unfold result, final. rewrite Hrun. split; [done|]. split; [done|].
    erewrite emitted_app; [|by rewrite Hrun].
    clear. induction bad as [|l bad IH]; [done|].
    change (prompts
              ([Stdout MsgNotifyHelp; Stdout MsgNotifyValues]
               ++ (bad ≫= λ _, [Prompt AskNotify; Stdout MsgNotifyInvalid])
               ++ [Prompt AskNotify])
            = replicate (S (length bad)) AskNotify) in IH.
    simpl. f_equal. exact IH.
  - intros line Hline. unfold answered. by rewrite decide_True.
  - intros st. destruct (main_emits st) as (evs & Htr & Hevs & Hres).
    unfold emitted, final, result. rewrite script_main.
    rewrite Htr, drop_app_length. split; [done|].
    by destruct (main st).1.
  - intros st api env mailbox_id st1 entries global_notify st2 Hc Hprep.
    destruct (creation_configured _ _ _ _ _ Hc) as (_ & Henv & _).
    subst env.
    destruct (preparation_steps _ _ _ _ _ env_configured_literal Hprep)
      as (Hsteps & Hentries & Hglobal & _).
    split_and!; try done.
    + intros n Hn. destruct Hsteps as (path & stp & stq & _ & _ & Hresolve).
      pose proof env_configured_literal as Hlit.
      rewrite Hn in Hresolve, Hlit. simpl in Hlit.
      unfold resolve_global_notify in Hresolve. cbn [truthy] in Hresolve.
      rewrite (literal_nonempty n Hlit) in Hresolve. by injection Hresolve as ->.
    + rewrite (script_calls _ _ _ _ _ _ _ _ Hc Hprep).
      apply Forall_fmap_ext_1.
      eapply Forall_impl; [exact Hentries|].
      intros [[actor roles] [o|]] Ho; [|done].
      unfold sent_request, or_else. cbn [fst snd] in *.
      by rewrite (literal_nonempty o Ho).
Qed.

End MoreSession.

(** ** The properties on sample runs *)

Section Samples.

Ltac by_compute := vm_compute; first [reflexivity | done].
Ltac by_decide :=
  match goal with
  | |- ?P => apply (@bool_decide_unpack P _); vm_compute; exact I
  end.

Local Abbreviation api := sample_api.
Local Abbreviation created := sample_created.
Local Abbreviation prepared := sample_prepared.

(** The embedding on concrete inputs. *)

Example strip_sample :
  strip (String "009" " user1 , x " +:+ String "013" (String "010" ""))
  = "user1 , x".
Proof. reflexivity. Qed.

Example lower_sample : lower "DeleGates" = "delegates".
Proof. reflexivity. Qed.

Example split_sample : split "," "a,,b," = ["a"; ""; "b"; ""].
Proof. reflexivity. Qed.

Example dedup_sample : dedup ["b"; "a"; "b"; "c"; "a"] = ["b"; "a"; "c"].
Proof. by vm_compute. Qed.

Example json_get_any_sample :
  json_get_any (JObj {[ "id" := JStr ""; "resourceId" := JStr "r1" ]})
    Spec.id_fields JNull
  = inr (JStr "r1").
Proof. by vm_compute. Qed.

Example parse_sample :
  result (@parse_actors_csv sample_platform "actors.csv") sample_input
  = Ret sample_rows.
Proof. by vm_compute. Qed.

(** Three actors, the assignment of the second one refused: two successes,
    one failure, exit status 0. *)
Example script_sample :
  printed_totals (trace (final (@script sample_platform) sample_input))
  = [(2, 1)%nat] ∧
  exit_status (result (@script sample_platform) sample_input) = Some 0.
Proof. by vm_compute. Qed.

(** An empty list of actors is fatal before any assignment. *)
Example script_no_rows :
  let P : Platform :=
    {| py_str := sample_str;
       environ := {[ "TOKEN" := "t0k"; "ORG_ID" := "42" ]};
       files := {[ "actors.csv" := ["# nothing"; ""] ]};
       http := sample_server |} in
  exit_status (result (@script P) sample_input) = Some 1 ∧
  calls (trace (final (@script P) sample_input)) = [].
Proof. by vm_compute. Qed.

Lemma ensure_roles_valid_normalizes_witness :
  result (ensure_roles_valid ["reader"; "editor"; "reader"]) sample_input
  = Ret ["reader"; "editor"; "shared_mailbox_sender"] ∧
  result (ensure_roles_valid ["reader"; "shared_mailbox_owner"]) sample_input
  = Ret ["shared_mailbox_owner"] ∧
  result (ensure_roles_valid ["shared_mailbox_sender"; "reader"; "reader"])
    sample_input
  = Ret ["shared_mailbox_sender"; "reader"].
Proof.
  split; [|split].
  - destruct (ensure_roles_valid_normalizes
                ["reader"; "editor"; "reader"] sample_input)
      as (_ & Hneither & _).
    destruct Hneither as (-> & _); [by_decide..|reflexivity].
  - destruct (ensure_roles_valid_normalizes
                ["reader"; "shared_mailbox_owner"] sample_input)
      as (Howner & _).
    apply Howner. by_decide.
  - destruct (ensure_roles_valid_normalizes
                ["shared_mailbox_sender"; "reader"; "reader"] sample_input)
      as (_ & _ & Hsender).
    rewrite Hsender; [reflexivity|by_decide..].
Defined.

Lemma parse_actors_csv_rows_witness :
  sample_rows = omap Spec.row sample_lines.
Proof.
  refine (proj1 (parse_actors_csv_rows (H:=sample_platform) "actors.csv"
                   sample_lines sample_rows sample_input _ _)); by_compute.
Defined.

Lemma parse_actors_csv_tolerant_witness :
  Stdout (MsgSkipColumns 4)
    ∈ emitted (@parse_actors_csv sample_platform "actors.csv") sample_input ∧
  Stdout (MsgSkipNoRoles 7)
    ∈ emitted (@parse_actors_csv sample_platform "actors.csv") sample_input ∧
  result (@parse_actors_csv sample_platform "actors.csv") sample_input
  = Ret (Spec.rows sample_lines).
Proof.
  destruct (parse_actors_csv_tolerant (H:=sample_platform) "actors.csv"
              sample_lines sample_input) as (Hskip & _ & _ & Hret);
    [by_compute|].
  split; [|split].
  - destruct (Hskip (take 3 sample_lines) "badrow" (drop 4 sample_lines))
      as [Hshort _]; [by_compute..|].
    apply Hshort. vm_compute. lia.
  - destruct (Hskip (take 6 sample_lines) "user4,all" [])
      as [_ Hnone]; [by_compute..|].
    apply (Hnone "user4" ["all"] "all"); first [by_compute | by_decide].
  - apply Hret. by_compute.
Defined.

Lemma notify_resolution_witness :
  result (resolve_global_notify None)
    (State [Typed "bogus"; Typed " Delegates "] [])
  = Ret "delegates" ∧
  notify_of <$> (calls (emitted (@script configured_platform)
                          sample_input)).*1
  = [Some "delegates"; Some "none"; Some "delegates"].
Proof.
  destruct (notify_resolution (H:=configured_platform))
    as (_ & _ & Hloop & _ & _ & Hrun).
  split.
  - destruct (Hloop ["bogus"] " Delegates " [] []) as (Hres & _).
    + constructor; [by_decide|constructor].
    + by_decide.
    + exact Hres.
  - destruct (Hrun sample_input api (Some "delegates") "mbx-1"
                (final (@creation configured_platform) sample_input)
                sample_rows "delegates"
                (final (@preparation configured_platform (Some "delegates"))
                   (final (@creation configured_platform) sample_input)))
      as (_ & _ & _ & _ & Hcalls); [by_compute..|].
    rewrite Hcalls. reflexivity.
Defined.

Lemma assignment_tally_witness :
  result (@script sample_platform) sample_input = Ret tt ∧
  exit_status (result (@script sample_platform) sample_input) = Some 0.
Proof.
  destruct (assignment_tally (H:=sample_platform) api "mbx-1" "delegates"
              sample_rows) as [_ Hrun].
  destruct (Hrun sample_input None created prepared) as (Hres & Hexit & _);
    [by_compute..|].
  by split.
Defined.

Lemma create_shared_mailbox_contract_witness :
  result (@create_shared_mailbox sample_platform api "box@example.org" "Box"
            "shared box") sample_input
  = Ret "mbx-1" ∧
  result (@create_shared_mailbox zero_id_platform api "box@example.org" "Box"
            "shared box") sample_input
  = Raise (RuntimeError (NoMailboxId (JObj zero_id_body))) ∧
  result (@create_shared_mailbox refusing_platform api "box@example.org"
            "Box" "shared box") sample_input
  = Raise (RuntimeError (CreateFailed 403 "forbidden")).
Proof.
  split; [|split].
  - pose proof (create_shared_mailbox_contract (H:=sample_platform) api
                  "box@example.org" "Box" "shared box" sample_input) as Hc.
    cbv zeta in Hc. destruct Hc as (Hiff & _).
    apply Hiff.
    exists (Response 200 "{}" "{}"
              (Some (JObj {[ "resourceId" := JStr "mbx-1" ]}))),
      {[ "resourceId" := JStr "mbx-1" ]}, (JStr "mbx-1").
    repeat split; by_compute.
  - pose proof (create_shared_mailbox_contract (H:=zero_id_platform) api
                  "box@example.org" "Box" "shared box" sample_input) as Hc.
    cbv zeta in Hc. destruct Hc as (_ & _ & Hnone).
    apply (Hnone zero_id_response zero_id_body); [by_compute..|].
    right. exists (JInt 0). split; by_compute.
  - pose proof (create_shared_mailbox_contract (H:=refusing_platform) api
                  "box@example.org" "Box" "shared box" sample_input) as Hc.
    cbv zeta in Hc. destruct Hc as (_ & Hrefused & _).
    apply (Hrefused (Response 403 "forbidden" "forbidden" None));
      by_compute.
Defined.

Lemma no_assignment_after_failed_creation_witness :
  calls (emitted (@script selective_platform) sample_input) = [] ∧
  exit_status (result (@script selective_platform) sample_input) = Some 1 ∧
  result (@script selective_platform) sample_input
  = Raise (RuntimeError (CreateFailed 403 "forbidden")).
Proof.
  destruct (no_assignment_after_failed_creation (H:=selective_platform)
              sample_input
              (create_request api "box@example.org" "Box" "shared box")
              (Answer (Response 403 "forbidden" "forbidden" None)))
    as (Hcalls & _ & Hexit & Hdiag & _).
  - assert (puts (emitted (@script selective_platform) sample_input)
            = [(create_request api "box@example.org" "Box" "shared box",
                Answer (Response 403 "forbidden" "forbidden" None))])
      as -> by by_compute.
    apply list_elem_of_here.
  - intros r [= <-]. by_compute.
  - split; [exact Hcalls|]. split; [exact Hexit|].
    exact (Hdiag _ eq_refl).
Defined.

Lemma default_actors_path_witness :
  probed (emitted (@script sample_platform) sample_input) = ["actors.csv"].
Proof.
  refine (proj2 (proj2 (default_actors_path (H:=sample_platform)
                          sample_input api None "mbx-1" created ""
                          [Typed "bogus"; Typed " Delegates "] _ _ _)));
    by_compute.
Defined.

Lemma parse_actors_csv_deterministic_witness :
  result (@parse_actors_csv sample_platform "actors.csv") sample_input
  = result (@parse_actors_csv refusing_platform "actors.csv") (State [] []).
Proof.
  refine (proj1 (parse_actors_csv_deterministic sample_platform
                   refusing_platform "actors.csv" sample_input (State [] [])
                   _)).
  by_compute.
Defined.

Lemma ensure_roles_valid_idempotent_witness :
  ∃ url headers params res,
    Http (POST url headers params ["reader"; "editor"; "shared_mailbox_sender"])
      res
    ∈ emitted (@assign_one sample_platform api "mbx-1" "all"
                 ("user3", ["reader"; "reader"; "editor"], None) (0, 0)%nat)
        sample_input.
Proof.
  destruct (ensure_roles_valid_idempotent (H:=sample_platform)
              ["reader"; "reader"; "editor"] sample_input sample_input)
    as [_ Hshown].
  destruct (Hshown api "mbx-1" "all" "user3" None (0, 0)%nat "user3"
              ["reader"; "editor"; "shared_mailbox_sender"] "all")
    as [_ Hsent].
  - apply (list_elem_of_lookup_2 _ 3). by_compute.
  - exact Hsent.
Defined.

End Samples.

(** ** The further properties on sample runs *)

Section MoreSamples.

Ltac by_compute := vm_compute; first [reflexivity | done].
Ltac by_decide :=
  match goal with
  | |- ?P => apply (@bool_decide_unpack P _); vm_compute; exact I
  end.

Lemma dedup_fixpoint_witness :
  dedup ["reader"; "editor"] = ["reader"; "editor"].
Proof.
  apply (proj1 (dedup_fixpoint ["reader"; "editor"])). by_decide.
Defined.

Lemma ensure_roles_valid_invariant_witness :
  ∃ out, result (ensure_roles_valid []) sample_input = Ret out ∧ out ≠ [].
Proof.
  destruct (ensure_roles_valid_invariant [] sample_input)
    as (out & Hrun & Hne & _).
  by exists out.
Defined.

Lemma json_get_any_not_object_witness :
  json_get_any JNull Spec.id_fields JNull = inl TypeError ∧
  json_get_any (JStr "width") Spec.id_fields JNull = inl TypeError ∧
  json_get_any (JArr [JStr "x"]) Spec.id_fields JNull = inr JNull.
Proof.
  split; [|split].
  - destruct (json_get_any_not_object JNull Spec.id_fields JNull)
      as (_ & _ & Hscalar); [done|].
    apply Hscalar; [done|by left].
  - destruct (json_get_any_not_object (JStr "width") Spec.id_fields JNull)
      as (_ & Hfound & _); [done|].
    apply Hfound. intros Hall. apply Forall_cons in Hall as [Hid _].
    vm_compute in Hid. discriminate.
  - destruct (json_get_any_not_object (JArr [JStr "x"]) Spec.id_fields JNull)
      as (Hnone & _); [done|].
    apply Hnone. repeat constructor.
Defined.

Lemma set_access_contract_witness :
  result (@set_access sample_platform sample_api "mbx-1" "user2"
            ["shared_mailbox_owner"; "reader"] "none") sample_input
  = Raise (RuntimeError (SetFailed "user2" ["shared_mailbox_owner"] "none"
                           403 "denied")).
Proof.
  destruct (set_access_contract (H:=sample_platform) sample_api "mbx-1"
              "user2" ["shared_mailbox_owner"; "reader"] "none" sample_input)
    as (sent & res & Hsent & Hcalls & _ & Hrefused & _).
  vm_compute in Hsent. injection Hsent as <-.
  vm_compute in Hcalls. injection Hcalls as <-.
  apply (Hrefused (Response 403 "denied" "denied" None)); by_compute.
Defined.

Lemma parse_actors_csv_wellformed_witness :
  Forall (λ e : entry, e.1.2 ≠ [] ∧ NoDup e.1.2) sample_rows.
Proof.
  destruct (parse_actors_csv_wellformed (H:=sample_platform) "actors.csv"
              sample_rows sample_input) as [_ Hrows]; [by_compute|].
  eapply Forall_impl; [exact Hrows|]. by intros e (_ & ? & ? & _).
Defined.

Lemma parse_actors_csv_missing_file_witness :
  result (@parse_actors_csv sample_platform "nowhere.csv") sample_input
  = Raise (SystemExit 1) ∧
  emitted (@parse_actors_csv sample_platform "nowhere.csv") sample_input
  = [IsFile "nowhere.csv"; Stderr (MsgFileNotFound "nowhere.csv")].
Proof.
  apply (parse_actors_csv_missing_file (H:=sample_platform)). by_compute.
Defined.

Lemma parse_actors_csv_concat_witness :
  result (@parse_actors_csv two_lists_platform "ab.csv") sample_input
  = Ret [("user1", ["reader"], None); ("user1", ["editor"], Some "all")].
Proof.
  destruct (parse_actors_csv_concat (H:=two_lists_platform)
              "a.csv" "b.csv" "ab.csv" ["user1,reader"; "oops"]
              ["user1,editor,all"] sample_input) as [Hboth _];
    [by_compute..|].
  apply (Hboth [("user1", ["reader"], None)]
               [("user1", ["editor"], Some "all")]); by_compute.
Defined.

Lemma missing_credentials_witness :
  emitted (@script bare_platform) sample_input = [Stderr MsgEnvMissing] ∧
  stdin (final (@script bare_platform) sample_input) = stdin sample_input.
Proof.
  destruct (missing_credentials (H:=bare_platform) sample_input)
    as [_ Hmissing].
  destruct Hmissing as (_ & _ & Hevs & Hin); [left; by_compute|].
  by split.
Defined.

Lemma load_env_values_witness :
  result (@load_env comments_platform) sample_input
  = Ret ("t0k", "42", Some "none") ∧
  emitted (@load_env comments_platform) sample_input = [].
Proof.
  destruct (load_env_values (H:=comments_platform) sample_input)
    as (Hres & Hevs & _); [by_compute..|].
  split; [exact Hres|exact Hevs].
Defined.

Lemma ask_behaviour_witness :
  result (ask AskEmail None) sample_input = Ret "box@example.org" ∧
  result (ask AskNotify (Some "all")) (State [CtrlC] [])
  = Raise (SystemExit 1) ∧
  result (ask AskName None) (State [] []) = Raise EOFError.
Proof.
  split; [|split].
  - destruct (ask_behaviour AskEmail None sample_input) as (Htyped & _).
    destruct (Htyped "box@example.org"
                [Typed "Box"; Typed "shared box"; Typed ""; Typed "bogus";
                 Typed " Delegates "])
      as (s & Hres & _ & _ & Hs & _); [reflexivity|].
    destruct Hs as [-> _]; [by_compute|]. exact Hres.
  - destruct (ask_behaviour AskNotify (Some "all") (State [CtrlC] []))
      as (_ & Hint & _).
    by destruct (Hint []).
  - destruct (ask_behaviour AskName None (State [] [])) as (_ & _ & Heof).
    by apply Heof.
Defined.

Lemma invalid_mailbox_fields_witness :
  exit_status
    (result (@script sample_platform)
       (State [Typed "box.example.org"; Typed "Box"; Typed ""] []))
  = Some 1 ∧
  prompts
    (emitted (@script sample_platform)
       (State [Typed "box.example.org"; Typed "Box"; Typed ""] []))
  = [AskEmail; AskName; AskDescription].
Proof.
  destruct (invalid_mailbox_fields (H:=sample_platform)
              (State [Typed "box.example.org"; Typed "Box"; Typed ""] [])
              "box.example.org" "Box" "" [])
    as (Hexit & _ & Hasked); [reflexivity|left; by_compute|].
  destruct Hasked as [Hprompts _]; [by_compute..|].
  by split.
Defined.

Lemma one_creation_before_assignments_witness :
  ∃ a req r b,
    emitted (@script sample_platform) sample_input
    = a ++ Http req (Answer r) :: b ∧
    is_put req ∧ status_code r = 200 ∧ Forall local a ∧ puts b = [].
Proof.
  apply (one_creation_before_assignments (H:=sample_platform)). by_compute.
Defined.

Lemma mailbox_created_before_parsing_witness :
  exit_status (result (@script comments_platform) sample_input) = Some 1 ∧
  calls (emitted (@script comments_platform) sample_input) = [] ∧
  ∃ req r,
    puts (emitted (@script comments_platform) sample_input)
    = [(req, Answer r)] ∧ status_code r = 200.
Proof.
  apply (mailbox_created_before_parsing (H:=comments_platform) sample_input
           (final (@creation comments_platform) sample_input) sample_api
           (Some "none") "mbx-1" ""
           [Typed "bogus"; Typed " Delegates "]).
  - by_compute.
  - by_compute.
  - intros lines Hlines. vm_compute in Hlines. injection Hlines as <-.
    constructor; [right; reflexivity|].
    constructor; [left; reflexivity|constructor].
Defined.

Lemma create_shared_mailbox_failures_witness :
  result (@create_shared_mailbox silent_platform sample_api
            "box@example.org" "Box" "shared box") sample_input
  = Raise (RuntimeError (NoMailboxId (JObj ∅))).
Proof.
  destruct (create_shared_mailbox_failures (H:=silent_platform) sample_api
              "box@example.org" "Box" "shared box" sample_input)
    as (_ & _ & _ & _ & Hempty & _).
  apply (Hempty (Response 200 "" "" None)); reflexivity.
Defined.

Lemma creation_request_from_input_witness :
  ∃ res,
    puts (emitted (@script sample_platform) sample_input)
    = [(PUT "https://api360.yandex.net/admin/v1/org/42/mailboxes/shared"
          (hdrs (Api360_init "t0k" "42"))
          {[ "email" := "box@example.org"; "name" := "Box";
             "description" := "shared box" ]}, res)].
Proof.
  apply (creation_request_from_input (H:=sample_platform) sample_input
           "box@example.org" "Box" "shared box"
           [Typed ""; Typed "bogus"; Typed " Delegates "]); by_compute.
Defined.

Lemma assignments_use_created_id_witness :
  ∃ req r m v,
    puts (emitted (@script sample_platform) sample_input)
    = [(req, Answer r)] ∧
    status_code r = 200 ∧ body_of r = Some (JObj m) ∧
    Spec.first_present m Spec.id_fields = Some v ∧ json_truthy v = true ∧
    Stdout (MsgCreated (sample_str v))
    ∈ emitted (@script sample_platform) sample_input ∧
    Forall (λ c : request * http_result,
              request_url c.1
              = "https://api360.yandex.net/admin/v1/org/"
                  +:+ @env_org_id sample_platform
                  +:+ "/mailboxes/set/" +:+ sample_str v)
      (calls (emitted (@script sample_platform) sample_input)).
Proof.
  apply (assignments_use_created_id (H:=sample_platform) sample_input).
  by_compute.
Defined.

Lemma exit_status_and_requests_witness :
  calls (emitted (@script sample_platform) sample_input) ≠ [] ∧
  exit_status (result (@script comments_platform) sample_input) = Some 1.
Proof.
  split.
  - destruct (exit_status_and_requests (H:=sample_platform) sample_input)
      as (_ & _ & Hdone).
    destruct Hdone as [Hcalls _]; [by_compute|exact Hcalls].
  - destruct (exit_status_and_requests (H:=comments_platform) sample_input)
      as (_ & Hnone & _).
    apply Hnone. by_compute.
Defined.

End MoreSamples.
